(** * pineback2: the AI Twin generator and the selection assistant

    A shallow embedding of [backend/core/ai_utils.py] (with the two models
    of [backend/core/models.py] it touches) and the properties of its
    prompt orchestration and response parsing.

    Conventions of the embedding.
    - A Python [str] is a list of Unicode code points ([text]); [len] is
      [length], [+] is [++].
    - [re.sub] and [re.search] are a small backtracking matcher over the
      fragment of regular expressions the module uses; the patterns of
      the module are values of [regex].
    - The Anthropic client and the Django ORM are the two effects.  A
      function of the module is a tree of events ([eff]); [run] executes
      it against a model service that may answer or fail on every request
      and records the requests sent.
    - The ORM is the table of AI Twins, keyed by document, and the
      relation cache Django keeps on every document instance: the reverse
      accessor [document.twin] asks the table once and answers from the
      instance afterwards, and [get_or_create] puts the object it creates
      on the instance it was given.  An instance has an identity; the
      views load a new one on every request.
    - [str.lower] depends on the Unicode case tables of the interpreter
      and is a variable of the development. *)

From Stdlib Require Import NArith ZArith List Ascii String Bool Lia SpecFloat.
From stdpp Require Import gmap.

Set Default Proof Using "Type".

(* ===================================================================== *)
(** ** Text *)
(* ===================================================================== *)

(** A character is its Unicode code point. *)
Abbreviation char := N.
Abbreviation text := (list N).

(** An ASCII literal as text. *)
Definition str (s : string) : text :=
  map N_of_ascii (list_ascii_of_string s).
Arguments str s%_string.

Definition chr_lt : char := 60%N.        (* < *)
Definition chr_gt : char := 62%N.        (* > *)
Definition chr_nl : char := 10%N.        (* \n *)
Definition chr_dquote : char := 34%N.    (* the double quote *)
Definition chr_warning : text := [9888%N; 65039%N].  (* U+26A0 U+FE0F *)

(** Truthiness of a string: [if s:] holds for the non-empty ones. *)
Definition truthy (s : text) : bool :=
  match s with [] => false | _ :: _ => true end.

(** Truthiness of [None] or a string: [not suggested_text] is
    [negb (truthy_opt suggested_text)]. *)
Definition truthy_opt (o : option text) : bool :=
  match o with None => false | Some s => truthy s end.

(** [str.isspace] for one character: the code points whose bidirectional
    class is WS, B or S, or whose category is Zs. *)
Definition isspace (c : char) : bool :=
  ((9 <=? c) && (c <=? 13) || (28 <=? c) && (c <=? 32)
   || (c =? 133) || (c =? 160) || (c =? 5760)
   || (8192 <=? c) && (c <=? 8202)
   || (c =? 8232) || (c =? 8233) || (c =? 8239) || (c =? 8287)
   || (c =? 12288))%N.

Fixpoint lstrip (s : text) : text :=
  match s with
  | c :: s' => if isspace c then lstrip s' else s
  | [] => []
  end.

Definition rstrip (s : text) : text := rev (lstrip (rev s)).

(** [s.strip()] *)
Definition strip (s : text) : text := rstrip (lstrip s).

(** [t] starts with [p]; the remainder when it does. *)
Fixpoint strip_prefix (p t : text) : option text :=
  match p, t with
  | [], _ => Some t
  | c :: p', d :: t' => if (d =? c)%N then strip_prefix p' t' else None
  | _ :: _, [] => None
  end.

(** [kw in s] on strings: [kw] occurs in [s] as a substring. *)
Fixpoint contains (kw s : text) : bool :=
  match strip_prefix kw s with
  | Some _ => true
  | None => match s with
            | [] => false
            | _ :: s' => contains kw s'
            end
  end.

(** The same, as a proposition. *)
Definition occurs (kw s : text) : Prop :=
  exists a b, s = a ++ kw ++ b.

(* ===================================================================== *)
(** ** Regular expressions: the fragment of [re] the module uses *)
(* ===================================================================== *)

Module Re.

(** One-character items. *)
Inductive cset : Type :=
| One (c : char)        (* a literal character *)
| NoneOf (c : char)     (* [^c] *)
| Dot.                  (* . *)

Inductive regex : Type :=
| Eps
| Atom (a : cset)
| Cat (r1 r2 : regex)
| Plus (a : cset)        (* a+   greedy *)
| StarLazy (a : cset)    (* a*?  lazy *)
| Group (r : regex).     (* (r)  capturing *)

(** Flags: only [re.DOTALL] is used. *)
Record flags : Type := { dotall : bool }.
Definition NOFLAG : flags := {| dotall := false |}.
Definition DOTALL : flags := {| dotall := true |}.

Definition accepts (fl : flags) (a : cset) (c : char) : bool :=
  match a with
  | One d => (c =? d)%N
  | NoneOf d => negb (c =? d)%N
  | Dot => dotall fl || negb (c =? chr_nl)%N
  end.

(** A literal string as a pattern. *)
Fixpoint lit (s : text) : regex :=
  match s with
  | [] => Eps
  | c :: s' => Cat (Atom (One c)) (lit s')
  end.

Section Matcher.
Context {R : Type}.
Variable fl : flags.

(** [a*] greedy, then [k]: take as many as possible, give back one at a
    time while [k] fails. *)
Fixpoint greedy (a : cset) (s : text) (k : text -> option R) : option R :=
  match s with
  | c :: s' =>
      if accepts fl a c then
        match greedy a s' k with
        | Some r => Some r
        | None => k s
        end
      else k s
  | [] => k s
  end.

(** [a*?] lazy, then [k]: take as few as possible, one more while [k]
    fails. *)
Fixpoint lazy (a : cset) (s : text) (k : text -> option R) : option R :=
  match k s with
  | Some r => Some r
  | None =>
      match s with
      | c :: s' => if accepts fl a c then lazy a s' k else None
      | [] => None
      end
  end.

(** The backtracking matcher, anchored at the head of [s].  [k] receives
    the text left over and the groups captured so far. *)
Fixpoint matcher (r : regex) (s : text) (caps : list text)
    (k : text -> list text -> option R) : option R :=
  match r with
  | Eps => k s caps
  | Atom a =>
      match s with
      | c :: s' => if accepts fl a c then k s' caps else None
      | [] => None
      end
  | Cat r1 r2 =>
      matcher r1 s caps (fun s1 caps1 => matcher r2 s1 caps1 k)
  | Plus a =>
      match s with
      | c :: s' =>
          if accepts fl a c then greedy a s' (fun rest => k rest caps)
          else None
      | [] => None
      end
  | StarLazy a => lazy a s (fun rest => k rest caps)
  | Group r1 =>
      matcher r1 s caps
        (fun rest caps1 =>
           k rest (caps1 ++ [firstn (length s - length rest) s]))
  end.
End Matcher.

(** [pattern.match(s)]: the text after the match and the groups. *)
Definition match_here (fl : flags) (r : regex) (s : text)
  : option (text * list text) :=
  matcher fl r s [] (fun rest caps => Some (rest, caps)).

(** A match object: the text before the match, the groups, the text after
    the match. *)
Record match_obj : Type := {
  m_before : text;
  m_groups : list text;
  m_after : text
}.

(** [m.group(i)] for [i >= 1]. *)
Definition group (m : match_obj) (i : nat) : text :=
  nth (i - 1) (m_groups m) [].

Fixpoint search_from (fl : flags) (r : regex) (before_rev : text) (s : text)
  : option match_obj :=
  match match_here fl r s with
  | Some (rest, caps) =>
      Some {| m_before := rev before_rev; m_groups := caps; m_after := rest |}
  | None =>
      match s with
      | [] => None
      | c :: s' => search_from fl r (c :: before_rev) s'
      end
  end.

(** [re.search(r, s, flags)]: the leftmost match. *)
Definition search (r : regex) (s : text) (fl : flags) : option match_obj :=
  search_from fl r [] s.

(** [re.sub] walks the string from the left.  [skip] counts the characters
    of a match still to be dropped.  An empty match is replaced and the
    walk moves one character on. *)
Fixpoint sub_from (fl : flags) (r : regex) (repl : text)
    (skip : nat) (s : text) {struct s} : text :=
  match skip, s with
  | S n, _ :: s' => sub_from fl r repl n s'
  | S _, [] => []
  | O, _ =>
      match match_here fl r s, s with
      | Some (rest, _), c :: s' =>
          match length s - length rest with
          | O => repl ++ c :: sub_from fl r repl 0 s'
          | S n => repl ++ sub_from fl r repl n s'
          end
      | Some _, [] => repl
      | None, c :: s' => c :: sub_from fl r repl 0 s'
      | None, [] => []
      end
  end.

(** [re.sub(r, repl, s, flags=fl)] *)
Definition sub (r : regex) (repl : text) (s : text) (fl : flags) : text :=
  sub_from fl r repl 0 s.

End Re.

(** [r'<[^>]+>'] *)
Definition tag_pattern : Re.regex :=
  Re.Cat (Re.Atom (Re.One chr_lt))
    (Re.Cat (Re.Plus (Re.NoneOf chr_gt)) (Re.Atom (Re.One chr_gt))).

Definition open_tag : text := str "<suggested_text>".
Definition close_tag : text := str "</suggested_text>".

(** [r'<suggested_text>(.*?)</suggested_text>'], the pattern of the
    [re.search] of line 206. *)
Definition suggested_pattern : Re.regex :=
  Re.Cat (Re.lit open_tag)
    (Re.Cat (Re.Group (Re.StarLazy Re.Dot)) (Re.lit close_tag)).

(** [r'<suggested_text>.*?</suggested_text>'], the pattern of the [re.sub]
    of line 210: the same without the group. *)
Definition suggested_span_pattern : Re.regex :=
  Re.Cat (Re.lit open_tag) (Re.Cat (Re.StarLazy Re.Dot) (Re.lit close_tag)).

(** [re.sub(r'<[^>]+>', '', s)], the sanitizer of both components. *)
Definition strip_tags (s : text) : text :=
  Re.sub tag_pattern [] s Re.NOFLAG.

(* ===================================================================== *)
(** ** Data model ([models.py]) *)
(* ===================================================================== *)

(** A [Document] instance: the fields but the two timestamps, and the
    identity of the instance (the Python object), under which the ORM keeps
    what the instance has cached of its relations.  Two instances of one
    row have the same [pk] and different identities. *)
Record Document : Type := {
  pk : Z;
  title : text;
  content : text;
  parent : option Z;
  order : Z;
  instance_id : N
}.

(** An [AITwin] instance: one row per document ([OneToOneField]),
    identified by the key of its document; the two timestamps are left out.
    [cached_on] is the document instance that holds this very object as its
    cached [twin] (the object was built from that instance, or fetched
    through its accessor); an object fetched by the manager is held by
    none. *)
Record AITwin : Type := {
  document_id : Z;
  content_ai : text;
  cached_on : option N
}.

(** [anthropic.Anthropic(api_key=...)] *)
Record Anthropic : Type := { api_key : text }.


(** The keyword arguments of [client.messages.create]. *)
Record request : Type := {
  model : text;
  max_tokens : N;
  system : option text;
  messages : list (text * text)      (* role, content *)
}.

(** What [client.messages.create(...).content[0].text] evaluates to: the
    text of the answer, or an exception with its [str(e)]. *)
Inductive reply : Type :=
| Reply (t : text)
| Failure (detail : text).

(** [AssistResult]: the dict [ai_assist_text] returns. *)
Record AssistResult : Type := {
  response : text;
  suggested_text : option text
}.

(* ===================================================================== *)
(** ** Effects *)
(* ===================================================================== *)

Inductive exn : Type :=
| DoesNotExist (msg : text)      (* AITwin.DoesNotExist *)
| Exception (msg : text).        (* any other Exception *)

(** [str(e)] *)
Definition str_exn (e : exn) : text :=
  match e with
  | DoesNotExist msg => msg
  | Exception msg => msg
  end.

Inductive event : Type -> Type :=
| MessagesCreate (req : request) : event reply
| TwinGetOrCreate (instance : N) (document : Z) : event (AITwin * bool)
| TwinSetContentAi (twin : AITwin) (value : text) : event AITwin
| TwinSave (twin : AITwin) : event unit
| TwinOf (instance : N) (document : Z) : event (option AITwin).

(** A computation: it returns, raises, or performs an event and goes on
    with its answer. *)
Inductive eff (A : Type) : Type :=
| Ret (a : A)
| Raise (e : exn)
| Vis {X : Type} (ev : event X) (k : X -> eff A).
Arguments Ret {A} a.
Arguments Raise {A} e.
Arguments Vis {A X} ev k.

Fixpoint bind {A B : Type} (m : eff A) (f : A -> eff B) : eff B :=
  match m with
  | Ret a => f a
  | Raise e => Raise e
  | Vis ev k => Vis ev (fun x => bind (k x) f)
  end.

Notation "x <- m ;; k" := (bind m (fun x => k))
  (at level 20, m at level 99, k at level 200, only parsing).

(** [try: body except Exception as e: handler(e)] *)
Fixpoint try_except {A : Type} (body : eff A) (handler : exn -> eff A)
  : eff A :=
  match body with
  | Ret a => Ret a
  | Raise e => handler e
  | Vis ev k => Vis ev (fun x => try_except (k x) handler)
  end.

(** [try: body except AITwin.DoesNotExist: handler] *)
Fixpoint try_except_DoesNotExist {A : Type} (body : eff A) (handler : eff A)
  : eff A :=
  match body with
  | Ret a => Ret a
  | Raise (DoesNotExist _) => handler
  | Raise e => Raise e
  | Vis ev k => Vis ev (fun x => try_except_DoesNotExist (k x) handler)
  end.

(** [client.messages.create(...).content[0].text] with the keyword
    arguments [req] *)
Definition messages_create (req : request) : eff text :=
  Vis (MessagesCreate req)
    (fun r => match r with
              | Reply t => Ret t
              | Failure detail => Raise (Exception detail)
              end).

(** [AITwin.objects.get_or_create(document=document)] *)
Definition get_or_create (document : Document) : eff (AITwin * bool) :=
  Vis (TwinGetOrCreate (instance_id document) (pk document)) Ret.

(** [twin.content_ai = value] *)
Definition set_content_ai (twin : AITwin) (value : text) : eff AITwin :=
  Vis (TwinSetContentAi twin value) Ret.

(** [twin.save()] *)
Definition save (twin : AITwin) : eff unit :=
  Vis (TwinSave twin) Ret.

(** [document.twin], the reverse accessor of the one-to-one field. *)
Definition twin (document : Document) : eff AITwin :=
  Vis (TwinOf (instance_id document) (pk document))
    (fun o => match o with
              | Some t => Ret t
              | None => Raise (DoesNotExist (str "Document has no twin."))
              end).

(** The world a computation runs in: the table of AI Twins, as the map
    from the key of a document to the [content_ai] of its twin; the
    requests sent to the model so far; and, for every document instance,
    what the ORM has cached on it for [twin]: no entry while the instance
    has not asked for its twin, [None] once it has asked and found none,
    and the [content_ai] of the twin object it holds otherwise. *)
Record world : Type := {
  twins : gmap Z text;
  sent : list request;
  fields_cache : gmap N (option text)
}.

(** The model service: its answer to a request may depend on all the
    requests before it. *)
Definition service : Type := list request -> request -> reply.

Definition handle (svc : service) {X : Type} (ev : event X) (w : world)
  : X * world :=
  match ev in event X return X * world with
  | MessagesCreate req =>
      (svc (sent w) req,
       {| twins := twins w; sent := sent w ++ [req];
          fields_cache := fields_cache w |})
  | TwinGetOrCreate i d =>
      (* [get]: a new object for the row, held by no instance.  [create]:
         the object is built from the document instance, which makes it
         the cached twin of that instance, and the row is inserted. *)
      match twins w !! d with
      | Some c =>
          (({| document_id := d; content_ai := c; cached_on := None |}, false),
           w)
      | None =>
          (({| document_id := d; content_ai := []; cached_on := Some i |}, true),
           {| twins := <[d := []]> (twins w); sent := sent w;
              fields_cache := <[i := Some []]> (fields_cache w) |})
      end
  | TwinSetContentAi t value =>
      (* the assignment is seen through the cache that holds the object *)
      ({| document_id := document_id t; content_ai := value;
          cached_on := cached_on t |},
       match cached_on t with
       | Some i =>
           {| twins := twins w; sent := sent w;
              fields_cache := <[i := Some value]> (fields_cache w) |}
       | None => w
       end)
  | TwinSave t =>
      (tt, {| twins := <[document_id t := content_ai t]> (twins w);
              sent := sent w; fields_cache := fields_cache w |})
  | TwinOf i d =>
      (* the cached object, or the cached miss; the table is asked only
         when nothing is cached, and the answer is cached *)
      match fields_cache w !! i with
      | Some (Some c) =>
          (Some {| document_id := d; content_ai := c; cached_on := Some i |}, w)
      | Some None => (None, w)
      | None =>
          (match twins w !! d with
           | Some c =>
               Some {| document_id := d; content_ai := c; cached_on := Some i |}
           | None => None
           end,
           {| twins := twins w; sent := sent w;
              fields_cache := <[i := twins w !! d]> (fields_cache w) |})
      end
  end.

Inductive outcome (A : Type) : Type :=
| Returned (a : A)
| Uncaught (e : exn).
Arguments Returned {A} a.
Arguments Uncaught {A} e.

Fixpoint run (svc : service) {A : Type} (p : eff A) (w : world)
  : outcome A * world :=
  match p with
  | Ret a => (Returned a, w)
  | Raise e => (Uncaught e, w)
  | Vis ev k => let (x, w') := handle svc ev w in run svc (k x) w'
  end.

(* ===================================================================== *)
(** ** [ai_utils.py] *)
(* ===================================================================== *)

Definition claude_sonnet : text := str "claude-sonnet-4-20250514".

(** The warning [generate_twin_content] returns without a client. *)
Definition api_key_not_configured_md : text :=
  str "## " ++ chr_warning ++ str " API Key Not Configured

Please set the `ANTHROPIC_API_KEY` environment variable to enable AI features.".

(** The f-string [prompt] of [generate_twin_content]. *)
Definition twin_prompt (document_title clean_content : text) : text :=
  str "You are a Senior Software Architect and Technical Writer.

Transform the following human-written project notes into a high-density, 
structured Markdown document optimized for an LLM to understand a codebase or project.

HUMAN NOTES:
---
Title: " ++ document_title ++ str "

Content:
" ++ clean_content ++ str "
---

OUTPUT REQUIREMENTS:
1. Use clear hierarchical headers:
   - ## Technical Context (what this is about)
   - ## Core Requirements (extracted as bullet points)
   - ## Data Structures (if any entities/models are mentioned)
   - ## Logic Flow (pseudocode if any processes are described)
   - ## Dependencies & Integrations (external systems, APIs)
   - ## Open Questions (uncertainties or TODOs)

2. Extract ALL technical requirements into concise bullet points
3. If any logic or workflow is mentioned, represent it in pseudocode
4. Identify and list any data entities, their attributes, and relationships
5. Keep it CONCISE - no conversational filler, no repetition
6. Use code blocks for any technical specifications
7. If the content is too brief, note what information is missing

IMPORTANT: Output ONLY the structured markdown. No preamble or explanation.".

(** The f-string [error_msg] of [generate_twin_content]: the text before
    [{str(e)}], the detail, the text after it. *)
Definition error_msg_head : text :=
  str "## " ++ chr_warning ++ str " AI Generation Error

Failed to generate AI Twin:

```
".

Definition error_msg_tail : text := str "
```

Please check your API key and try again.".

Definition error_msg (detail : text) : text :=
  error_msg_head ++ detail ++ error_msg_tail.

Definition twin_request (prompt : text) : request :=
  {| model := claude_sonnet;
     max_tokens := 2048;
     system := None;
     messages := [(str "user", prompt)] |}.

Definition system_prompt : text :=
  str "You are an intelligent writing assistant embedded in a document editor.
The user has selected some text and is asking you to help with it.

Your capabilities:
1. Answer questions about the selected text
2. Suggest improvements, rewrites, or edits
3. Expand on ideas
4. Fix grammar, spelling, or style issues
5. Translate or change tone
6. Summarize or simplify

CRITICAL RESPONSE FORMAT:
- If the user asks a QUESTION about the text (like "
  ++ [chr_dquote]
  ++ str "what does this mean?"
  ++ [chr_dquote]
  ++ str "), just provide a helpful answer.
- If the user wants you to MODIFY, IMPROVE, FIX, REWRITE, EXPAND, SHORTEN, or CHANGE the text in ANY way, you MUST:
  1. First give a brief explanation (1-2 sentences max) of what you changed
  2. Then provide the COMPLETE replacement text wrapped EXACTLY like this:
     <suggested_text>your replacement text here</suggested_text>

IMPORTANT: 
- The <suggested_text> tags are REQUIRED for any modification request
- Put the ENTIRE replacement text inside the tags, not just the changed parts
- Do not include any formatting or extra text inside the tags, just the plain replacement text
- Keep explanations brief - the user wants to see the result quickly".

(** [user_message], as the three f-strings build it. *)
Definition user_message (clean_selected clean_context user_prompt : text)
  : text :=
  let user_message := str "SELECTED TEXT:
---
" ++ clean_selected ++ str "
---

" in
  let user_message :=
    if truthy clean_context then
      user_message ++ str "FULL DOCUMENT CONTEXT:
---
" ++ clean_context ++ str "
---

"
    else user_message in
  user_message ++ str "USER REQUEST: " ++ user_prompt.

Definition primary_request (user_message : text) : request :=
  {| model := claude_sonnet;
     max_tokens := 1024;
     system := Some system_prompt;
     messages := [(str "user", user_message)] |}.

(** The f-string of the follow-up call. *)
Definition extraction_prompt (clean_selected response_text : text) : text :=
  str "Based on this AI response about modifying text, extract ONLY the suggested replacement text.

ORIGINAL TEXT: " ++ clean_selected ++ str "

AI RESPONSE: " ++ response_text ++ str "

Return ONLY the replacement text that should replace the original. No explanation, no quotes, just the raw replacement text. If there's no clear replacement suggested, return exactly: NO_REPLACEMENT".

Definition extraction_request (clean_selected response_text : text) : request :=
  {| model := claude_sonnet;
     max_tokens := 512;
     system := None;
     messages := [(str "user", extraction_prompt clean_selected response_text)] |}.

Definition api_key_not_configured : text :=
  str "API key not configured. Please set the ANTHROPIC_API_KEY environment variable.".

Definition NO_REPLACEMENT : text := str "NO_REPLACEMENT".

Definition modification_keywords : list text :=
  [str "improve"; str "fix"; str "rewrite"; str "change"; str "make";
   str "shorten"; str "expand"; str "grammar"; str "spelling";
   str "professional"; str "clearer"; str "concise"; str "better";
   str "translate"; str "simplify"; str "formal"; str "casual";
   str "correct"; str "edit"].

(** The test of line 230 on the stripped answer of the follow-up call:
    [extracted and extracted != "NO_REPLACEMENT" and len(extracted) > 3],
    with the sentinel written between quotes in the source. *)
Definition accepted (extracted : text) : bool :=
  truthy extracted && bool_decide (extracted <> NO_REPLACEMENT)
  && (3 <? length extracted).

Section AiUtils.
(** [str.lower] *)
Variable lower : text -> text.
(** The module-level [client]. *)
Variable client : option Anthropic.

Definition generate_twin_content (document : Document) : eff text :=
  match client with
  | None => Ret api_key_not_configured_md
  | Some _ =>
      let clean_content :=
        Re.sub tag_pattern [] (content document) Re.NOFLAG in
      let prompt := twin_prompt (title document) clean_content in
      try_except
        (ai_content <- messages_create (twin_request prompt) ;;
         tc <- get_or_create document ;;
         twin <- set_content_ai (fst tc) ai_content ;;
         saved <- save twin ;;
         Ret ai_content)
        (fun e => Ret (error_msg (str_exn e)))
  end.

Definition get_twin_content (document : Document) : eff (option text) :=
  try_except_DoesNotExist
    (t <- twin document ;; Ret (Some (content_ai t)))
    (Ret None).

(** [any(kw in user_prompt.lower() for kw in modification_keywords)] *)
Definition is_modification_request (user_prompt : text) : bool :=
  existsb (fun kw => contains kw (lower user_prompt)) modification_keywords.

(** Lines 204-210: [suggested_text] and [response_text] after the search
    for the tags. *)
Definition extract_tagged (response_text : text) : option text * text :=
  match Re.search suggested_pattern response_text Re.DOTALL with
  | Some m =>
      (Some (strip (Re.group m 1)),
       strip (Re.sub suggested_span_pattern [] response_text Re.DOTALL))
  | None => (None, response_text)
  end.

(** The condition of line 213:
    [not suggested_text and is_modification_request]. *)
Definition fallback_due (user_prompt response_text : text) : bool :=
  negb (truthy_opt (fst (extract_tagged response_text)))
  && is_modification_request user_prompt.

Definition ai_assist_text (selected_text user_prompt full_context : text)
  : eff AssistResult :=
  let clean_selected := Re.sub tag_pattern [] selected_text Re.NOFLAG in
  let clean_context :=
    if truthy full_context
    then Re.sub tag_pattern [] full_context Re.NOFLAG else [] in
  let user_message := user_message clean_selected clean_context user_prompt in
  match client with
  | None =>
      Ret {| response := api_key_not_configured; suggested_text := None |}
  | Some _ =>
      let is_modification_request := is_modification_request user_prompt in
      try_except
        (response_text <- messages_create (primary_request user_message) ;;
         let (suggested_text, response_text) := extract_tagged response_text in
         if negb (truthy_opt suggested_text) && is_modification_request then
           extraction <-
             messages_create (extraction_request clean_selected response_text) ;;
           let extracted := strip extraction in
           let suggested_text :=
             if accepted extracted
             then Some extracted else suggested_text in
           Ret {| response := response_text;
                  suggested_text := suggested_text |}
         else
           Ret {| response := response_text;
                  suggested_text := suggested_text |})
        (fun e =>
           Ret {| response := str "Error: " ++ str_exn e;
                  suggested_text := None |})
  end.
End AiUtils.

(* ===================================================================== *)
(** ** Notions the properties are stated with *)
(* ===================================================================== *)

(** The first occurrence of [pat] in [s]: the text before it and the text
    after it. *)
Fixpoint find (pat s : text) : option (text * text) :=
  match strip_prefix pat s with
  | Some rest => Some ([], rest)
  | None =>
      match s with
      | [] => None
      | c :: s' =>
          match find pat s' with
          | Some (a, b) => Some (c :: a, b)
          | None => None
          end
      end
  end.

(** A tag span: [<], at least one character, none of them [>], and [>]. *)
Inductive tag_span : text -> Prop :=
| tag_span_intro (body : text) :
    body <> [] -> ~ In chr_gt body ->
    tag_span (chr_lt :: body ++ [chr_gt]).

Definition starts_with_tag (s : text) : Prop :=
  exists t rest, tag_span t /\ s = t ++ rest.

(** [stripped s out]: reading [s] from the left, every tag span is dropped
    and every character at which no tag span starts is kept. *)
Inductive stripped : text -> text -> Prop :=
| stripped_nil : stripped [] []
| stripped_tag (t rest out : text) :
    tag_span t -> stripped rest out -> stripped (t ++ rest) out
| stripped_keep (c : char) (rest out : text) :
    ~ starts_with_tag (c :: rest) -> stripped rest out ->
    stripped (c :: rest) (c :: out).

(** The text left after the tag span at the head of [s], if there is one. *)
Fixpoint from_gt (s : text) : text :=
  match s with
  | c :: s' => if (c =? chr_gt)%N then s else from_gt s'
  | [] => []
  end.

Definition tag_at (s : text) : option text :=
  match s with
  | c :: d :: s' =>
      if (c =? chr_lt)%N && negb (d =? chr_gt)%N then
        match from_gt s' with
        | _ :: rest => Some rest
        | [] => None
        end
      else None
  | _ => None
  end.

(** [r] contains a span between the two sentinel tags. *)
Definition has_span (r : text) : Prop :=
  exists a p b, r = a ++ open_tag ++ p ++ close_tag ++ b.

(** [r] is [before], then its first span with payload [payload], then
    [after]: the opening tag does not occur earlier and the closing tag
    does not occur in the payload. *)
Definition first_span (r before payload after : text) : Prop :=
  r = before ++ open_tag ++ payload ++ close_tag ++ after
  /\ ~ occurs open_tag before
  /\ ~ occurs close_tag payload.

(** The answer of the follow-up call is turned down: empty, the sentinel,
    or not longer than three characters. *)
Definition rejected (extracted : text) : Prop :=
  extracted = [] \/ extracted = NO_REPLACEMENT \/ length extracted <= 3.

(** The requests a computation sends when run in [w]. *)
Definition calls (svc : service) {A : Type} (p : eff A) (w : world)
  : list request :=
  skipn (length (sent w)) (sent (snd (run svc p w))).

(** The follow-up call of [ai_assist_text] is its only request without a
    system prompt and with [max_tokens=512]. *)
Definition is_extraction_request (req : request) : bool :=
  match system req with
  | None => (max_tokens req =? 512)%N
  | Some _ => false
  end.

Definition extraction_calls (l : list request) : nat :=
  length (List.filter is_extraction_request l).

(** A lower-casing function for examples: [str.lower] on ASCII text. *)
Definition ascii_lower (s : text) : text :=
  map (fun c => if (65 <=? c)%N && (c <=? 90)%N then (c + 32)%N else c) s.

(** The request of [generate_twin_content] for a document. *)
Definition twin_request_of (document : Document) : request :=
  twin_request (twin_prompt (title document) (strip_tags (content document))).

(** The primary request of [ai_assist_text]. *)
Definition primary_request_of (selected_text user_prompt full_context : text)
  : request :=
  primary_request
    (user_message (strip_tags selected_text) (strip_tags full_context)
       user_prompt).

(** The dict of the [except] branch of [ai_assist_text]. *)
Definition error_result (detail : text) : AssistResult :=
  {| response := str "Error: " ++ detail; suggested_text := None |}.

(** Sample data for the examples. *)
Definition world0 : world :=
  {| twins := ∅; sent := []; fields_cache := ∅ |}.

Definition login_flow : Document :=
  {| pk := 1;
     title := str "Login flow";
     content := str "<p>User enters email and password, we check DB</p>";
     parent := None;
     order := 0;
     instance_id := 0 |}.

Definition a_client : Anthropic := {| api_key := str "sk-test" |}.

(** No tag span starts anywhere in [s]. *)
Definition tag_free (s : text) : Prop :=
  forall a b, s = a ++ b -> tag_at b = None.

(** [without_spans a out]: [out] is [a] with every delimited span taken
    out, found first-match from the left, one after the other. *)
Inductive without_spans : text -> text -> Prop :=
| without_spans_none (a : text) :
    ~ has_span a -> without_spans a a
| without_spans_first (a before p after out : text) :
    first_span a before p after -> without_spans after out ->
    without_spans a (before ++ out).

(* ===================================================================== *)
(** ** The views ([views.py]) *)
(* ===================================================================== *)

(** What [json.loads] returns: [None], [bool], [int], [float], [str],
    [list], and [dict] with its items in order. *)
#[warnings="-register-all"]
Inductive json : Type :=
| JNull
| JBool (b : bool)
| JInt (z : Z)
| JFloat (f : spec_float)
| JStr (s : text)
| JArr (l : list json)
| JObj (d : list (text * json)).

(** Truth value testing: [if v:], [not v]. *)
Definition py_truthy (v : json) : bool :=
  match v with
  | JNull => false
  | JBool b => b
  | JInt z => negb (z =? 0)%Z
  | JFloat f => match f with S754_zero _ => false | _ => true end
  | JStr s => truthy s
  | JArr l => match l with [] => false | _ :: _ => true end
  | JObj d => match d with [] => false | _ :: _ => true end
  end.

(** [d.get(key, default)] on a dict. *)
Definition dict_get (d : list (text * json)) (key : text) (default : json)
  : json :=
  match List.find (fun kv => bool_decide (fst kv = key)) d with
  | Some kv => snd kv
  | None => default
  end.

(** [request.POST.get(key)]: the last value given for the key, if any. *)
Fixpoint querydict_get (q : list (text * text)) (key : text) : option text :=
  match q with
  | [] => None
  | (k, v) :: q' =>
      match querydict_get q' key with
      | Some later => Some later
      | None => if bool_decide (k = key) then Some v else None
      end
  end.

(** The outcome of [json.loads(request.body)]. *)
Inductive loads_result : Type :=
| Loaded (data : json)
| JSONDecodeError (msg : text)
| LoadsError (msg : text).         (* any other exception, with [str(e)] *)

(** How the ORM reads a value given for [id] in a lookup: the key of at
    most one row, or an exception with its [str(e)]. *)
Inductive id_match : Type :=
| Matches (id : Z)
| MatchesNothing
| LookupError (msg : text).

(** A row of the table of documents, keyed by [id]; the two timestamps
    are left out. *)
Record DocumentRow : Type := {
  row_title : text;
  row_content : text;
  row_parent : option Z;
  row_order : Z
}.

(** The model instance a view loads from a row, and the row of an
    instance.  A request starts with no instance; the one it loads is its
    first. *)
Definition instance (id : Z) (r : DocumentRow) : Document :=
  {| pk := id; title := row_title r; content := row_content r;
     parent := row_parent r; order := row_order r; instance_id := 0 |}.

Definition row_of (d : Document) : DocumentRow :=
  {| row_title := title d; row_content := content d;
     row_parent := parent d; row_order := order d |}.

(** The database and the model service seen from a view: the table of
    documents beside the world of [ai_utils.py]. *)
Record site : Type := {
  documents : gmap Z DocumentRow;
  ai_world : world
}.

Definition with_world (st : site) (w : world) : site :=
  {| documents := documents st; ai_world := w |}.

(** The world at the start and at the end of a request: the instances of
    a request are made by it and go with it, so no relation is cached. *)
Definition request_world (w : world) : world :=
  {| twins := twins w; sent := sent w; fields_cache := ∅ |}.

Definition with_documents (st : site) (t : gmap Z DocumentRow) : site :=
  {| documents := t; ai_world := ai_world st |}.

(** What the views read of a request. *)
Record HttpRequest : Type := {
  method : text;
  POST : list (text * text);
  body : list Byte.byte
}.

(** A value of a template context.  [Document.objects.filter(parent=None)]
    is a lazy query: the view hands it over unevaluated. *)
Inductive context_value : Type :=
| CtxDocument (doc : Document)
| CtxContent (ai_content : option text)
| CtxTopLevelDocuments.

Inductive HttpResponse : Type :=
| render (template_name : text) (context : list (text * context_value))
| JsonResponse (data : json) (status : N)
| HttpResponseNotAllowed (permitted_methods : list text)
| Http404                      (* raised by [get_object_or_404] *)
| HttpResponseServerError.     (* another exception left the view *)

(** What the interpreter, the framework and the database contribute to
    the views; the development is parametric in it. *)
Record Runtime : Type := {
  rt_lower : text -> text;                 (* [str.lower] *)
  rt_client : option Anthropic;            (* the module-level [client] *)
  json_loads : list Byte.byte -> loads_result;
  id_lookup : json -> id_match;
  new_pk : gmap Z DocumentRow -> Z;        (* the key of an inserted row *)
  (* [str(e)] of the [TypeError] of [re.sub] on a value that is no [str] *)
  type_error_text : json -> text;
  (* [str(e)] of the [AttributeError] for a missing attribute *)
  no_attribute_text : json -> text -> text;
  (* [str(e)] of the [TypeError] of [enumerate] on a value not iterable *)
  not_iterable_text : json -> text;
  (* [sys.get_int_max_str_digits()]: the most digits [int] converts, 4300
     unless set otherwise; 0 for no limit *)
  int_max_str_digits : N
}.

(** [ai_assist_text] as the interpreter runs it on any values: [re.sub]
    (lines 135-136) raises on a value that is no [str], the f-strings take
    any value, and [user_prompt.lower()] (line 190, after the test of the
    client) raises on a value that is no [str]. *)
Definition ai_assist_text_py (rt : Runtime)
    (selected_text user_prompt full_context : json) : eff AssistResult :=
  match selected_text with
  | JStr selected =>
      match (if py_truthy full_context then full_context else JStr []) with
      | JStr context =>
          match user_prompt with
          | JStr prompt =>
              ai_assist_text (rt_lower rt) (rt_client rt) selected prompt context
          | _ =>
              match rt_client rt with
              | None =>
                  Ret {| response := api_key_not_configured;
                         suggested_text := None |}
              | Some _ =>
                  Raise (Exception (no_attribute_text rt user_prompt (str "lower")))
              end
          end
      | other => Raise (Exception (type_error_text rt other))
      end
  | _ => Raise (Exception (type_error_text rt selected_text))
  end.

(** [get_object_or_404(Document, id=doc_id)], [None] for [Http404]. *)
Definition get_object_or_404 (st : site) (doc_id : Z) : option Document :=
  match documents st !! doc_id with
  | Some r => Some (instance doc_id r)
  | None => None
  end.

(** The documents [doc.delete()] removes with [doc]: the collector follows
    [parent] ([on_delete=CASCADE]) from the document to its children, and
    on to theirs. *)
Definition is_child_of (ids : gset Z) (r : DocumentRow) : bool :=
  match row_parent r with
  | Some p => bool_decide (p ∈ ids)
  | None => false
  end.

Definition children_of (t : gmap Z DocumentRow) (ids : gset Z) : gset Z :=
  dom (filter (fun kr => is_child_of ids (snd kr) = true) t).

Fixpoint collect (rounds : nat) (t : gmap Z DocumentRow) (ids : gset Z)
  : gset Z :=
  match rounds with
  | O => ids
  | S n => collect n t (ids ∪ children_of t ids)
  end.

Definition cascade (t : gmap Z DocumentRow) (id : Z) : gset Z :=
  collect (size t) t {[id]}.

(** [doc.delete()]: the collected documents go, and their twins with them
    ([AITwin.document] is [on_delete=CASCADE] too). *)
Definition delete_cascade (doc : Document) (st : site) : site :=
  let gone := cascade (documents st) (pk doc) in
  {| documents := filter (fun kr => fst kr ∉ gone) (documents st);
     ai_world :=
       {| twins := filter (fun kr => fst kr ∉ gone) (twins (ai_world st));
          sent := sent (ai_world st);
          fields_cache := fields_cache (ai_world st) |} |}.

(** A row with another [order]. *)
Definition with_order (index : Z) (r : DocumentRow) : DocumentRow :=
  {| row_title := row_title r; row_content := row_content r;
     row_parent := row_parent r; row_order := index |}.

(** [Document.objects.filter(id=k).update(order=index)] *)
Definition update_order (k : Z) (index : Z) (t : gmap Z DocumentRow)
  : gmap Z DocumentRow :=
  alter (with_order index) k t.

(** What [for ... in enumerate(order_list)] walks over: the items of a
    list, the characters of a string, the keys of a dict. *)
Definition py_iter (rt : Runtime) (v : json) : list json + text :=
  match v with
  | JArr l => inl l
  | JStr s => inl (map (fun c => JStr [c]) s)
  | JObj d => inl (map (fun kv => JStr (fst kv)) d)
  | _ => inr (not_iterable_text rt v)
  end.

(** The loop of [reorder_documents] from [index] on: the table it leaves,
    and [str(e)] if a lookup raised. *)
Fixpoint reorder_loop (rt : Runtime) (index : Z) (items : list json)
    (t : gmap Z DocumentRow) : gmap Z DocumentRow * option text :=
  match items with
  | [] => (t, None)
  | doc_id :: rest =>
      match id_lookup rt doc_id with
      | Matches k => reorder_loop rt (index + 1) rest (update_order k index t)
      | MatchesNothing => reorder_loop rt (index + 1) rest t
      | LookupError msg => (t, Some msg)
      end
  end.

Definition POST_method : text := str "POST".

(** [JsonResponse({'error': message}, status=status)] *)
Definition error_response (message : text) (status : N) : HttpResponse :=
  JsonResponse (JObj [(str "error", JStr message)]) status.

(** [JsonResponse(result)] for the dict of [ai_assist_text]. *)
Definition result_response (result : AssistResult) : HttpResponse :=
  JsonResponse
    (JObj [(str "response", JStr (response result));
           (str "suggested_text",
            match suggested_text result with
            | Some s => JStr s
            | None => JNull
            end)])
    200.

(** The list of top-level documents, as every sidebar view renders it. *)
Definition documents_context : text * context_value :=
  (str "documents", CtxTopLevelDocuments).

Section Views.
Variable rt : Runtime.
Variable svc : service.

Definition workspace (request : HttpRequest) (st : site)
  : HttpResponse * site :=
  (render (str "core/workspace.html") [documents_context], st).

Definition create_document (request : HttpRequest) (st : site)
  : HttpResponse * site :=
  let parent_id := querydict_get (POST request) (str "parent_id") in
  let create (parent : option Z) :=
    (render (str "core/partials/document_list.html") [documents_context],
     with_documents st
       (<[new_pk rt (documents st) :=
            {| row_title := str "Untitled Document";
               row_content := [];
               row_parent := parent;
               row_order := 0 |}]> (documents st))) in
  match parent_id with
  | Some (c :: s) =>
      match id_lookup rt (JStr (c :: s)) with
      | Matches k =>
          match get_object_or_404 st k with
          | Some parent => create (Some (pk parent))
          | None => (Http404, st)
          end
      | MatchesNothing => (Http404, st)
      | LookupError _ => (HttpResponseServerError, st)
      end
  | _ => create None
  end.

Definition get_document (request : HttpRequest) (doc_id : Z) (st : site)
  : HttpResponse * site :=
  match get_object_or_404 st doc_id with
  | None => (Http404, st)
  | Some doc =>
      match run svc (get_twin_content doc) (request_world (ai_world st)) with
      | (Returned ai_content, w) =>
          (render (str "core/partials/doc_load_sync.html")
             [(str "doc", CtxDocument doc);
              (str "ai_content", CtxContent ai_content)],
           with_world st (request_world w))
      | (Uncaught _, w) =>
          (HttpResponseServerError, with_world st (request_world w))
      end
  end.

Definition update_document (request : HttpRequest) (doc_id : Z) (st : site)
  : HttpResponse * site :=
  match get_object_or_404 st doc_id with
  | None => (Http404, st)
  | Some doc =>
      let doc :=
        if bool_decide (method request = POST_method) then
          {| pk := pk doc;
             title :=
               match querydict_get (POST request) (str "title") with
               | Some t => t
               | None => title doc
               end;
             content :=
               match querydict_get (POST request) (str "content") with
               | Some t => t
               | None => content doc
               end;
             parent := parent doc;
             order := order doc;
             instance_id := instance_id doc |}
        else doc in
      (render (str "core/partials/sidebar_sync.html")
         [(str "doc", CtxDocument doc); documents_context],
       if bool_decide (method request = POST_method)
       then with_documents st (<[pk doc := row_of doc]> (documents st))
       else st)
  end.

Definition delete_document (request : HttpRequest) (doc_id : Z) (st : site)
  : HttpResponse * site :=
  match get_object_or_404 st doc_id with
  | None => (Http404, st)
  | Some doc =>
      (render (str "core/partials/document_list.html") [documents_context],
       delete_cascade doc st)
  end.

Definition reorder_documents (request : HttpRequest) (st : site)
  : HttpResponse * site :=
  let error (message : text) :=
    JsonResponse
      (JObj [(str "status", JStr (str "error"));
             (str "message", JStr message)]) 400 in
  if negb (bool_decide (method request = POST_method)) then
    (HttpResponseNotAllowed [POST_method], st)
  else
    match json_loads rt (body request) with
    | JSONDecodeError msg => (error msg, st)
    | LoadsError msg => (error msg, st)
    | Loaded data =>
        match data with
        | JObj d =>
            let order_list := dict_get d (str "order") (JArr []) in
            let parent_id := dict_get d (str "parent_id") JNull in
            match py_iter rt order_list with
            | inr msg => (error msg, st)
            | inl items =>
                match reorder_loop rt 0 items (documents st) with
                | (t, None) =>
                    (JsonResponse
                       (JObj [(str "status", JStr (str "success"))]) 200,
                     with_documents st t)
                | (t, Some msg) => (error msg, with_documents st t)
                end
            end
        | _ => (error (no_attribute_text rt data (str "get")), st)
        end
    end.

Definition sync_ai_twin (request : HttpRequest) (doc_id : Z) (st : site)
  : HttpResponse * site :=
  if negb (bool_decide (method request = POST_method)) then
    (HttpResponseNotAllowed [POST_method], st)
  else
    match get_object_or_404 st doc_id with
    | None => (Http404, st)
    | Some doc =>
        match run svc (generate_twin_content (rt_client rt) doc)
                (request_world (ai_world st)) with
        | (Returned ai_content, w) =>
            (render (str "core/partials/ai_column.html")
               [(str "doc", CtxDocument doc);
                (str "ai_content", CtxContent (Some ai_content))],
             with_world st (request_world w))
        | (Uncaught _, w) =>
            (HttpResponseServerError, with_world st (request_world w))
        end
    end.

Definition ai_assist (request : HttpRequest) (st : site)
  : HttpResponse * site :=
  if negb (bool_decide (method request = POST_method)) then
    (HttpResponseNotAllowed [POST_method], st)
  else
    match json_loads rt (body request) with
    | JSONDecodeError _ => (error_response (str "Invalid JSON") 400, st)
    | LoadsError msg => (error_response msg 500, st)
    | Loaded data =>
        match data with
        | JObj d =>
            let selected_text := dict_get d (str "selected_text") (JStr []) in
            let user_prompt := dict_get d (str "prompt") (JStr []) in
            let full_context := dict_get d (str "full_context") (JStr []) in
            if negb (py_truthy selected_text) || negb (py_truthy user_prompt)
            then
              (error_response
                 (str "Both selected_text and prompt are required") 400, st)
            else
              match run svc
                      (ai_assist_text_py rt selected_text user_prompt
                         full_context) (ai_world st) with
              | (Returned result, w) => (result_response result, with_world st w)
              | (Uncaught e, w) =>
                  (error_response (str_exn e) 500, with_world st w)
              end
        | _ => (error_response (no_attribute_text rt data (str "get")) 500, st)
        end
    end.
End Views.

(** A runtime for the examples: the body is decoded by [loads], a lookup
    for [id] takes integers only. *)
Definition example_runtime (loads : list Byte.byte -> loads_result) : Runtime :=
  {| rt_lower := ascii_lower;
     rt_client := Some a_client;
     json_loads := loads;
     id_lookup := fun v =>
       match v with
       | JInt z => Matches z
       | JNull => MatchesNothing
       | _ => LookupError (str "Field 'id' expected a number")
       end;
     new_pk := fun t => (map_fold (fun k _ m => Z.max k m) 0 t + 1)%Z;
     type_error_text := fun _ => str "expected string or bytes-like object";
     no_attribute_text := fun _ name => str "object has no attribute " ++ name;
     not_iterable_text := fun _ => str "object is not iterable";
     int_max_str_digits := 4300 |}.

(** The position, counted from [index], of the last of [items] that the
    ORM reads as the key [k]. *)
Fixpoint last_match (rt : Runtime) (k : Z) (index : Z) (items : list json)
  : option Z :=
  match items with
  | [] => None
  | v :: rest =>
      match last_match rt k (index + 1) rest with
      | Some i => Some i
      | None =>
          match id_lookup rt v with
          | Matches j => if bool_decide (j = k) then Some index else None
          | _ => None
          end
      end
  end.

(** The row of [k] after the items were walked: its [order] is the
    position of the last item naming it, if one does. *)
Definition reordered (rt : Runtime) (k : Z) (items : list json)
    (r : DocumentRow) : DocumentRow :=
  match last_match rt k 0 items with
  | Some i => with_order i r
  | None => r
  end.

(** The ORM reads the value as a key or as matching nothing: the lookup
    does not raise. *)
Definition resolves (rt : Runtime) (v : json) : Prop :=
  forall msg, id_lookup rt v <> LookupError msg.


(** [p] is the parent of [k] in the table. *)
Definition parent_of (t : gmap Z DocumentRow) (k p : Z) : Prop :=
  exists r, t !! k = Some r /\ row_parent r = Some p.

(** [k] is [id] or lies below it: [id] is reached from [k] by going from a
    document to its parent. *)
Definition descends (t : gmap Z DocumentRow) (k id : Z) : Prop :=
  rtc (parent_of t) k id.


(* ===================================================================== *)
(** ** [config/urls.py] *)
(* ===================================================================== *)

(** The parts of a route of [path()]: literal text and [<int:name>]. *)
Inductive route_part : Type :=
| Literal (s : text)
| IntConverter (parameter : text).

(** What a pattern hands the request to: the admin site or a view of
    [core.views]. *)
Inductive callback : Type :=
| admin_site_urls
| View_workspace
| View_create_document
| View_get_document
| View_update_document
| View_delete_document
| View_sync_ai_twin
| View_reorder_documents
| View_ai_assist.

(** A pattern: a route that ends with the path ([is_endpoint], a view) or
    is only its beginning (an included list of patterns). *)
Record URLPattern : Type := {
  route : list route_part;
  is_endpoint : bool;
  target : callback;
  pattern_name : option text
}.

(** [path(route, view, name=name)] *)
Definition path (parts : list route_part) (view : callback) (name : text)
  : URLPattern :=
  {| route := parts; is_endpoint := true; target := view;
     pattern_name := Some name |}.

(** [path(route, urls)] for the list of patterns of a site. *)
Definition path_include (parts : list route_part) (urls : callback)
  : URLPattern :=
  {| route := parts; is_endpoint := false; target := urls;
     pattern_name := None |}.

Definition urlpatterns : list URLPattern :=
  [ path_include [Literal (str "admin/")] admin_site_urls;
    path [] View_workspace (str "workspace");
    path [Literal (str "create-doc/")] View_create_document
      (str "create_document");
    path [Literal (str "doc/"); IntConverter (str "doc_id"); Literal (str "/")]
      View_get_document (str "get_document");
    path [Literal (str "doc/"); IntConverter (str "doc_id");
          Literal (str "/update/")]
      View_update_document (str "update_document");
    path [Literal (str "doc/"); IntConverter (str "doc_id");
          Literal (str "/delete/")]
      View_delete_document (str "delete_document");
    path [Literal (str "doc/"); IntConverter (str "doc_id");
          Literal (str "/sync/")]
      View_sync_ai_twin (str "sync_ai_twin");
    path [Literal (str "reorder-docs/")] View_reorder_documents
      (str "reorder_documents");
    path [Literal (str "ai-assist/")] View_ai_assist (str "ai_assist") ].

(** [[0-9]], the characters of the [int] converter. *)
Definition is_digit (c : char) : bool := (48 <=? c)%N && (c <=? 57)%N.

(** The number a text of digits writes. *)
Definition int_of_digits (value : text) : Z :=
  fold_left (fun n c => (10 * n + (Z.of_N c - 48))%Z) value 0%Z.

(** The text has no more digits than [int] converts. *)
Definition within_int_limit (rt : Runtime) (value : text) : bool :=
  (int_max_str_digits rt =? 0)%N
  || (N.of_nat (length value) <=? int_max_str_digits rt)%N.

(** [IntConverter.to_python]: [int(value)] of a text of digits, [None]
    when it raises [ValueError], which it does on a text longer than the
    limit. *)
Definition to_python (rt : Runtime) (value : text) : option Z :=
  if within_int_limit rt value then Some (int_of_digits value) else None.

(** [[0-9]*] after the digits [taken], then [k]: as many as possible, one
    given back at a time while [k] fails. *)
Fixpoint more_digits {R : Type} (s taken : text)
    (k : text -> text -> option R) : option R :=
  match s with
  | c :: s' =>
      if is_digit c then
        match more_digits s' (taken ++ [c]) k with
        | Some r => Some r
        | None => k taken s
        end
      else k taken s
  | [] => k taken s
  end.

(** [(?P<parameter>[0-9]+)], then [k] on the digits and the rest. *)
Definition int_converter {R : Type} (s : text)
    (k : text -> text -> option R) : option R :=
  match s with
  | c :: s' => if is_digit c then more_digits s' [c] k else None
  | [] => None
  end.

(** The route against the path from its head on; an endpoint ends where
    the path ends.  The keyword arguments come out as the texts matched. *)
Fixpoint route_match (parts : list route_part) (endpoint : bool) (s : text)
    (kwargs : list (text * text)) : option (list (text * text)) :=
  match parts with
  | [] =>
      if endpoint then
        match s with
        | [] => Some kwargs
        | _ :: _ => None
        end
      else Some kwargs
  | Literal l :: rest =>
      match strip_prefix l s with
      | Some s' => route_match rest endpoint s' kwargs
      | None => None
      end
  | IntConverter parameter :: rest =>
      int_converter s
        (fun value s' =>
           route_match rest endpoint s' (kwargs ++ [(parameter, value)]))
  end.

(** The texts matched, each through [to_python] of its converter; [None]
    as soon as one raises. *)
Fixpoint convert (rt : Runtime) (matched : list (text * text))
  : option (list (text * Z)) :=
  match matched with
  | [] => Some []
  | (parameter, value) :: rest =>
      match to_python rt value with
      | Some n =>
          match convert rt rest with
          | Some kwargs => Some ((parameter, n) :: kwargs)
          | None => None
          end
      | None => None
      end
  end.

(** [RoutePattern.match]: the route takes the path and every text
    matched converts; a pattern whose converter raises does not take the
    path. *)
Definition pattern_match (rt : Runtime) (p : URLPattern) (s : text)
  : option (list (text * Z)) :=
  match route_match (route p) (is_endpoint p) s [] with
  | Some matched => convert rt matched
  | None => None
  end.

(** The first pattern of the list that takes the path. *)
Fixpoint resolve_in (rt : Runtime) (patterns : list URLPattern) (s : text)
  : option (callback * list (text * Z)) :=
  match patterns with
  | [] => None
  | p :: rest =>
      match pattern_match rt p s with
      | Some kwargs => Some (target p, kwargs)
      | None => resolve_in rt rest s
      end
  end.

(** [resolve(path_info)]: the slash at the head, then [urlpatterns];
    [None] for [Resolver404]. *)
Definition resolve (rt : Runtime) (path_info : text)
  : option (callback * list (text * Z)) :=
  match path_info with
  | c :: s => if (c =? 47)%N then resolve_in rt urlpatterns s else None
  | [] => None
  end.

(** The keyword argument of that name. *)
Fixpoint kwarg (kwargs : list (text * Z)) (parameter : text) : option Z :=
  match kwargs with
  | [] => None
  | (k, v) :: rest =>
      if bool_decide (k = parameter) then Some v else kwarg rest parameter
  end.

(** A request for [path_info] served: the view of the pattern that takes
    the path is called with the request and the keyword arguments; no
    pattern gives 404.  [None] when the admin site takes the request,
    which this development does not follow, as it does not follow the
    middleware around the views. *)
Definition get_response (rt : Runtime) (svc : service) (path_info : text)
    (request : HttpRequest) (st : site) : option (HttpResponse * site) :=
  let with_doc_id (kwargs : list (text * Z))
                  (view : Z -> site -> HttpResponse * site) :=
    match kwarg kwargs (str "doc_id") with
    | Some doc_id => Some (view doc_id st)
    | None => Some (HttpResponseServerError, st)
    end in
  match resolve rt path_info with
  | None => Some (Http404, st)
  | Some (admin_site_urls, _) => None
  | Some (View_workspace, _) => Some (workspace request st)
  | Some (View_create_document, _) => Some (create_document rt request st)
  | Some (View_get_document, kwargs) =>
      with_doc_id kwargs (get_document svc request)
  | Some (View_update_document, kwargs) =>
      with_doc_id kwargs (update_document request)
  | Some (View_delete_document, kwargs) =>
      with_doc_id kwargs (delete_document request)
  | Some (View_sync_ai_twin, kwargs) =>
      with_doc_id kwargs (sync_ai_twin rt svc request)
  | Some (View_reorder_documents, _) => Some (reorder_documents rt request st)
  | Some (View_ai_assist, _) => Some (ai_assist rt svc request st)
  end.

(** The decimal digits of a number, as [str(n)] writes them. *)
Definition all_digits (d : text) : Prop :=
  d <> [] /\ forallb is_digit d = true.

(** The text goes on with no digit. *)
Definition no_digit_head (s : text) : Prop :=
  match s with
  | c :: _ => is_digit c = false
  | [] => True
  end.

(** What a path that a pattern takes looks like, and the keyword
    arguments it gives. *)
Definition path_shape (rt : Runtime) (p : URLPattern) (s : text)
    (kwargs : list (text * Z)) : Prop :=
  match route p, is_endpoint p with
  | [], true => s = [] /\ kwargs = []
  | [Literal l], true => s = l /\ kwargs = []
  | [Literal l], false => (exists rest, s = l ++ rest) /\ kwargs = []
  | [Literal l; IntConverter parameter; Literal suffix], true =>
      exists d,
        all_digits d /\ within_int_limit rt d = true
        /\ s = l ++ d ++ suffix
        /\ kwargs = [(parameter, int_of_digits d)]
  | _, _ => False
  end.

(** The routes of the views of one document, by the text after the key. *)
Definition document_routes : list (callback * text) :=
  [ (View_get_document, str "/");
    (View_update_document, str "/update/");
    (View_delete_document, str "/delete/");
    (View_sync_ai_twin, str "/sync/") ].

(** One step of [run] on the events of the module. *)
Ltac run_step :=
  cbn [run handle bind try_except try_except_DoesNotExist messages_create
       get_or_create set_content_ai save twin fst snd sent twins fields_cache
       document_id content_ai cached_on].

(* ===================================================================== *)
(** ** Text lemmas *)
(* ===================================================================== *)

Lemma strip_prefix_app (p rest : text) : strip_prefix p (p ++ rest) = Some rest.
Proof.
  induction p as [|c p IH]; simpl; [reflexivity|].
  rewrite N.eqb_refl. exact IH.
Qed.

Lemma strip_prefix_Some (p s rest : text) :
  strip_prefix p s = Some rest -> s = p ++ rest.
Proof.
  revert s. induction p as [|c p IH]; intros s H; simpl in *.
  - congruence.
  - destruct s as [|d s]; [discriminate|].
    destruct (N.eqb_spec d c) as [->|]; [|discriminate].
    f_equal. apply IH. exact H.
Qed.

Lemma strip_prefix_None (p s : text) :
  strip_prefix p s = None -> forall rest, s <> p ++ rest.
Proof.
  intros H rest ->. rewrite strip_prefix_app in H. discriminate.
Qed.

Lemma occurs_app_l (kw a b : text) : occurs kw a -> occurs kw (a ++ b).
Proof.
  intros (x & y & ->). exists x, (y ++ b). now rewrite <- !app_assoc.
Qed.

Lemma occurs_app_r (kw a b : text) : occurs kw b -> occurs kw (a ++ b).
Proof.
  intros (x & y & ->). exists (a ++ x), y. now rewrite <- !app_assoc.
Qed.

Lemma occurs_cons (kw : text) (c : char) (s : text) :
  occurs kw s -> occurs kw (c :: s).
Proof. apply (occurs_app_r kw [c] s). Qed.

Lemma occurs_self (kw b : text) : occurs kw (kw ++ b).
Proof. now exists [], b. Qed.

(** [contains] decides [occurs]. *)
Lemma contains_occurs (kw s : text) : contains kw s = true <-> occurs kw s.
Proof.
  induction s as [|c s IH]; simpl.
  - destruct (strip_prefix kw []) as [rest|] eqn:E.
    + split; [intros _|reflexivity].
      apply strip_prefix_Some in E. rewrite E. apply occurs_self.
    + split; [discriminate|].
      intros (a & b & H). symmetry in H.
      apply app_eq_nil in H as [-> H]. apply app_eq_nil in H as [-> ->].
      simpl in E. discriminate.
  - destruct (strip_prefix kw (c :: s)) as [rest|] eqn:E.
    + split; [intros _|reflexivity].
      apply strip_prefix_Some in E. rewrite E. apply occurs_self.
    + rewrite IH. split; [apply occurs_cons|].
      intros (a & b & H). destruct a as [|d a].
      * exfalso. eapply strip_prefix_None; eauto.
      * injection H as -> ->. now exists a, b.
Qed.

(** No occurrence of a pattern can straddle the start of another when the
    first character of the pattern does not occur again in it. *)
Lemma no_straddle_tail (c : char) (tail b y z : text) :
  ~ In c tail -> tail ++ y = b ++ c :: z -> exists v, b = tail ++ v.
Proof.
  revert b. induction tail as [|t tail IH]; intros b Hc H.
  - now exists b.
  - destruct b as [|d b]; simpl in H.
    + injection H as Ht _. exfalso. apply Hc. left. exact Ht.
    + injection H as -> H. destruct (IH b) as [v ->]; [|exact H|now exists v].
      intros Hin. apply Hc. now right.
Qed.

Lemma no_straddle (c : char) (tail b x y : text) :
  ~ In c tail ->
  (c :: tail) ++ y = b ++ (c :: tail) ++ x ->
  b = [] \/ occurs (c :: tail) b.
Proof.
  intros Hc H. destruct b as [|d b]; [now left|right].
  simpl in H. injection H as Hd H. subst d.
  destruct (no_straddle_tail c tail b y (tail ++ x) Hc H) as [v ->].
  exists [], v. reflexivity.
Qed.

Lemma find_Some (pat s a b : text) :
  find pat s = Some (a, b) -> s = a ++ pat ++ b.
Proof.
  revert a b. induction s as [|c s IH]; intros a b; simpl.
  - destruct (strip_prefix pat []) eqn:E; [|discriminate].
    intros [= <- <-]. now apply strip_prefix_Some in E.
  - destruct (strip_prefix pat (c :: s)) eqn:E.
    + intros [= <- <-]. now apply strip_prefix_Some in E.
    + destruct (find pat s) as [[a' b']|]; [|discriminate].
      intros [= <- <-]. simpl. f_equal. now apply IH.
Qed.

(** [find] returns the first occurrence: the pattern does not occur in
    what it puts before it. *)
Lemma find_first (pat s a b : text) :
  pat <> [] -> find pat s = Some (a, b) -> ~ occurs pat a.
Proof.
  intros Hne. revert a b. induction s as [|c s IH]; intros a b; simpl.
  - destruct (strip_prefix pat []) eqn:E; [|discriminate].
    intros [= <- <-] (x & y & H). symmetry in H.
    apply app_eq_nil in H as [_ H]. apply app_eq_nil in H as [H _]. tauto.
  - destruct (strip_prefix pat (c :: s)) eqn:E.
    + intros [= <- <-] (x & y & H). symmetry in H.
      apply app_eq_nil in H as [_ H]. apply app_eq_nil in H as [H _]. tauto.
    + destruct (find pat s) as [[a' b']|] eqn:F; [|discriminate].
      intros [= <- <-] (x & y & H).
      pose proof (find_Some _ _ _ _ F) as Hs.
      destruct x as [|d x].
      * simpl in H. apply (strip_prefix_None _ _ E (skipn (length pat) (c :: s))).
        rewrite Hs. rewrite app_comm_cons, H.
        rewrite <- app_assoc, skipn_app, skipn_all, Nat.sub_diag. reflexivity.
      * injection H as -> ->. apply (IH _ _ eq_refl). now exists x, y.
Qed.

Lemma find_None (pat s : text) : find pat s = None <-> ~ occurs pat s.
Proof.
  induction s as [|c s IH]; simpl.
  - destruct (strip_prefix pat []) eqn:E.
    + split; [discriminate|]. intros H. exfalso. apply H.
      apply strip_prefix_Some in E. rewrite E. apply occurs_self.
    + split; [|reflexivity]. intros _ (a & b & H).
      destruct a; [|discriminate]. eapply strip_prefix_None; eauto.
  - destruct (strip_prefix pat (c :: s)) eqn:E.
    + split; [discriminate|]. intros H. exfalso. apply H.
      apply strip_prefix_Some in E. rewrite E. apply occurs_self.
    + destruct (find pat s) as [[a b]|] eqn:F.
      * split; [discriminate|]. intros H. exfalso. apply H.
        apply occurs_cons. apply find_Some in F. rewrite F.
        now exists a, b.
      * split; [|reflexivity]. intros _ (a & b & H).
        destruct a as [|d a].
        -- eapply strip_prefix_None; eauto.
        -- injection H as -> ->. apply IH; [reflexivity|]. now exists a, b.
Qed.

Lemma find_cons (pat : text) (c : char) (s : text) :
  find pat (c :: s) =
  match strip_prefix pat (c :: s) with
  | Some rest => Some ([], rest)
  | None => match find pat s with
            | Some (a, b) => Some (c :: a, b)
            | None => None
            end
  end.
Proof. reflexivity. Qed.

Lemma find_self (pat b : text) : find pat (pat ++ b) = Some ([], b).
Proof.
  destruct (pat ++ b) eqn:E; simpl; rewrite <- E, strip_prefix_app; reflexivity.
Qed.

(** The first occurrence is where the pattern is put, when it does not
    occur before and cannot straddle. *)
Lemma find_app (c : char) (tail a b : text) :
  ~ In c tail -> ~ occurs (c :: tail) a ->
  find (c :: tail) (a ++ (c :: tail) ++ b) = Some (a, b).
Proof.
  intros Hc. induction a as [|d a IH]; intros Hocc.
  - apply (find_self (c :: tail) b).
  - change ((d :: a) ++ (c :: tail) ++ b) with (d :: a ++ (c :: tail) ++ b).
    rewrite find_cons.
    destruct (strip_prefix _ _) eqn:E.
    + exfalso. apply strip_prefix_Some in E.
      change (d :: a ++ (c :: tail) ++ b) with ((d :: a) ++ (c :: tail) ++ b) in E.
      symmetry in E.
      destruct (no_straddle c tail (d :: a) b l Hc E) as [H|H]; auto; discriminate.
    + rewrite IH; [reflexivity|].
      intros H. apply Hocc. now apply occurs_cons.
Qed.

(* ===================================================================== *)
(** ** The matcher on the two patterns *)
(* ===================================================================== *)

Lemma matcher_lit {R : Type} (fl : Re.flags) (p s : text) (caps : list text)
    (k : text -> list text -> option R) :
  Re.matcher fl (Re.lit p) s caps k =
  match strip_prefix p s with
  | Some rest => k rest caps
  | None => None
  end.
Proof.
  revert s. induction p as [|c p IH]; intros s; simpl; [reflexivity|].
  destruct s as [|d s]; [reflexivity|].
  destruct (d =? c)%N; [apply IH|reflexivity].
Qed.

Lemma from_gt_head (s : text) (g : char) (rest : text) :
  from_gt s = g :: rest -> g = chr_gt.
Proof.
  induction s as [|c s IH]; simpl; [discriminate|].
  destruct (N.eqb_spec c chr_gt) as [->|]; [|exact IH].
  now intros [= <- _].
Qed.

Lemma from_gt_split (s : text) (g : char) (rest : text) :
  from_gt s = g :: rest ->
  exists body, ~ In chr_gt body /\ s = body ++ chr_gt :: rest.
Proof.
  induction s as [|c s IH]; simpl; [discriminate|].
  destruct (N.eqb_spec c chr_gt) as [->|Hc].
  - intros [= _ <-]. exists []. split; [intros []|reflexivity].
  - intros H. destruct (IH H) as (body & Hb & ->).
    exists (c :: body). split; [|reflexivity].
    intros [E|E]; [now apply Hc|now apply Hb].
Qed.

Lemma from_gt_app (body rest : text) :
  ~ In chr_gt body -> from_gt (body ++ chr_gt :: rest) = chr_gt :: rest.
Proof.
  induction body as [|c body IH]; intros Hb; simpl.
  - reflexivity.
  - destruct (N.eqb_spec c chr_gt) as [->|_].
    + exfalso. apply Hb. now left.
    + apply IH. intros H. apply Hb. now right.
Qed.

(** Greedy [[^>]*] before something that needs a [>]: everything up to the
    first [>] is taken, and giving characters back cannot help. *)
Lemma greedy_not_gt {R : Type} (fl : Re.flags) (s : text) (k : text -> option R) :
  (forall c t, (c =? chr_gt)%N = false -> k (c :: t) = None) ->
  Re.greedy fl (Re.NoneOf chr_gt) s k = k (from_gt s).
Proof.
  intros Hk. induction s as [|c s IH]; simpl; [reflexivity|].
  destruct (c =? chr_gt)%N eqn:E; simpl; [reflexivity|].
  rewrite IH. destruct (k (from_gt s)); [reflexivity|].
  now apply Hk.
Qed.

(** [tag_at] is the matcher on [<[^>]+>]. *)
Lemma match_here_tag (s : text) :
  Re.match_here Re.NOFLAG tag_pattern s =
  match tag_at s with
  | Some rest => Some (rest, [])
  | None => None
  end.
Proof.
  unfold Re.match_here, tag_pattern, tag_at. cbn [Re.matcher Re.accepts].
  destruct s as [|c s]; [reflexivity|].
  destruct (c =? chr_lt)%N; cbn [andb]; [|now destruct s].
  destruct s as [|d s]; [reflexivity|].
  destruct (d =? chr_gt)%N; cbn [negb]; [reflexivity|].
  rewrite greedy_not_gt.
  - destruct (from_gt s) as [|g rest] eqn:E; [reflexivity|].
    apply from_gt_head in E. subst g. reflexivity.
  - intros g t Hg. now rewrite Hg.
Qed.

Lemma tag_at_span (s rest : text) :
  tag_at s = Some rest -> exists t, tag_span t /\ s = t ++ rest.
Proof.
  unfold tag_at. destruct s as [|c [|d s]]; try discriminate.
  destruct (N.eqb_spec c chr_lt) as [->|]; [|discriminate].
  destruct (N.eqb_spec d chr_gt) as [|Hd]; [discriminate|]. cbn [andb negb].
  destruct (from_gt s) as [|g r] eqn:E; [discriminate|].
  intros [= <-]. destruct (from_gt_split _ _ _ E) as (body & Hb & ->).
  exists (chr_lt :: (d :: body) ++ [chr_gt]). split.
  - constructor; [discriminate|]. intros [H|H]; [now apply Hd|now apply Hb].
  - simpl. now rewrite <- app_assoc.
Qed.

Lemma tag_span_at (t rest : text) :
  tag_span t -> tag_at (t ++ rest) = Some rest.
Proof.
  intros [body Hne Hb]. destruct body as [|d body]; [congruence|].
  unfold tag_at. cbn [app]. rewrite N.eqb_refl.
  destruct (N.eqb_spec d chr_gt) as [->|_].
  - exfalso. apply Hb. now left.
  - cbn [andb negb]. rewrite <- app_assoc. cbn [app].
    rewrite from_gt_app; [reflexivity|].
    intros H. apply Hb. now right.
Qed.

Lemma tag_at_None (s : text) : tag_at s = None -> ~ starts_with_tag s.
Proof.
  intros H (t & rest & Ht & ->). rewrite (tag_span_at _ _ Ht) in H.
  discriminate.
Qed.

Lemma tag_span_nonempty (t : text) : tag_span t -> t <> [].
Proof. intros [body _ _]. discriminate. Qed.

(* ===================================================================== *)
(** ** [re.sub] and [re.search], for any pattern *)
(* ===================================================================== *)

Section SubSearch.
Variable fl : Re.flags.
Variable r : Re.regex.
Variable repl : text.

Lemma sub_from_skip (m rest : text) :
  Re.sub_from fl r repl (length m) (m ++ rest) = Re.sub_from fl r repl 0 rest.
Proof.
  induction m as [|c m IH]; [reflexivity|]. exact IH.
Qed.

Lemma sub_from_hit (m rest : text) (caps : list text) :
  m <> [] ->
  Re.match_here fl r (m ++ rest) = Some (rest, caps) ->
  Re.sub_from fl r repl 0 (m ++ rest) = repl ++ Re.sub_from fl r repl 0 rest.
Proof.
  intros Hm H. destruct m as [|c m]; [congruence|].
  cbn [app] in *. cbn [Re.sub_from]. rewrite H.
  replace (length (c :: m ++ rest) - length rest) with (S (length m))
    by (cbn [length]; rewrite length_app; lia).
  now rewrite sub_from_skip.
Qed.

Lemma sub_from_miss (c : char) (s : text) :
  Re.match_here fl r (c :: s) = None ->
  Re.sub_from fl r repl 0 (c :: s) = c :: Re.sub_from fl r repl 0 s.
Proof. intros H. cbn [Re.sub_from]. now rewrite H. Qed.

Lemma sub_from_nil :
  Re.match_here fl r [] = None -> Re.sub_from fl r repl 0 [] = [].
Proof. intros H. cbn [Re.sub_from]. now rewrite H. Qed.

(** No match starts inside [before]: it is copied. *)
Lemma sub_from_before (before t : text) :
  (forall a b, before = a ++ b -> b <> [] ->
               Re.match_here fl r (b ++ t) = None) ->
  Re.sub_from fl r repl 0 (before ++ t)
  = before ++ Re.sub_from fl r repl 0 t.
Proof.
  induction before as [|c before IH]; intros H; [reflexivity|].
  cbn [app]. rewrite sub_from_miss.
  - f_equal. apply IH. intros a b -> Hb. apply (H (c :: a) b); auto.
  - apply (H [] (c :: before)); [reflexivity|discriminate].
Qed.

Lemma search_from_eq (acc s : text) :
  Re.search_from fl r acc s =
  match Re.match_here fl r s with
  | Some (rest, caps) =>
      Some {| Re.m_before := rev acc; Re.m_groups := caps;
              Re.m_after := rest |}
  | None =>
      match s with
      | [] => None
      | c :: s' => Re.search_from fl r (c :: acc) s'
      end
  end.
Proof. destruct s; reflexivity. Qed.

(** A match at [t] and none starting inside [before]: the search finds
    the match at [t]. *)
Lemma search_from_before (before t rest acc : text) (caps : list text) :
  (forall a b, before = a ++ b -> b <> [] ->
               Re.match_here fl r (b ++ t) = None) ->
  Re.match_here fl r t = Some (rest, caps) ->
  Re.search_from fl r acc (before ++ t)
  = Some {| Re.m_before := rev acc ++ before; Re.m_groups := caps;
            Re.m_after := rest |}.
Proof.
  revert acc. induction before as [|c before IH]; intros acc H Ht.
  - cbn [app]. rewrite search_from_eq, Ht, app_nil_r. reflexivity.
  - cbn [app]. rewrite search_from_eq.
    assert (E : Re.match_here fl r (c :: before ++ t) = None)
      by (apply (H [] (c :: before)); [reflexivity|discriminate]).
    rewrite E.
    rewrite IH; [|intros a b -> Hb; apply (H (c :: a) b); auto|exact Ht].
    cbn [rev]. now rewrite <- app_assoc.
Qed.

Lemma search_from_Some (acc s : text) (m : Re.match_obj) :
  Re.search_from fl r acc s = Some m ->
  exists before t,
    s = before ++ t
    /\ Re.m_before m = rev acc ++ before
    /\ Re.match_here fl r t = Some (Re.m_after m, Re.m_groups m)
    /\ (forall a b, before = a ++ b -> b <> [] ->
                    Re.match_here fl r (b ++ t) = None).
Proof.
  revert acc. induction s as [|c s IH]; intros acc; rewrite search_from_eq.
  - destruct (Re.match_here fl r []) as [[rest caps]|] eqn:E; [|discriminate].
    intros [= <-]. exists [], []. cbn. rewrite app_nil_r.
    repeat split; auto. intros a b H Hb. symmetry in H.
    apply app_eq_nil in H as [_ ->]. congruence.
  - destruct (Re.match_here fl r (c :: s)) as [[rest caps]|] eqn:E.
    + intros [= <-]. exists [], (c :: s). cbn. rewrite app_nil_r.
      repeat split; auto. intros a b H Hb. symmetry in H.
      apply app_eq_nil in H as [_ ->]. congruence.
    + intros H. destruct (IH _ H) as (before & t & -> & Hbef & Hm & Hno).
      exists (c :: before), t. repeat split; auto.
      * rewrite Hbef. cbn [rev]. now rewrite <- app_assoc.
      * intros a b Hab Hb. destruct a as [|d a].
        -- cbn [app] in Hab. subst b. exact E.
        -- injection Hab as _ ->. apply (Hno a b); auto.
Qed.

Lemma search_from_None (acc s : text) :
  Re.search_from fl r acc s = None ->
  forall a b, s = a ++ b -> Re.match_here fl r b = None.
Proof.
  revert acc. induction s as [|c s IH]; intros acc; rewrite search_from_eq.
  - destruct (Re.match_here fl r []) as [[rest caps]|] eqn:E; [discriminate|].
    intros _ a b H. symmetry in H. apply app_eq_nil in H as [_ ->]. exact E.
  - destruct (Re.match_here fl r (c :: s)) as [[rest caps]|] eqn:E;
      [discriminate|].
    intros H a b Hab. destruct a as [|d a].
    + cbn [app] in Hab. now subst b.
    + injection Hab as _ ->. apply (IH _ H a b eq_refl).
Qed.
End SubSearch.

(* ===================================================================== *)
(** ** The sentinel pattern *)
(* ===================================================================== *)

Lemma open_tag_shape :
  open_tag = chr_lt :: tl open_tag /\ ~ In chr_lt (tl open_tag).
Proof.
  split; [reflexivity|]. vm_compute. intuition discriminate.
Qed.

Lemma close_tag_shape :
  close_tag = chr_lt :: tl close_tag /\ ~ In chr_lt (tl close_tag).
Proof.
  split; [reflexivity|]. vm_compute. intuition discriminate.
Qed.

(** Lazy [.*?] under [DOTALL] before a literal stops at the first
    occurrence of the literal; the group is the text passed over. *)
Lemma lazy_find (pat whole : text) (s : text) :
  forall done, whole = done ++ s ->
  Re.lazy Re.DOTALL Re.Dot s
    (fun rest =>
       Re.matcher Re.DOTALL (Re.lit pat) rest
         ([] ++ [firstn (length whole - length rest) whole])
         (fun rest caps => Some (rest, caps)))
  = match find pat s with
    | Some (a, b) => Some (b, [done ++ a])
    | None => None
    end.
Proof.
  induction s as [|c s IH]; intros done Hw.
  - cbn [Re.lazy find]. rewrite matcher_lit.
    destruct (strip_prefix pat []) as [rest|]; [|reflexivity].
    subst whole. cbn [app]. rewrite !app_nil_r, Nat.sub_0_r, firstn_all.
    reflexivity.
  - cbn [Re.lazy]. rewrite matcher_lit, find_cons.
    destruct (strip_prefix pat (c :: s)) as [rest|].
    + subst whole. rewrite length_app, Nat.add_sub.
      rewrite firstn_app, firstn_all, Nat.sub_diag. cbn [firstn app].
      rewrite !app_nil_r. reflexivity.
    + cbn [Re.accepts Re.dotall Re.DOTALL orb].
      rewrite (IH (done ++ [c])); [|now rewrite <- app_assoc].
      destruct (find pat s) as [[a b]|]; [|reflexivity].
      now rewrite <- app_assoc.
Qed.

(** The matcher on the sentinel pattern: the opening tag, then the text up
    to the first closing tag. *)
Lemma match_here_suggested (s : text) :
  Re.match_here Re.DOTALL suggested_pattern s =
  match strip_prefix open_tag s with
  | Some s1 =>
      match find close_tag s1 with
      | Some (p, after) => Some (after, [p])
      | None => None
      end
  | None => None
  end.
Proof.
  unfold Re.match_here, suggested_pattern. cbn [Re.matcher].
  rewrite matcher_lit. destruct (strip_prefix open_tag s) as [s1|]; [|reflexivity].
  apply (lazy_find close_tag s1 s1 []). reflexivity.
Qed.

(** The same stop for any way [g] of filling the groups. *)
Lemma lazy_find_groups (pat : text) (g : text -> list text) (s : text) :
  Re.lazy Re.DOTALL Re.Dot s
    (fun rest =>
       Re.matcher Re.DOTALL (Re.lit pat) rest (g rest)
         (fun rest caps => Some (rest, caps)))
  = match find pat s with
    | Some (a, b) => Some (b, g (pat ++ b))
    | None => None
    end.
Proof.
  induction s as [|c s IH].
  - cbn [Re.lazy find]. rewrite matcher_lit.
    destruct (strip_prefix pat []) as [rest|] eqn:E; [|reflexivity].
    now rewrite (strip_prefix_Some _ _ _ E).
  - cbn [Re.lazy]. rewrite matcher_lit, find_cons.
    destruct (strip_prefix pat (c :: s)) as [rest|] eqn:E.
    + now rewrite (strip_prefix_Some _ _ _ E).
    + cbn [Re.accepts Re.dotall Re.DOTALL orb]. rewrite IH.
      now destruct (find pat s) as [[a b]|].
Qed.

(** The pattern without the group matches where the pattern with the
    group does, and leaves the same text. *)
Lemma match_here_span_pattern (s : text) :
  Re.match_here Re.DOTALL suggested_span_pattern s =
  match Re.match_here Re.DOTALL suggested_pattern s with
  | Some (rest, _) => Some (rest, [])
  | None => None
  end.
Proof.
  rewrite match_here_suggested.
  unfold Re.match_here, suggested_span_pattern. cbn [Re.matcher].
  rewrite matcher_lit. destruct (strip_prefix open_tag s) as [s1|]; [|reflexivity].
  rewrite (lazy_find_groups close_tag (fun _ => []) s1).
  now destruct (find close_tag s1) as [[a b]|].
Qed.

Lemma match_here_span (p after : text) :
  ~ occurs close_tag p ->
  Re.match_here Re.DOTALL suggested_pattern
    (open_tag ++ p ++ close_tag ++ after)
  = Some (after, [p]).
Proof.
  intros Hp. rewrite match_here_suggested, strip_prefix_app.
  destruct close_tag_shape as [E Hc]. rewrite E in Hp |- *.
  now rewrite find_app.
Qed.

Lemma match_here_before (b x : text) :
  b <> [] -> ~ occurs open_tag b ->
  Re.match_here Re.DOTALL suggested_pattern (b ++ open_tag ++ x) = None.
Proof.
  intros Hb Ho. rewrite match_here_suggested.
  destruct (strip_prefix open_tag (b ++ open_tag ++ x)) as [y|] eqn:E;
    [|reflexivity].
  exfalso. apply strip_prefix_Some in E. symmetry in E.
  destruct open_tag_shape as [Eo Hc]. rewrite Eo in E, Ho.
  destruct (no_straddle _ _ _ _ _ Hc E); auto.
Qed.

Lemma match_here_Some (s after : text) (caps : list text) :
  Re.match_here Re.DOTALL suggested_pattern s = Some (after, caps) ->
  exists p, s = open_tag ++ p ++ close_tag ++ after
            /\ caps = [p] /\ ~ occurs close_tag p.
Proof.
  rewrite match_here_suggested.
  destruct (strip_prefix open_tag s) as [s1|] eqn:E; [|discriminate].
  destruct (find close_tag s1) as [[p b]|] eqn:F; [|discriminate].
  intros [= <- <-]. exists p. apply strip_prefix_Some in E.
  repeat split.
  - rewrite E. f_equal. now apply find_Some.
  - apply (find_first close_tag s1 p b); [discriminate|exact F].
Qed.

Lemma match_here_None (s1 : text) :
  Re.match_here Re.DOTALL suggested_pattern (open_tag ++ s1) = None ->
  ~ occurs close_tag s1.
Proof.
  rewrite match_here_suggested, strip_prefix_app.
  destruct (find close_tag s1) as [[p b]|] eqn:F; [discriminate|].
  intros _. now apply find_None.
Qed.

(** [re.search] on the sentinel pattern finds the first span. *)
Lemma search_first_span (r before p after : text) :
  first_span r before p after ->
  Re.search suggested_pattern r Re.DOTALL
  = Some {| Re.m_before := before; Re.m_groups := [p]; Re.m_after := after |}.
Proof.
  intros (-> & Ho & Hc). unfold Re.search.
  rewrite (search_from_before _ _ before _ after [] [p]); [reflexivity| |].
  - intros a b -> Hb. apply match_here_before; [exact Hb|].
    intros H. apply Ho. now apply occurs_app_r.
  - now apply match_here_span.
Qed.

Lemma search_Some_first_span (r : text) (m : Re.match_obj) :
  Re.search suggested_pattern r Re.DOTALL = Some m ->
  first_span r (Re.m_before m) (Re.group m 1) (Re.m_after m)
  /\ Re.m_groups m = [Re.group m 1].
Proof.
  unfold Re.search. intros H.
  destruct (search_from_Some _ _ _ _ _ H) as (before & t & -> & Hb & Hm & Hno).
  cbn [rev app] in Hb.
  destruct (match_here_Some _ _ _ Hm) as (p & -> & Hg & Hp).
  unfold Re.group. rewrite Hg, Hb. cbn. split; [|reflexivity].
  split; [reflexivity|]. split; [|exact Hp].
  intros (a & b & ->).
  assert (E : Re.match_here Re.DOTALL suggested_pattern
                ((open_tag ++ b) ++ open_tag ++ p ++ close_tag ++ Re.m_after m)
              = None).
  { apply (Hno a (open_tag ++ b)); [reflexivity|]. discriminate. }
  rewrite <- app_assoc in E. apply match_here_None in E. apply E.
  apply occurs_app_r. apply occurs_app_r. apply occurs_app_r.
  apply occurs_self.
Qed.

Lemma search_None_no_span (r : text) :
  Re.search suggested_pattern r Re.DOTALL = None <-> ~ has_span r.
Proof.
  split.
  - intros H (a & p & b & ->).
    pose proof (search_from_None _ _ _ _ H a _ eq_refl) as E.
    apply match_here_None in E. apply E.
    apply occurs_app_r. apply occurs_self.
  - intros H. destruct (Re.search suggested_pattern r Re.DOTALL) as [m|] eqn:E;
      [|reflexivity].
    exfalso. apply H. apply search_Some_first_span in E as [(-> & _) _].
    now eexists _, _, _.
Qed.

Example search_first_of_two :
  Re.search suggested_pattern
    (str "Done. <suggested_text>x
y</suggested_text> or <suggested_text>z</suggested_text>.") Re.DOTALL
  = Some {| Re.m_before := str "Done. ";
            Re.m_groups := [str "x
y"];
            Re.m_after := str " or <suggested_text>z</suggested_text>." |}.
Proof. vm_compute. reflexivity. Qed.

Example search_unclosed :
  Re.search suggested_pattern (str "Done. <suggested_text>x y") Re.DOTALL = None.
Proof. vm_compute. reflexivity. Qed.

Lemma first_span_has_span (r before p after : text) :
  first_span r before p after -> has_span r.
Proof. intros (-> & _). now eexists _, _, _. Qed.

(** The first span of a text is unique. *)
Lemma first_span_unique (r b1 p1 a1 b2 p2 a2 : text) :
  first_span r b1 p1 a1 -> first_span r b2 p2 a2 ->
  b1 = b2 /\ p1 = p2 /\ a1 = a2.
Proof.
  intros H1 H2. apply search_first_span in H1, H2.
  rewrite H1 in H2. injection H2 as -> -> ->. auto.
Qed.

Lemma sub_suggested_nil : Re.sub suggested_span_pattern [] [] Re.DOTALL = [].
Proof. reflexivity. Qed.

(** [re.sub] with the empty replacement copies the text before the first
    span and goes on after the span. *)
Lemma sub_first_span (r before p after : text) :
  first_span r before p after ->
  Re.sub suggested_span_pattern [] r Re.DOTALL
  = before ++ Re.sub suggested_span_pattern [] after Re.DOTALL.
Proof.
  intros (-> & Ho & Hc). unfold Re.sub.
  rewrite sub_from_before.
  - f_equal.
    replace (open_tag ++ p ++ close_tag ++ after)
      with ((open_tag ++ p ++ close_tag) ++ after)
      by now rewrite <- !app_assoc.
    rewrite (sub_from_hit _ _ _ _ _ []); [reflexivity|discriminate|].
    rewrite <- !app_assoc, match_here_span_pattern.
    now rewrite match_here_span.
  - intros a b -> Hb. rewrite match_here_span_pattern.
    rewrite match_here_before; [reflexivity|exact Hb|].
    intros H. apply Ho. now apply occurs_app_r.
Qed.

(* ===================================================================== *)
(** ** Running the functions of the module *)
(* ===================================================================== *)

Lemma strip_tags_nil : strip_tags [] = [].
Proof. reflexivity. Qed.

(** [clean_context] is the sanitized [full_context] in both branches of
    the conditional expression. *)
Lemma clean_context_eq (full_context : text) :
  (if truthy full_context
   then Re.sub tag_pattern [] full_context Re.NOFLAG else [])
  = strip_tags full_context.
Proof. destruct full_context; reflexivity. Qed.

Lemma calls_sent (svc : service) {A : Type} (p : eff A) (w : world)
    (l : list request) :
  sent (snd (run svc p w)) = sent w ++ l -> calls svc p w = l.
Proof.
  intros H. unfold calls. rewrite H.
  rewrite skipn_app, skipn_all, Nat.sub_diag. reflexivity.
Qed.

Section Runs.
Variable lower : text -> text.
Variable c : Anthropic.
Variable svc : service.

(** The world after [generate_twin_content]: on success the row is
    written; the relation cache of the instance changes only when the call
    created the twin, which the instance then holds with the text. *)
Lemma run_generate_twin_content (document : Document) (w : world) :
  run svc (generate_twin_content (Some c) document) w =
  let sent1 := sent w ++ [twin_request_of document] in
  match svc (sent w) (twin_request_of document) with
  | Reply ai_content =>
      (Returned ai_content,
       {| twins := <[pk document := ai_content]> (twins w);
          sent := sent1;
          fields_cache :=
            match twins w !! pk document with
            | Some _ => fields_cache w
            | None =>
                <[instance_id document := Some ai_content]> (fields_cache w)
            end |})
  | Failure detail =>
      (Returned (error_msg detail),
       {| twins := twins w; sent := sent1; fields_cache := fields_cache w |})
  end.
Proof.
  unfold generate_twin_content, twin_request_of, strip_tags. run_step.
  destruct (svc (sent w) _) as [t|d]; run_step; [|reflexivity].
  destruct (twins w !! pk document) as [old|] eqn:E; run_step.
  - reflexivity.
  - now rewrite !insert_insert_eq.
Qed.

(** [get_twin_content] answers from the relation cache of the instance
    when it holds something, and from the table otherwise, caching the
    answer. *)
Lemma run_get_twin_content (document : Document) (w : world) :
  run svc (get_twin_content document) w =
  match fields_cache w !! instance_id document with
  | Some cached => (Returned cached, w)
  | None =>
      (Returned (twins w !! pk document),
       {| twins := twins w; sent := sent w;
          fields_cache :=
            <[instance_id document := twins w !! pk document]>
              (fields_cache w) |})
  end.
Proof.
  unfold get_twin_content. run_step.
  destruct (fields_cache w !! instance_id document) as [[cached|]|];
    run_step; [reflexivity|reflexivity|].
  destruct (twins w !! pk document); reflexivity.
Qed.

Lemma run_ai_assist_text (selected_text user_prompt full_context : text)
    (w : world) :
  run svc (ai_assist_text lower (Some c) selected_text user_prompt full_context) w
  =
  let req1 := primary_request_of selected_text user_prompt full_context in
  let w1 := {| twins := twins w; sent := sent w ++ [req1];
               fields_cache := fields_cache w |} in
  match svc (sent w) req1 with
  | Failure detail => (Returned (error_result detail), w1)
  | Reply r =>
      let suggested := fst (extract_tagged r) in
      let response_text := snd (extract_tagged r) in
      if negb (truthy_opt suggested)
         && is_modification_request lower user_prompt
      then
        let req2 :=
          extraction_request (strip_tags selected_text) response_text in
        let w2 := {| twins := twins w; sent := (sent w ++ [req1]) ++ [req2];
                     fields_cache := fields_cache w |} in
        match svc (sent w ++ [req1]) req2 with
        | Failure detail => (Returned (error_result detail), w2)
        | Reply extraction =>
            (Returned
               {| response := response_text;
                  suggested_text :=
                    if accepted (strip extraction)
                    then Some (strip extraction) else suggested |},
             w2)
        end
      else
        (Returned {| response := response_text;
                     suggested_text := suggested |}, w1)
  end.
Proof.
  unfold ai_assist_text, primary_request_of, error_result.
  rewrite clean_context_eq. unfold strip_tags. run_step.
  destruct (svc (sent w) _) as [r|d]; run_step; [|reflexivity].
  destruct (extract_tagged r) as [suggested response_text]. run_step.
  destruct (negb (truthy_opt suggested)
            && is_modification_request lower user_prompt); run_step;
    [|reflexivity].
  destruct (svc (sent w ++ _) _) as [x|d]; run_step; reflexivity.
Qed.
End Runs.

(* ===================================================================== *)
(** ** The Twin Generator *)
(* ===================================================================== *)





(** C4.  When the call to the model raises, [generate_twin_content]
    returns the error block, which is the fixed markdown text around
    [str(e)], and neither the table of twins nor what an instance has
    cached changes, so [get_twin_content] returns for every instance what
    it returned before the call. *)
Theorem generate_failure_keeps_twins (c : Anthropic) (svc svc' : service)
    (document other : Document) (w : world) (detail : text) :
  svc (sent w) (twin_request_of document) = Failure detail ->
  let (result, w') := run svc (generate_twin_content (Some c) document) w in
  result
  = Returned
      (str "## " ++ chr_warning ++ str " AI Generation Error

Failed to generate AI Twin:

```
" ++ detail ++ str "
```

Please check your API key and try again.")
  /\ twins w' = twins w
  /\ fields_cache w' = fields_cache w
  /\ fst (run svc' (get_twin_content other) w')
     = fst (run svc' (get_twin_content other) w).
Proof.
  intros H. rewrite run_generate_twin_content. cbn zeta. rewrite H.
  split.
  - unfold error_msg, error_msg_head, error_msg_tail.
    now rewrite <- !app_assoc.
  - split; [reflexivity|]. split; [reflexivity|].
    rewrite !run_get_twin_content. cbn [fields_cache twins sent].
    now destruct (fields_cache w !! instance_id other).
Qed.

Lemma generate_failure_keeps_twins_witness :
  let svc : service := fun _ _ => Failure (str "Connection error.") in
  let w := {| twins := {[ 1%Z := str "## Old twin" ]}; sent := [];
              fields_cache := ∅ |} in
  svc (sent w) (twin_request_of login_flow) = Failure (str "Connection error.")
  /\ let (result, w') :=
       run svc (generate_twin_content (Some a_client) login_flow) w in
     result
     = Returned
         (str "## " ++ chr_warning ++ str " AI Generation Error

Failed to generate AI Twin:

```
Connection error.
```

Please check your API key and try again.")
     /\ twins w' = twins w
     /\ fst (run svc (get_twin_content login_flow) w')
        = fst (run svc (get_twin_content login_flow) w).
Proof.
  intros svc w.
  assert (H : svc (sent w) (twin_request_of login_flow)
              = Failure (str "Connection error.")) by reflexivity.
  split; [exact H|].
  pose proof (generate_failure_keeps_twins a_client svc svc login_flow
                login_flow w (str "Connection error.") H) as T.
  destruct (run svc (generate_twin_content (Some a_client) login_flow) w)
    as [result w'].
  destruct T as (T1 & T2 & _ & T4).
  split; [|split; [exact T2|exact T4]].
  rewrite T1. vm_compute. reflexivity.
Defined.

(* ===================================================================== *)
(** ** Sanitizing *)
(* ===================================================================== *)

Lemma strip_tags_hit (t rest : text) :
  tag_span t -> strip_tags (t ++ rest) = strip_tags rest.
Proof.
  intros Ht. unfold strip_tags, Re.sub.
  rewrite (sub_from_hit _ _ _ t rest []); [reflexivity| |].
  - now apply tag_span_nonempty.
  - now rewrite match_here_tag, tag_span_at.
Qed.

Lemma strip_tags_miss (c : char) (s : text) :
  tag_at (c :: s) = None -> strip_tags (c :: s) = c :: strip_tags s.
Proof.
  intros H. unfold strip_tags, Re.sub. apply sub_from_miss.
  now rewrite match_here_tag, H.
Qed.

Lemma strip_tags_stripped (s : text) : stripped s (strip_tags s).
Proof.
  remember (length s) as n eqn:Hn. revert s Hn.
  induction n as [n IH] using lt_wf_ind. intros s Hn.
  destruct s as [|c s]; [constructor|].
  destruct (tag_at (c :: s)) as [rest|] eqn:E.
  - destruct (tag_at_span _ _ E) as (t & Ht & Hs). rewrite Hs.
    rewrite strip_tags_hit by exact Ht. apply stripped_tag; [exact Ht|].
    apply (IH (length rest)); [|reflexivity].
    subst n. rewrite Hs, length_app.
    pose proof (tag_span_nonempty _ Ht). destruct t; [congruence|].
    cbn [length]. lia.
  - rewrite strip_tags_miss by exact E.
    apply stripped_keep; [now apply tag_at_None|].
    apply (IH (length s)); [subst n; cbn [length]; lia|reflexivity].
Qed.

Lemma stripped_strip_tags (s out : text) : stripped s out -> out = strip_tags s.
Proof.
  induction 1 as [|t rest out Ht _ IH|c rest out Hc _ IH].
  - reflexivity.
  - now rewrite strip_tags_hit.
  - rewrite strip_tags_miss; [now f_equal|].
    destruct (tag_at (c :: rest)) as [r|] eqn:E; [|reflexivity].
    exfalso. apply Hc. destruct (tag_at_span _ _ E) as (t & Ht & Hs).
    now exists t, r.
Qed.

(** What is kept is kept in order. *)
Lemma stripped_sublist (s out : text) : stripped s out -> sublist out s.
Proof.
  induction 1 as [|t rest out _ _ IH|c rest out _ _ IH].
  - constructor.
  - now apply sublist_inserts_l.
  - now constructor.
Qed.

Example strip_tags_paragraph :
  strip_tags (str "<p>User enters <b>email</b> &amp; password</p>")
  = str "User enters email &amp; password".
Proof. vm_compute. reflexivity. Qed.

Example strip_tags_no_body : strip_tags (str "a <> b <<i>c > d") = str "a <> b c > d".
Proof. vm_compute. reflexivity. Qed.

Example strip_tags_unclosed : strip_tags (str "x < y and <b") = str "x < y and <b".
Proof. vm_compute. reflexivity. Qed.

(* ===================================================================== *)
(** ** The requests of the two components *)
(* ===================================================================== *)

Lemma calls_generate_twin_content (c : Anthropic) (svc : service)
    (document : Document) (w : world) :
  calls svc (generate_twin_content (Some c) document) w
  = [twin_request_of document].
Proof.
  apply calls_sent. rewrite run_generate_twin_content. cbn zeta.
  destruct (svc (sent w) (twin_request_of document)); reflexivity.
Qed.

Lemma calls_ai_assist_text (lower : text -> text) (c : Anthropic)
    (svc : service) (selected_text user_prompt full_context : text) (w : world) :
  calls svc (ai_assist_text lower (Some c) selected_text user_prompt full_context) w
  = primary_request_of selected_text user_prompt full_context
    :: match svc (sent w)
               (primary_request_of selected_text user_prompt full_context) with
       | Reply r =>
           if fallback_due lower user_prompt r
           then [extraction_request (strip_tags selected_text)
                   (snd (extract_tagged r))]
           else []
       | Failure _ => []
       end.
Proof.
  apply calls_sent. rewrite run_ai_assist_text. cbn zeta. unfold fallback_due.
  destruct (svc (sent w) _) as [r|d]; [|reflexivity].
  destruct (negb (truthy_opt (fst (extract_tagged r)))
            && is_modification_request lower user_prompt); [|reflexivity].
  destruct (svc (sent w ++ _) _); cbn [snd sent]; now rewrite <- app_assoc.
Qed.

(** C9.  The sanitizer drops exactly the tag spans, read from the left: a
    [<], one or more characters other than [>], and the next [>]; every
    character at which no such span starts is kept, in order, and nothing
    else is changed.  The Twin Generator sends the document content, and
    the Selection Assistant the selected text and the context, through this
    one sanitizer before they enter a prompt. *)
Theorem markup_stripping :
  (forall s out : text, stripped s out <-> out = strip_tags s)
  /\ (forall s : text, sublist (strip_tags s) s)
  /\ (forall (c : Anthropic) (svc : service) (document : Document) (w : world),
        calls svc (generate_twin_content (Some c) document) w
        = [twin_request
             (twin_prompt (title document) (strip_tags (content document)))])
  /\ (forall (lower : text -> text) (c : Anthropic) (svc : service)
             (selected_text user_prompt full_context : text) (w : world),
        exists more,
          calls svc
            (ai_assist_text lower (Some c) selected_text user_prompt full_context) w
          = primary_request
              (user_message (strip_tags selected_text)
                 (strip_tags full_context) user_prompt)
            :: more).
Proof.
  split; [|split; [|split]].
  - intros s out. split; [apply stripped_strip_tags|].
    intros ->. apply strip_tags_stripped.
  - intros s. apply (stripped_sublist s), strip_tags_stripped.
  - intros. apply calls_generate_twin_content.
  - intros. rewrite calls_ai_assist_text. now eexists.
Qed.

(* ===================================================================== *)
(** ** Classifying the instruction *)
(* ===================================================================== *)

(** C8.  The instruction is a modification request exactly when its
    lower-cased text contains one of the nineteen keywords as a substring.
    The classification has no part in the primary request: whatever the
    lower-casing (and so the classification) is, the request carries the
    fixed system prompt and the user message built from the sanitized
    inputs and the instruction as typed. *)
Theorem modification_classification (lower : text -> text) (user_prompt : text) :
  (is_modification_request lower user_prompt = true
   <-> exists kw, In kw modification_keywords /\ occurs kw (lower user_prompt))
  /\ modification_keywords
     = map str ["improve"; "fix"; "rewrite"; "change"; "make"; "shorten";
                "expand"; "grammar"; "spelling"; "professional"; "clearer";
                "concise"; "better"; "translate"; "simplify"; "formal";
                "casual"; "correct"; "edit"]%string
  /\ (forall (c : Anthropic) (svc : service) (selected_text full_context : text)
             (w : world),
        exists more,
          calls svc
            (ai_assist_text lower (Some c) selected_text user_prompt full_context) w
          = {| model := claude_sonnet;
               max_tokens := 1024;
               system := Some system_prompt;
               messages :=
                 [(str "user",
                   user_message (strip_tags selected_text)
                     (strip_tags full_context) user_prompt)] |}
            :: more).
Proof.
  split; [|split].
  - unfold is_modification_request. rewrite existsb_exists.
    split; intros (kw & Hin & H); exists kw; split; auto;
      now apply contains_occurs.
  - reflexivity.
  - intros. rewrite calls_ai_assist_text. now eexists.
Qed.

(* ===================================================================== *)
(** ** The Selection Assistant *)
(* ===================================================================== *)

Lemma extract_tagged_first_span (r before p after : text) :
  first_span r before p after ->
  extract_tagged r
  = (Some (strip p),
     strip (before ++ Re.sub suggested_span_pattern [] after Re.DOTALL)).
Proof.
  intros H. unfold extract_tagged.
  rewrite (search_first_span _ _ _ _ H), (sub_first_span _ _ _ _ H).
  reflexivity.
Qed.

Lemma extract_tagged_no_span (r : text) :
  ~ has_span r -> extract_tagged r = (None, r).
Proof.
  intros H. unfold extract_tagged.
  now rewrite (proj2 (search_None_no_span r) H).
Qed.

(** Either a text has no span or it has a first span. *)
Lemma span_cases (r : text) :
  ~ has_span r \/ exists before p after, first_span r before p after.
Proof.
  destruct (Re.search suggested_pattern r Re.DOTALL) as [m|] eqn:E.
  - right. apply search_Some_first_span in E as [H _].
    eexists _, _, _. exact H.
  - left. now apply search_None_no_span.
Qed.

Lemma truthy_false (s : text) : truthy s = false <-> s = [].
Proof. destruct s; cbn; split; congruence. Qed.

(** The condition of the follow-up call, in the words of the claims. *)
Lemma fallback_due_iff (lower : text -> text) (user_prompt r : text) :
  fallback_due lower user_prompt r = true
  <-> is_modification_request lower user_prompt = true
      /\ (~ has_span r
          \/ exists before p after,
               first_span r before p after /\ strip p = []).
Proof.
  unfold fallback_due. rewrite andb_true_iff, negb_true_iff.
  split.
  - intros [Ht Hm]. split; [exact Hm|].
    destruct (span_cases r) as [H|(b & p & a & H)]; [now left|right].
    exists b, p, a. split; [exact H|].
    rewrite (extract_tagged_first_span _ _ _ _ H) in Ht.
    now apply truthy_false.
  - intros [Hm [H|(b & p & a & H & Hp)]]; split; auto.
    + now rewrite (extract_tagged_no_span _ H).
    + rewrite (extract_tagged_first_span _ _ _ _ H). cbn. now rewrite Hp.
Qed.

Lemma accepted_false (extracted : text) :
  accepted extracted = false <-> rejected extracted.
Proof.
  unfold accepted, rejected.
  rewrite !andb_false_iff, truthy_false, bool_decide_eq_false, Nat.ltb_ge.
  split.
  - intros [[H|H]|H]; auto. right. left.
    destruct (decide (extracted = NO_REPLACEMENT)); [assumption|contradiction].
  - intros [H|[H|H]]; auto.
Qed.

Lemma accepted_true (extracted : text) :
  accepted extracted = true <-> ~ rejected extracted.
Proof.
  rewrite <- accepted_false. destruct (accepted extracted); split; congruence.
Qed.

Lemma extraction_calls_primary (req : request) (l : list request) :
  system req <> None ->
  extraction_calls (req :: l) = extraction_calls l.
Proof.
  unfold extraction_calls, is_extraction_request. cbn [List.filter].
  destruct (system req); [reflexivity|congruence].
Qed.

Lemma extraction_calls_nil : extraction_calls [] = 0.
Proof. reflexivity. Qed.

Lemma extraction_calls_one (clean_selected response_text : text) :
  extraction_calls [extraction_request clean_selected response_text] = 1.
Proof. reflexivity. Qed.

(** C1, as the code has it.  The follow-up extraction call is sent at most
    once; it is sent exactly when the client is configured, the primary
    call returned a response, the instruction is classified as a
    modification request, and the response has no delimited span or the
    payload of its first span is empty once trimmed.  For an instruction
    not classified as a modification request it is never sent. *)
Theorem fallback_gating (lower : text -> text) (client : option Anthropic)
    (svc : service) (selected_text user_prompt full_context : text) (w : world) :
  let n :=
    extraction_calls
      (calls svc
         (ai_assist_text lower client selected_text user_prompt full_context) w) in
  n <= 1
  /\ (n = 1 <->
      exists c r,
        client = Some c
        /\ svc (sent w) (primary_request_of selected_text user_prompt full_context)
           = Reply r
        /\ is_modification_request lower user_prompt = true
        /\ (~ has_span r
            \/ exists before p after,
                 first_span r before p after /\ strip p = []))
  /\ (is_modification_request lower user_prompt = false -> n = 0).
Proof.
  cbv zeta. destruct client as [c|].
  - rewrite calls_ai_assist_text.
    rewrite extraction_calls_primary by discriminate.
    destruct (svc (sent w) _) as [r|d] eqn:E.
    + destruct (fallback_due lower user_prompt r) eqn:F.
      * rewrite extraction_calls_one.
        apply fallback_due_iff in F as [Hm Hs]. split; [lia|].
        split; [|congruence]. split; [|reflexivity].
        intros _. now exists c, r.
      * rewrite extraction_calls_nil. split; [lia|]. split; [|reflexivity].
        split; [discriminate|].
        intros (c' & r' & _ & [= <-] & Hm & Hs).
        assert (fallback_due lower user_prompt r = true)
          by now apply fallback_due_iff.
        congruence.
    + rewrite extraction_calls_nil. split; [lia|]. split; [|reflexivity].
      split; [discriminate|]. intros (c' & r' & _ & H & _). discriminate.
  - replace (calls svc _ w) with (@nil request)
      by (symmetry; apply calls_sent; symmetry; apply app_nil_r).
    rewrite extraction_calls_nil. split; [lia|]. split; [|reflexivity].
    split; [discriminate|]. intros (c' & r' & H & _). discriminate.
Qed.

Lemma fallback_gating_witness :
  let svc : service :=
    fun _ _ => Reply (str "I fixed the verb: The app is fast.") in
  extraction_calls
    (calls svc
       (ai_assist_text ascii_lower (Some a_client) (str "The app are fast")
          (str "fix the grammar") []) world0) = 1
  /\ is_modification_request ascii_lower (str "what does this mean?") = false
  /\ extraction_calls
       (calls svc
          (ai_assist_text ascii_lower (Some a_client) (str "The app are fast")
             (str "what does this mean?") []) world0) = 0.
Proof.
  intros svc. split; [|split].
  - apply (proj1 (proj2 (fallback_gating ascii_lower (Some a_client) svc
                           (str "The app are fast") (str "fix the grammar")
                           [] world0))).
    exists a_client, (str "I fixed the verb: The app is fast.").
    split; [reflexivity|]. split; [reflexivity|].
    split; [vm_compute; reflexivity|].
    left. apply search_None_no_span. vm_compute. reflexivity.
  - vm_compute. reflexivity.
  - apply (proj2 (proj2 (fallback_gating ascii_lower (Some a_client) svc
                           (str "The app are fast")
                           (str "what does this mean?") [] world0))).
    vm_compute. reflexivity.
Defined.

(** The claim C1 as it is stated fails: the response below has a delimited
    span, its payload is blank, the instruction is a modification request,
    and the follow-up call is sent. *)
Lemma fallback_gating_counterexample :
  let r := str "Nothing to change. <suggested_text> </suggested_text>" in
  let svc : service := fun _ _ => Reply r in
  let user_prompt := str "fix the grammar" in
  ~ (extraction_calls
       (calls svc
          (ai_assist_text ascii_lower (Some a_client) (str "The app is fast")
             user_prompt []) world0) = 1
     <-> ~ has_span r
         /\ is_modification_request ascii_lower user_prompt = true).
Proof.
  intros r svc user_prompt [H _].
  assert (E : extraction_calls
                (calls svc
                   (ai_assist_text ascii_lower (Some a_client)
                      (str "The app is fast") user_prompt []) world0) = 1)
    by (vm_compute; reflexivity).
  destruct (H E) as [Hno _]. apply Hno.
  exists (str "Nothing to change. "), (str " "), []. reflexivity.
Qed.

(** C10.  When the payload of the first delimited span is empty once
    trimmed, the span counts as no suggestion: for a modification request
    the follow-up call is sent although a span was present, and for any
    other instruction the result carries the empty string, not [None]. *)
Theorem empty_payload_gating (lower : text -> text) (c : Anthropic)
    (svc : service) (selected_text user_prompt full_context : text) (w : world)
    (r before p after : text) :
  svc (sent w) (primary_request_of selected_text user_prompt full_context)
    = Reply r ->
  first_span r before p after ->
  strip p = [] ->
  let response_text :=
    strip (before ++ Re.sub suggested_span_pattern [] after Re.DOTALL) in
  let go :=
    ai_assist_text lower (Some c) selected_text user_prompt full_context in
  has_span r
  /\ (is_modification_request lower user_prompt = true ->
      calls svc go w
      = [primary_request_of selected_text user_prompt full_context;
         extraction_request (strip_tags selected_text) response_text]
      /\ extraction_calls (calls svc go w) = 1)
  /\ (is_modification_request lower user_prompt = false ->
      fst (run svc go w)
      = Returned {| response := response_text; suggested_text := Some [] |}
      /\ calls svc go w
         = [primary_request_of selected_text user_prompt full_context]).
Proof.
  intros Hr Hf Hp. cbv zeta.
  split; [now apply (first_span_has_span _ _ _ _ Hf)|].
  rewrite calls_ai_assist_text, run_ai_assist_text. cbv zeta. rewrite Hr.
  unfold fallback_due.
  rewrite (extract_tagged_first_span _ _ _ _ Hf), Hp. cbn [fst snd truthy_opt truthy negb andb].
  split; intros ->.
  - split; [reflexivity|].
    rewrite extraction_calls_primary by discriminate.
    apply extraction_calls_one.
  - split; reflexivity.
Qed.

Lemma empty_payload_gating_witness :
  let r := str "Nothing to change. <suggested_text> </suggested_text>" in
  let svc : service := fun _ _ => Reply r in
  let selected_text := str "The app is fast" in
  let user_prompt := str "fix the grammar" in
  let go := ai_assist_text ascii_lower (Some a_client) selected_text user_prompt [] in
  (svc (sent world0) (primary_request_of selected_text user_prompt []) = Reply r
   /\ first_span r (str "Nothing to change. ") (str " ") []
   /\ strip (str " ") = [])
  /\ has_span r
  /\ (is_modification_request ascii_lower user_prompt = true ->
      calls svc go world0
      = [primary_request_of selected_text user_prompt [];
         extraction_request (strip_tags selected_text)
           (strip (str "Nothing to change. "
                   ++ Re.sub suggested_span_pattern [] [] Re.DOTALL))]
      /\ extraction_calls (calls svc go world0) = 1)
  /\ (is_modification_request ascii_lower user_prompt = false ->
      fst (run svc go world0)
      = Returned
          {| response := strip (str "Nothing to change. "
                                ++ Re.sub suggested_span_pattern [] [] Re.DOTALL);
             suggested_text := Some [] |}
      /\ calls svc go world0
         = [primary_request_of selected_text user_prompt []]).
Proof.
  intros r svc selected_text user_prompt go.
  assert (H1 : svc (sent world0)
                 (primary_request_of selected_text user_prompt []) = Reply r)
    by reflexivity.
  assert (H2 : first_span r (str "Nothing to change. ") (str " ") []).
  { split; [reflexivity|].
    split; intros H; apply contains_occurs in H; vm_compute in H;
      discriminate. }
  assert (H3 : strip (str " ") = []) by reflexivity.
  split; [auto|].
  exact (empty_payload_gating ascii_lower a_client svc selected_text
           user_prompt [] world0 r (str "Nothing to change. ") (str " ") []
           H1 H2 H3).
Defined.

(** C2, as the code has it.  For a response that is an explanation
    followed by one delimited span, where the trimmed payload is not empty
    or the instruction is not a modification request, the result carries
    the trimmed payload as suggestion and the trimmed explanation as
    response, and no follow-up call is sent. *)
Theorem tagged_extraction (lower : text -> text) (c : Anthropic)
    (svc : service) (selected_text user_prompt full_context : text) (w : world)
    (explanation payload : text) :
  ~ occurs open_tag explanation ->
  ~ occurs close_tag payload ->
  svc (sent w) (primary_request_of selected_text user_prompt full_context)
    = Reply (explanation ++ open_tag ++ payload ++ close_tag) ->
  strip payload <> [] \/ is_modification_request lower user_prompt = false ->
  run svc
    (ai_assist_text lower (Some c) selected_text user_prompt full_context) w
  = (Returned {| response := strip explanation;
                 suggested_text := Some (strip payload) |},
     {| twins := twins w;
        sent := sent w
                ++ [primary_request_of selected_text user_prompt full_context];
        fields_cache := fields_cache w |}).
Proof.
  intros Ho Hc Hr Hcase.
  assert (Hf : first_span (explanation ++ open_tag ++ payload ++ close_tag)
                 explanation payload []).
  { split; [now rewrite app_nil_r|]. split; assumption. }
  rewrite run_ai_assist_text. cbv zeta. rewrite Hr.
  rewrite (extract_tagged_first_span _ _ _ _ Hf).
  rewrite sub_suggested_nil, app_nil_r. cbn [fst snd truthy_opt].
  destruct Hcase as [Hp| ->].
  - destruct (strip payload) as [|x l]; [congruence|]. reflexivity.
  - now rewrite andb_false_r.
Qed.

Lemma tagged_extraction_witness :
  let explanation := str "Made it more formal. " in
  let payload := str "The application exhibits high performance." in
  let svc : service :=
    fun _ _ => Reply (explanation ++ open_tag ++ payload ++ close_tag) in
  let selected_text := str "The app is fast" in
  let user_prompt := str "make this more formal" in
  (~ occurs open_tag explanation
   /\ ~ occurs close_tag payload
   /\ svc (sent world0) (primary_request_of selected_text user_prompt [])
      = Reply (explanation ++ open_tag ++ payload ++ close_tag)
   /\ (strip payload <> []
       \/ is_modification_request ascii_lower user_prompt = false))
  /\ run svc
       (ai_assist_text ascii_lower (Some a_client) selected_text user_prompt [])
       world0
     = (Returned
          {| response := str "Made it more formal.";
             suggested_text :=
               Some (str "The application exhibits high performance.") |},
        {| twins := twins world0;
           sent := sent world0
                   ++ [primary_request_of selected_text user_prompt []];
           fields_cache := fields_cache world0 |}).
Proof.
  intros explanation payload svc selected_text user_prompt.
  assert (H1 : ~ occurs open_tag explanation)
    by (intros H; apply contains_occurs in H; vm_compute in H; discriminate).
  assert (H2 : ~ occurs close_tag payload)
    by (intros H; apply contains_occurs in H; vm_compute in H; discriminate).
  assert (H3 : svc (sent world0)
                 (primary_request_of selected_text user_prompt [])
               = Reply (explanation ++ open_tag ++ payload ++ close_tag))
    by reflexivity.
  assert (H4 : strip payload <> []
               \/ is_modification_request ascii_lower user_prompt = false)
    by (left; vm_compute; discriminate).
  split; [auto|].
  exact (tagged_extraction ascii_lower a_client svc selected_text user_prompt
           [] world0 explanation payload H1 H2 H3 H4).
Defined.

(** The claim C2 as it is stated fails: the response below is an
    explanation followed by one delimited span, and the result carries
    neither the trimmed payload nor [None] but the answer of the follow-up
    call. *)
Lemma tagged_extraction_counterexample :
  let explanation := str "Nothing to change. " in
  let payload := str " " in
  let svc : service :=
    fun sent_before _ =>
      match sent_before with
      | [] => Reply (explanation ++ open_tag ++ payload ++ close_tag)
      | _ :: _ => Reply (str "The app is fast.")
      end in
  let result :=
    fst (run svc
           (ai_assist_text ascii_lower (Some a_client) (str "The app is fast")
              (str "fix the grammar") []) world0) in
  first_span (explanation ++ open_tag ++ payload ++ close_tag)
    explanation payload []
  /\ result = Returned {| response := str "Nothing to change.";
                          suggested_text := Some (str "The app is fast.") |}
  /\ result <> Returned {| response := strip explanation;
                           suggested_text := Some (strip payload) |}.
Proof.
  intros explanation payload svc result. split; [|split].
  - split; [reflexivity|].
    split; intros H; apply contains_occurs in H; vm_compute in H;
      discriminate.
  - vm_compute. reflexivity.
  - vm_compute. discriminate.
Qed.

(** C5, as the code has it.  When the follow-up call is made and answers,
    its trimmed answer becomes the suggestion unless it is empty, is the
    sentinel [NO_REPLACEMENT] or has at most three characters; in these
    cases the suggestion stays as the search for the tags left it: [None]
    when the primary response has no delimited span, the empty string
    when it has one. *)
Theorem fallback_acceptance (lower : text -> text) (c : Anthropic)
    (svc : service) (selected_text user_prompt full_context : text) (w : world)
    (r extraction : text) :
  let req1 := primary_request_of selected_text user_prompt full_context in
  let req2 :=
    extraction_request (strip_tags selected_text) (snd (extract_tagged r)) in
  svc (sent w) req1 = Reply r ->
  fallback_due lower user_prompt r = true ->
  svc (sent w ++ [req1]) req2 = Reply extraction ->
  exists res,
    fst (run svc
           (ai_assist_text lower (Some c) selected_text user_prompt full_context)
           w) = Returned res
    /\ (~ rejected (strip extraction) ->
        suggested_text res = Some (strip extraction))
    /\ (rejected (strip extraction) ->
        (~ has_span r -> suggested_text res = None)
        /\ (has_span r -> suggested_text res = Some [])).
Proof.
  cbv zeta. intros H1 Hdue H2.
  rewrite run_ai_assist_text. cbv zeta. rewrite H1.
  pose proof Hdue as Hd. unfold fallback_due in Hd. rewrite Hd, H2.
  eexists. split; [reflexivity|]. cbn [suggested_text].
  split.
  - intros Hacc. apply accepted_true in Hacc. now rewrite Hacc.
  - intros Hrej. apply accepted_false in Hrej. rewrite Hrej.
    apply fallback_due_iff in Hdue as [_ [Hno|(b & p & a & Hf & Hp)]].
    + split; [|contradiction]. intros _.
      now rewrite (extract_tagged_no_span _ Hno).
    + split.
      * intros Hno. exfalso. apply Hno.
        apply (first_span_has_span _ _ _ _ Hf).
      * intros _. rewrite (extract_tagged_first_span _ _ _ _ Hf).
        cbn [fst]. now rewrite Hp.
Qed.

Lemma fallback_acceptance_witness :
  let r := str "I would say: The app is fast." in
  let extraction := str " The app is fast. " in
  let svc : service :=
    fun sent_before _ =>
      match sent_before with
      | [] => Reply r
      | _ :: _ => Reply extraction
      end in
  let selected_text := str "The app are fast" in
  let user_prompt := str "fix the grammar" in
  let req1 := primary_request_of selected_text user_prompt [] in
  let req2 :=
    extraction_request (strip_tags selected_text) (snd (extract_tagged r)) in
  (svc (sent world0) req1 = Reply r
   /\ fallback_due ascii_lower user_prompt r = true
   /\ svc (sent world0 ++ [req1]) req2 = Reply extraction)
  /\ exists res,
       fst (run svc
              (ai_assist_text ascii_lower (Some a_client) selected_text
                 user_prompt []) world0) = Returned res
       /\ (~ rejected (strip extraction) ->
           suggested_text res = Some (strip extraction))
       /\ (rejected (strip extraction) ->
           (~ has_span r -> suggested_text res = None)
           /\ (has_span r -> suggested_text res = Some [])).
Proof.
  intros r extraction svc selected_text user_prompt req1 req2.
  assert (H1 : svc (sent world0) req1 = Reply r) by reflexivity.
  assert (H2 : fallback_due ascii_lower user_prompt r = true)
    by (vm_compute; reflexivity).
  assert (H3 : svc (sent world0 ++ [req1]) req2 = Reply extraction)
    by reflexivity.
  split; [auto|].
  exact (fallback_acceptance ascii_lower a_client svc selected_text
           user_prompt [] world0 r extraction H1 H2 H3).
Defined.

(** The claim C5 as it is stated fails: the follow-up call answers with
    the sentinel, and the suggestion returned is the empty string, not
    [None]. *)
Lemma fallback_acceptance_counterexample :
  let r := str "Nothing to change. <suggested_text></suggested_text>" in
  let extraction := str "NO_REPLACEMENT" in
  let svc : service :=
    fun sent_before _ =>
      match sent_before with
      | [] => Reply r
      | _ :: _ => Reply extraction
      end in
  let go :=
    ai_assist_text ascii_lower (Some a_client) (str "The app is fast")
      (str "fix the grammar") [] in
  extraction_calls (calls svc go world0) = 1
  /\ strip extraction = NO_REPLACEMENT
  /\ fst (run svc go world0)
     = Returned {| response := str "Nothing to change.";
                   suggested_text := Some [] |}
  /\ Some [] <> @None text.
Proof.
  intros r extraction svc go. repeat split; try (vm_compute; reflexivity).
  discriminate.
Qed.

Lemma app_eq_cons_inv {A : Type} (before after : list A) (x y : A)
    (l : list A) :
  y :: l = before ++ x :: after ->
  (before = [] /\ x = y /\ after = l)
  \/ exists before', before = y :: before' /\ l = before' ++ x :: after.
Proof.
  destruct before as [|b before]; cbn [app]; intros [= -> ->].
  - now left.
  - right. now exists before.
Qed.

(** C7.  [ai_assist_text] always returns a result, a [response] with a
    [suggested_text] that may be [None]: no exception leaves it.  When a
    call to the model fails, the primary one or the follow-up, the result
    is the diagnostic built from [str(e)], with no suggestion. *)
Theorem ai_assist_text_total (lower : text -> text) (client : option Anthropic)
    (svc : service) (selected_text user_prompt full_context : text) (w : world) :
  let go := ai_assist_text lower client selected_text user_prompt full_context in
  (exists res, fst (run svc go w) = Returned res)
  /\ (forall before req after detail,
        calls svc go w = before ++ req :: after ->
        svc (sent w ++ before) req = Failure detail ->
        fst (run svc go w)
        = Returned {| response := str "Error: " ++ detail;
                      suggested_text := None |}).
Proof.
  cbv zeta. destruct client as [c|].
  - rewrite calls_ai_assist_text, run_ai_assist_text. cbv zeta.
    unfold fallback_due, error_result.
    destruct (svc (sent w) _) as [r|d] eqn:E1.
    + destruct (negb (truthy_opt (fst (extract_tagged r)))
                && is_modification_request lower user_prompt).
      * destruct (svc (sent w ++ _) _) as [x|d] eqn:E2.
        -- split; [now eexists|].
           intros before req after detail Hc Hf.
           apply app_eq_cons_inv in Hc as [(-> & -> & _)|(b' & -> & Hc)].
           ++ rewrite app_nil_r in Hf. congruence.
           ++ apply app_eq_cons_inv in Hc as [(-> & -> & _)|(b'' & _ & Hc)].
              ** congruence.
              ** destruct b''; discriminate.
        -- split; [now eexists|].
           intros before req after detail Hc Hf.
           apply app_eq_cons_inv in Hc as [(-> & -> & _)|(b' & -> & Hc)].
           ++ rewrite app_nil_r in Hf. congruence.
           ++ apply app_eq_cons_inv in Hc as [(-> & -> & _)|(b'' & _ & Hc)].
              ** cbn [fst]. congruence.
              ** destruct b''; discriminate.
      * split; [now eexists|].
        intros before req after detail Hc Hf.
        apply app_eq_cons_inv in Hc as [(-> & -> & _)|(b' & _ & Hc)].
        -- rewrite app_nil_r in Hf. congruence.
        -- destruct b'; discriminate.
    + split; [now eexists|].
      intros before req after detail Hc Hf.
      apply app_eq_cons_inv in Hc as [(-> & -> & _)|(b' & _ & Hc)].
      * rewrite app_nil_r in Hf. cbn [fst]. congruence.
      * destruct b'; discriminate.
  - split; [now eexists|].
    intros before req after detail Hc.
    replace (calls svc _ w) with (@nil request) in Hc
      by (symmetry; apply calls_sent; symmetry; apply app_nil_r).
    destruct before; discriminate.
Qed.

Lemma ai_assist_text_total_witness :
  let r := str "I would say: The app is fast." in
  let svc : service :=
    fun sent_before _ =>
      match sent_before with
      | [] => Reply r
      | _ :: _ => Failure (str "Connection error.")
      end in
  let selected_text := str "The app are fast" in
  let user_prompt := str "fix the grammar" in
  let go :=
    ai_assist_text ascii_lower (Some a_client) selected_text user_prompt [] in
  let req1 := primary_request_of selected_text user_prompt [] in
  let req2 := extraction_request (strip_tags selected_text) r in
  (calls svc go world0 = [req1] ++ req2 :: []
   /\ svc (sent world0 ++ [req1]) req2 = Failure (str "Connection error."))
  /\ fst (run svc go world0)
     = Returned {| response := str "Error: " ++ str "Connection error.";
                   suggested_text := None |}.
Proof.
  intros r svc selected_text user_prompt go req1 req2.
  assert (H1 : calls svc go world0 = [req1] ++ req2 :: [])
    by (vm_compute; reflexivity).
  assert (H2 : svc (sent world0 ++ [req1]) req2
               = Failure (str "Connection error.")) by reflexivity.
  split; [auto|].
  exact (proj2 (ai_assist_text_total ascii_lower (Some a_client) svc
                  selected_text user_prompt [] world0)
           [req1] req2 [] (str "Connection error.") H1 H2).
Defined.

(* ===================================================================== *)
(** ** Two more properties of the module *)
(* ===================================================================== *)

(** X1.  The search for the tags is first-match and non-greedy: it fails
    exactly on the responses without a delimited span, and otherwise
    returns the first span, whose payload ends at the first closing tag. *)
Theorem sentinel_search (r : text) :
  match Re.search suggested_pattern r Re.DOTALL with
  | Some m =>
      first_span r (Re.m_before m) (Re.group m 1) (Re.m_after m)
      /\ Re.m_groups m = [Re.group m 1]
  | None => ~ has_span r
  end
  /\ (forall before p after,
        first_span r before p after ->
        Re.search suggested_pattern r Re.DOTALL
        = Some {| Re.m_before := before; Re.m_groups := [p];
                  Re.m_after := after |}).
Proof.
  split; [|apply search_first_span].
  destruct (Re.search suggested_pattern r Re.DOTALL) as [m|] eqn:E.
  - now apply search_Some_first_span.
  - now apply search_None_no_span.
Qed.

(** X2.  [get_twin_content] answers from the relation cache of the
    instance when the instance has asked for its twin before or holds the
    twin a generation created, and otherwise returns the stored content of
    the twin of the document, [None] when it has none.  It changes no
    stored twin and sends no request to the model; the instance holds the
    answer from then on, and gives it again whatever the table has
    become. *)
Theorem get_twin_content_reads (svc : service) (document : Document)
    (w : world) :
  let answer :=
    match fields_cache w !! instance_id document with
    | Some cached => cached
    | None => twins w !! pk document
    end in
  fst (run svc (get_twin_content document) w) = Returned answer
  /\ twins (snd (run svc (get_twin_content document) w)) = twins w
  /\ calls svc (get_twin_content document) w = []
  /\ fields_cache (snd (run svc (get_twin_content document) w))
     = <[instance_id document := answer]> (fields_cache w)
  /\ forall (svc' : service) (later : world),
       fields_cache later !! instance_id document = Some answer ->
       fst (run svc' (get_twin_content document) later) = Returned answer.
Proof.
  cbv zeta. split; [|split; [|split; [|split]]].
  - rewrite run_get_twin_content.
    now destruct (fields_cache w !! instance_id document).
  - rewrite run_get_twin_content.
    now destruct (fields_cache w !! instance_id document).
  - apply calls_sent. rewrite run_get_twin_content.
    destruct (fields_cache w !! instance_id document); cbn [snd sent];
      symmetry; apply app_nil_r.
  - rewrite run_get_twin_content.
    destruct (fields_cache w !! instance_id document) as [cached|] eqn:E;
      cbn [snd fields_cache]; [|reflexivity].
    symmetry. now apply insert_id.
  - intros svc' later H. rewrite run_get_twin_content. now rewrite H.
Qed.

(* ===================================================================== *)
(** ** More on the sanitizer *)
(* ===================================================================== *)

Lemma stripped_In (s out : text) (c : char) :
  stripped s out -> In c out -> In c s.
Proof.
  induction 1 as [|t rest out _ _ IH|d rest out _ _ IH]; intros H.
  - exact H.
  - apply in_or_app. right. now apply IH.
  - destruct H as [->|H]; [now left|right; now apply IH].
Qed.

Lemma stripped_gt_head (x out : text) :
  stripped (chr_gt :: x) out -> exists out', out = chr_gt :: out'.
Proof.
  intros H. inversion H as [|t rest out0 Ht _ E|c rest out0 _ _ E1].
  - destruct Ht as [body _ _]. discriminate.
  - now eexists.
Qed.

Lemma from_gt_In (s : text) :
  In chr_gt s -> exists rest, from_gt s = chr_gt :: rest.
Proof.
  induction s as [|c s IH]; intros H; [destruct H|]. cbn [from_gt].
  destruct (N.eqb_spec c chr_gt) as [->|Hc]; [now eexists|].
  destruct H as [H|H]; [congruence|now apply IH].
Qed.

Lemma stripped_tag_free (s out : text) : stripped s out -> tag_free out.
Proof.
  induction 1 as [|t rest out _ _ IH|c rest out Hc Hs IH].
  - intros a b E. symmetry in E. apply app_eq_nil in E as [_ ->]. reflexivity.
  - exact IH.
  - intros a b E. destruct a as [|d a].
    + cbn [app] in E. subst b.
      destruct (tag_at (c :: out)) as [l|] eqn:T; [exfalso|reflexivity].
      apply tag_at_span in T as (t & Ht & E).
      destruct Ht as [body Hne Hb]. cbn [app] in E.
      injection E as -> E.
      assert (Hin : In chr_gt rest).
      { apply (stripped_In _ _ _ Hs). rewrite E.
        apply in_or_app. left. apply in_or_app. right. now left. }
      destruct (from_gt_In _ Hin) as [rest' F].
      destruct (from_gt_split _ _ _ F) as (body2 & Hb2 & Er).
      apply Hc. exists (chr_lt :: body2 ++ [chr_gt]), rest'. split.
      * constructor; [|exact Hb2]. intros ->. cbn [app] in Er. subst rest.
        destruct (stripped_gt_head _ _ Hs) as [out' Eo].
        rewrite Eo in E. destruct body as [|b0 body]; [congruence|].
        cbn [app] in E. injection E as <- _. apply Hb. now left.
      * rewrite Er. cbn [app]. now rewrite <- app_assoc.
    + injection E as _ ->. now apply (IH a b).
Qed.

Lemma tag_free_tail (c : char) (s : text) : tag_free (c :: s) -> tag_free s.
Proof. intros H a b ->. now apply (H (c :: a) b). Qed.

Lemma tag_free_strip_tags (s : text) : tag_free s -> strip_tags s = s.
Proof.
  induction s as [|c s IH]; intros H; [reflexivity|].
  rewrite strip_tags_miss by now apply (H [] (c :: s)).
  f_equal. apply IH. now apply (tag_free_tail c).
Qed.

Lemma tag_span_head (t : text) :
  tag_span t -> exists t', t = chr_lt :: t' /\ In chr_gt t'.
Proof.
  intros [body _ _]. eexists. split; [reflexivity|].
  apply in_or_app. right. now left.
Qed.

(** X3.  What the sanitizer returns holds no tag span any more, so
    sanitizing twice is sanitizing once. *)
Theorem sanitized_has_no_tag (s : text) :
  (forall a t b, tag_span t -> strip_tags s <> a ++ t ++ b)
  /\ strip_tags (strip_tags s) = strip_tags s.
Proof.
  pose proof (stripped_tag_free _ _ (strip_tags_stripped s)) as H.
  split; [|now apply tag_free_strip_tags].
  intros a t b Ht E. specialize (H a (t ++ b) E).
  rewrite (tag_span_at _ _ Ht) in H. discriminate.
Qed.

(** X4.  A text without [<], or without [>], goes through the sanitizer
    unchanged. *)
Theorem plain_text_unchanged (s : text) :
  ~ In chr_lt s \/ ~ In chr_gt s -> strip_tags s = s.
Proof.
  intros H. apply tag_free_strip_tags. intros a b ->.
  destruct (tag_at b) as [rest|] eqn:T; [exfalso|reflexivity].
  apply tag_at_span in T as (t & Ht & ->).
  destruct (tag_span_head _ Ht) as (t' & -> & Hgt).
  destruct H as [H|H]; apply H; apply in_or_app; right.
  - now left.
  - right. apply in_or_app. now left.
Qed.

Lemma plain_text_unchanged_witness :
  (~ In chr_lt (str "a > b &amp; c") \/ ~ In chr_gt (str "a > b &amp; c"))
  /\ strip_tags (str "a > b &amp; c") = str "a > b &amp; c".
Proof.
  assert (H : ~ In chr_lt (str "a > b &amp; c")
              \/ ~ In chr_gt (str "a > b &amp; c"))
    by (left; vm_compute; intuition discriminate).
  split; [exact H|]. exact (plain_text_unchanged _ H).
Defined.

(* ===================================================================== *)
(** ** More on the Selection Assistant and the Twin Generator *)
(* ===================================================================== *)

Lemma sub_no_span (a : text) :
  ~ has_span a -> Re.sub suggested_span_pattern [] a Re.DOTALL = a.
Proof.
  intros H. unfold Re.sub.
  rewrite <- (app_nil_r a) at 1. rewrite sub_from_before.
  - now rewrite app_nil_r.
  - intros x b -> Hb. rewrite app_nil_r, match_here_span_pattern.
    destruct (Re.match_here Re.DOTALL suggested_pattern b)
      as [[rest caps]|] eqn:E; [|reflexivity].
    exfalso. apply H. apply match_here_Some in E as (p & -> & _).
    now exists x, p, rest.
Qed.

Lemma without_spans_sub (a out : text) :
  without_spans a out -> out = Re.sub suggested_span_pattern [] a Re.DOTALL.
Proof.
  induction 1 as [a H|a before p after out Hf _ IH].
  - now rewrite sub_no_span.
  - now rewrite (sub_first_span _ _ _ _ Hf), IH.
Qed.

Lemma sub_without_spans (a : text) :
  without_spans a (Re.sub suggested_span_pattern [] a Re.DOTALL).
Proof.
  remember (length a) as n eqn:Hn. revert a Hn.
  induction n as [n IH] using lt_wf_ind. intros a Hn.
  destruct (span_cases a) as [H|(before & p & after & Hf)].
  - rewrite sub_no_span by exact H. now constructor.
  - rewrite (sub_first_span _ _ _ _ Hf).
    apply (without_spans_first _ _ p after); [exact Hf|].
    apply (IH (length after)); [|reflexivity].
    destruct Hf as (-> & _). subst n. rewrite !length_app.
    assert (0 < length open_tag) by (vm_compute; lia). lia.
Qed.

Lemma run_bind (svc : service) {A B : Type} (m : eff A) (f : A -> eff B)
    (w : world) :
  run svc (bind m f) w =
  match run svc m w with
  | (Returned a, w') => run svc (f a) w'
  | (Uncaught e, w') => (Uncaught e, w')
  end.
Proof.
  revert w. induction m as [a|e|X ev k IH]; intros w; cbn [bind run].
  - reflexivity.
  - reflexivity.
  - destruct (handle svc ev w) as [x w']. apply IH.
Qed.

(** X5.  When the response holds several delimited spans, the payload of
    the first one is the suggestion, and every span, found one after the
    other from the left, is taken out of the response shown. *)
Theorem first_of_several (lower : text -> text) (c : Anthropic)
    (svc : service) (selected_text user_prompt full_context : text) (w : world)
    (r before p after : text) :
  svc (sent w) (primary_request_of selected_text user_prompt full_context)
    = Reply r ->
  first_span r before p after ->
  strip p <> [] \/ is_modification_request lower user_prompt = false ->
  exists rest,
    without_spans after rest
    /\ fst (run svc
              (ai_assist_text lower (Some c) selected_text user_prompt
                 full_context) w)
       = Returned {| response := strip (before ++ rest);
                     suggested_text := Some (strip p) |}.
Proof.
  intros Hr Hf Hcase.
  exists (Re.sub suggested_span_pattern [] after Re.DOTALL).
  split; [apply sub_without_spans|].
  rewrite run_ai_assist_text. cbv zeta. rewrite Hr.
  rewrite (extract_tagged_first_span _ _ _ _ Hf). cbn [fst snd truthy_opt].
  destruct Hcase as [Hp| ->].
  - destruct (strip p) as [|x l]; [congruence|]. reflexivity.
  - now rewrite andb_false_r.
Qed.

Lemma first_of_several_witness :
  let r := str "Two options: <suggested_text>Hello there.</suggested_text> or <suggested_text>Hi.</suggested_text> Pick one." in
  let svc : service := fun _ _ => Reply r in
  let selected_text := str "hello" in
  let user_prompt := str "what could this be?" in
  (svc (sent world0) (primary_request_of selected_text user_prompt []) = Reply r
   /\ first_span r (str "Two options: ") (str "Hello there.")
        (str " or <suggested_text>Hi.</suggested_text> Pick one.")
   /\ (strip (str "Hello there.") <> []
       \/ is_modification_request ascii_lower user_prompt = false))
  /\ exists rest,
       without_spans (str " or <suggested_text>Hi.</suggested_text> Pick one.")
         rest
       /\ fst (run svc
                 (ai_assist_text ascii_lower (Some a_client) selected_text
                    user_prompt []) world0)
          = Returned {| response := strip (str "Two options: " ++ rest);
                        suggested_text := Some (strip (str "Hello there.")) |}.
Proof.
  intros r svc selected_text user_prompt.
  assert (H1 : svc (sent world0)
                 (primary_request_of selected_text user_prompt []) = Reply r)
    by reflexivity.
  assert (H2 : first_span r (str "Two options: ") (str "Hello there.")
                 (str " or <suggested_text>Hi.</suggested_text> Pick one.")).
  { split; [reflexivity|].
    split; intros H; apply contains_occurs in H; vm_compute in H;
      discriminate. }
  assert (H3 : strip (str "Hello there.") <> []
               \/ is_modification_request ascii_lower user_prompt = false)
    by (left; vm_compute; discriminate).
  split; [auto|].
  exact (first_of_several ascii_lower a_client svc selected_text user_prompt
           [] world0 r _ _ _ H1 H2 H3).
Defined.

(** X6.  A response without a delimited span is returned as it came, not
    trimmed: alone for an instruction that is no modification request,
    and with the verdict on the follow-up answer otherwise, which has no
    part in the response shown. *)
Theorem untagged_response_verbatim (lower : text -> text) (c : Anthropic)
    (svc : service) (selected_text user_prompt full_context : text) (w : world)
    (r : text) :
  let req1 := primary_request_of selected_text user_prompt full_context in
  let result :=
    fst (run svc
           (ai_assist_text lower (Some c) selected_text user_prompt
              full_context) w) in
  svc (sent w) req1 = Reply r ->
  ~ has_span r ->
  (is_modification_request lower user_prompt = false ->
   result = Returned {| response := r; suggested_text := None |})
  /\ (is_modification_request lower user_prompt = true ->
      forall extraction,
        svc (sent w ++ [req1]) (extraction_request (strip_tags selected_text) r)
          = Reply extraction ->
        result
        = Returned {| response := r;
                      suggested_text :=
                        if accepted (strip extraction)
                        then Some (strip extraction) else None |}).
Proof.
  cbv zeta. intros Hr Hno. rewrite run_ai_assist_text. cbv zeta. rewrite Hr.
  rewrite (extract_tagged_no_span _ Hno). cbn [fst snd truthy_opt negb andb].
  split; intros ->; [reflexivity|].
  intros x Hx. now rewrite Hx.
Qed.

Lemma untagged_response_verbatim_witness :
  let r := str "  It means the app is quick.
" in
  let svc : service := fun _ _ => Reply r in
  let selected_text := str "The app is fast" in
  let user_prompt := str "what does this mean?" in
  let req1 := primary_request_of selected_text user_prompt [] in
  let result :=
    fst (run svc
           (ai_assist_text ascii_lower (Some a_client) selected_text
              user_prompt []) world0) in
  (svc (sent world0) req1 = Reply r /\ ~ has_span r)
  /\ (is_modification_request ascii_lower user_prompt = false ->
      result = Returned {| response := r; suggested_text := None |})
  /\ (is_modification_request ascii_lower user_prompt = true ->
      forall extraction,
        svc (sent world0 ++ [req1])
          (extraction_request (strip_tags selected_text) r)
          = Reply extraction ->
        result
        = Returned {| response := r;
                      suggested_text :=
                        if accepted (strip extraction)
                        then Some (strip extraction) else None |}).
Proof.
  intros r svc selected_text user_prompt req1 result.
  assert (H1 : svc (sent world0) req1 = Reply r) by reflexivity.
  assert (H2 : ~ has_span r)
    by (apply search_None_no_span; vm_compute; reflexivity).
  split; [auto|].
  exact (untagged_response_verbatim ascii_lower a_client svc selected_text
           user_prompt [] world0 r H1 H2).
Defined.

(** X7.  [ai_assist_text] never writes to the table of twins, and it sends
    at most two requests to the model. *)
Theorem assistant_persists_nothing (lower : text -> text)
    (client : option Anthropic) (svc : service)
    (selected_text user_prompt full_context : text) (w : world) :
  let go :=
    ai_assist_text lower client selected_text user_prompt full_context in
  twins (snd (run svc go w)) = twins w
  /\ sent (snd (run svc go w)) = sent w ++ calls svc go w
  /\ length (calls svc go w) <= 2.
Proof.
  cbv zeta. destruct client as [c|].
  - rewrite calls_ai_assist_text, run_ai_assist_text. cbv zeta.
    unfold fallback_due.
    destruct (svc (sent w) _) as [r|d].
    + destruct (negb (truthy_opt (fst (extract_tagged r)))
                && is_modification_request lower user_prompt).
      * destruct (svc (sent w ++ _) _); cbn [snd twins sent length];
          rewrite <- app_assoc; repeat split; lia.
      * cbn [snd twins sent length]. repeat split; lia.
    + cbn [snd twins sent length]. repeat split; lia.
  - replace (calls svc _ w) with (@nil request)
      by (symmetry; apply calls_sent; symmetry; apply app_nil_r).
    cbn [ai_assist_text run snd twins sent length]. rewrite app_nil_r.
    repeat split; lia.
Qed.

(** X8.  Generating twice for a document, on one instance, leaves one
    twin, holding the text of the last generation that succeeded: a second
    success overwrites the first, a failure after a success keeps it.  An
    instance loaded afterwards reads that text.  The instance the calls
    were made on reads what it holds: the first text when the first call
    created the twin, since the second call writes through another
    object; what it had cached when the twin was there before; and the
    stored text when it had cached nothing. *)
Theorem regenerate_overwrites (c : Anthropic) (svc svc' : service)
    (document : Document) (w : world) (first : text) :
  let req := twin_request_of document in
  let twice :=
    bind (generate_twin_content (Some c) document)
      (fun _ => generate_twin_content (Some c) document) in
  svc (sent w) req = Reply first ->
  let kept :=
    match svc (sent w ++ [req]) req with
    | Reply second => second
    | Failure _ => first
    end in
  twins (snd (run svc twice w)) = <[pk document := kept]> (twins w)
  /\ fst (run svc' (get_twin_content document) (snd (run svc twice w)))
     = Returned
         match twins w !! pk document,
               fields_cache w !! instance_id document with
         | None, _ => Some first
         | Some _, Some cached => cached
         | Some _, None => Some kept
         end
  /\ forall loaded : Document,
       pk loaded = pk document ->
       instance_id loaded <> instance_id document ->
       fields_cache w !! instance_id loaded = None ->
       fst (run svc' (get_twin_content loaded) (snd (run svc twice w)))
       = Returned (Some kept).
Proof.
  cbv zeta. intros H1. rewrite run_bind, run_generate_twin_content.
  cbv zeta. rewrite H1. rewrite run_generate_twin_content. cbv zeta.
  cbn [sent twins fields_cache]. rewrite lookup_insert_eq.
  assert (Htable :
            twins
              (snd
                 match svc (sent w ++ [twin_request_of document])
                         (twin_request_of document) return outcome text * world
                 with
                 | Reply ai_content =>
                     (Returned ai_content,
                      {| twins := <[pk document := ai_content]>
                                    (<[pk document := first]> (twins w));
                         sent := (sent w ++ [twin_request_of document])
                                 ++ [twin_request_of document];
                         fields_cache :=
                           match twins w !! pk document with
                           | Some _ => fields_cache w
                           | None =>
                               <[instance_id document := Some first]>
                                 (fields_cache w)
                           end |})
                 | Failure detail =>
                     (Returned (error_msg detail),
                      {| twins := <[pk document := first]> (twins w);
                         sent := (sent w ++ [twin_request_of document])
                                 ++ [twin_request_of document];
                         fields_cache :=
                           match twins w !! pk document with
                           | Some _ => fields_cache w
                           | None =>
                               <[instance_id document := Some first]>
                                 (fields_cache w)
                           end |})
                 end)
            = <[pk document :=
                  match svc (sent w ++ [twin_request_of document])
                          (twin_request_of document) with
                  | Reply second => second
                  | Failure _ => first
                  end]> (twins w)).
  { destruct (svc (sent w ++ _) _) as [second|d]; cbn [snd twins];
      [apply insert_insert_eq|reflexivity]. }
  split; [exact Htable|]. split.
  - rewrite run_get_twin_content.
    destruct (svc (sent w ++ _) _) as [second|d]; cbn [snd fst twins fields_cache];
      destruct (twins w !! pk document) as [old|];
      try (now rewrite lookup_insert_eq);
      destruct (fields_cache w !! instance_id document) as [cached|];
      try reflexivity; cbn [fst twins];
      rewrite ?insert_insert_eq; now rewrite lookup_insert_eq.
  - intros loaded Hpk Hid Hnone. rewrite run_get_twin_content.
    assert (Hcache :
              forall x : outcome text * world,
                fields_cache (snd x)
                = match twins w !! pk document with
                  | Some _ => fields_cache w
                  | None =>
                      <[instance_id document := Some first]> (fields_cache w)
                  end ->
                fields_cache (snd x) !! instance_id loaded = None).
    { intros x ->. destruct (twins w !! pk document); [exact Hnone|].
      rewrite lookup_insert_ne; [exact Hnone|]. congruence. }
    rewrite Hcache by (now destruct (svc (sent w ++ _) _)).
    cbn [fst]. rewrite Hpk, Htable. now rewrite lookup_insert_eq.
Qed.

Lemma regenerate_overwrites_witness :
  let svc : service :=
    fun sent_before _ =>
      match sent_before with
      | [] => Reply (str "## First")
      | _ :: _ => Reply (str "## Second")
      end in
  let req := twin_request_of login_flow in
  let twice :=
    bind (generate_twin_content (Some a_client) login_flow)
      (fun _ => generate_twin_content (Some a_client) login_flow) in
  svc (sent world0) req = Reply (str "## First")
  /\ twins (snd (run svc twice world0))
     = <[pk login_flow := str "## Second"]> (twins world0)
  /\ fst (run svc (get_twin_content login_flow) (snd (run svc twice world0)))
     = Returned (Some (str "## First")).
Proof.
  intros svc req twice.
  assert (H1 : svc (sent world0) req = Reply (str "## First")) by reflexivity.
  split; [exact H1|].
  destruct (regenerate_overwrites a_client svc svc login_flow world0
              (str "## First") H1) as (T1 & T2 & _).
  split; [exact T1|exact T2].
Defined.

(* ===================================================================== *)
(** ** Deleting a document *)
(* ===================================================================== *)

Lemma elem_of_children_of (t : gmap Z DocumentRow) (ids : gset Z) (k : Z) :
  k ∈ children_of t ids <-> exists p, parent_of t k p /\ p ∈ ids.
Proof.
  unfold children_of, parent_of. rewrite elem_of_dom. split.
  - intros [r Hr]. apply map_lookup_filter_Some in Hr as [Hr Hc].
    cbn [snd] in Hc. unfold is_child_of in Hc.
    destruct (row_parent r) as [p|] eqn:E; [|discriminate].
    apply bool_decide_eq_true in Hc. exists p. split; [|exact Hc].
    now exists r.
  - intros (p & (r & Hr & Hp) & Hin). exists r.
    apply map_lookup_filter_Some. split; [exact Hr|].
    cbn [snd]. unfold is_child_of. rewrite Hp.
    now apply bool_decide_eq_true.
Qed.

Lemma children_of_dom (t : gmap Z DocumentRow) (ids : gset Z) :
  children_of t ids ⊆ dom t.
Proof.
  intros k Hk. apply elem_of_children_of in Hk as (p & (r & Hr & _) & _).
  apply elem_of_dom. now exists r.
Qed.

Lemma collect_grows (n : nat) (t : gmap Z DocumentRow) (ids : gset Z) :
  ids ⊆ collect n t ids.
Proof.
  revert ids. induction n as [|n IH]; intros ids; cbn [collect]; [done|].
  etrans; [|apply IH]. set_solver.
Qed.

Lemma collect_descends (n : nat) (t : gmap Z DocumentRow) (ids : gset Z)
    (id : Z) :
  (forall k, k ∈ ids -> descends t k id) ->
  forall k, k ∈ collect n t ids -> descends t k id.
Proof.
  revert ids. induction n as [|n IH]; intros ids H k; cbn [collect]; [apply H|].
  apply IH. intros j Hj. apply elem_of_union in Hj as [Hj|Hj]; [now apply H|].
  apply elem_of_children_of in Hj as (p & Hp & Hin).
  eapply rtc_l; [exact Hp|]. now apply H.
Qed.

Lemma collect_closed_fix (n : nat) (t : gmap Z DocumentRow) (ids : gset Z) :
  children_of t ids ⊆ ids -> collect n t ids = ids.
Proof.
  intros H. induction n as [|n IH]; cbn [collect]; [reflexivity|].
  replace (ids ∪ children_of t ids) with ids by set_solver. exact IH.
Qed.

(** Enough rounds close the collection under "child of". *)
Lemma collect_closed (n : nat) (t : gmap Z DocumentRow) (ids : gset Z) :
  size (dom t ∖ ids) <= n ->
  children_of t (collect n t ids) ⊆ collect n t ids.
Proof.
  revert ids. induction n as [|n IH]; intros ids Hn; cbn [collect].
  - assert (E : dom t ∖ ids ≡ ∅) by (apply size_empty_inv; lia).
    pose proof (children_of_dom t ids). set_solver.
  - destruct (decide (children_of t ids ⊆ ids)) as [Hc|Hc].
    + replace (ids ∪ children_of t ids) with ids by set_solver.
      now rewrite collect_closed_fix.
    + apply IH.
      assert (Hlt : dom t ∖ (ids ∪ children_of t ids) ⊂ dom t ∖ ids).
      { split; [set_solver|]. intros Hsub. apply Hc. intros x Hx.
        destruct (decide (x ∈ ids)) as [|Hx']; [assumption|exfalso].
        pose proof (children_of_dom t ids x Hx).
        assert (x ∈ dom t ∖ (ids ∪ children_of t ids)) by set_solver.
        set_solver. }
      apply subset_size in Hlt. lia.
Qed.

Lemma cascade_descends (t : gmap Z DocumentRow) (id k : Z) :
  k ∈ cascade t id <-> descends t k id.
Proof.
  unfold cascade. split.
  - apply collect_descends. intros j Hj.
    apply elem_of_singleton in Hj as ->. apply rtc_refl.
  - intros H. induction H as [x|x y z Hxy _ IH].
    + apply collect_grows. now apply elem_of_singleton.
    + apply collect_closed.
      * rewrite <- size_dom. apply subseteq_size. set_solver.
      * apply elem_of_children_of. now exists y.
Qed.

(** X9.  Deleting a document removes it, every document below it and the
    twins of all of these, and nothing else; no request is sent to the
    model.  The same happens for every request method. *)
Theorem delete_document_cascades (request : HttpRequest) (doc_id : Z)
    (st : site) (row : DocumentRow) :
  documents st !! doc_id = Some row ->
  let (resp, st') := delete_document request doc_id st in
  resp = render (str "core/partials/document_list.html") [documents_context]
  /\ documents st' !! doc_id = None
  /\ (forall k r,
        documents st' !! k = Some r
        <-> documents st !! k = Some r /\ ~ descends (documents st) k doc_id)
  /\ (forall k c,
        twins (ai_world st') !! k = Some c
        <-> twins (ai_world st) !! k = Some c
            /\ ~ descends (documents st) k doc_id)
  /\ sent (ai_world st') = sent (ai_world st).
Proof.
  intros Hrow. unfold delete_document, get_object_or_404. rewrite Hrow.
  unfold delete_cascade. cbn [pk instance documents ai_world twins sent].
  split; [reflexivity|]. split; [|split; [|split; [|reflexivity]]].
  - apply map_lookup_filter_None. right. intros r _ H. cbn [fst] in H.
    apply H. apply cascade_descends. apply rtc_refl.
  - intros k r. rewrite map_lookup_filter_Some. cbn [fst].
    now rewrite cascade_descends.
  - intros k c. rewrite map_lookup_filter_Some. cbn [fst].
    now rewrite cascade_descends.
Qed.

Lemma delete_document_cascades_witness :
  let request := {| method := str "GET"; POST := []; body := [] |} in
  let child (p : Z) :=
    {| row_title := str "Notes"; row_content := [];
       row_parent := Some p; row_order := 0 |} in
  let st := {| documents := {[ 1%Z := row_of login_flow; 2%Z := child 1%Z;
                               3%Z := child 2%Z ]};
               ai_world := {| twins := {[ 3%Z := str "## Twin" ]};
                              sent := []; fields_cache := ∅ |} |} in
  documents st !! 1%Z = Some (row_of login_flow)
  /\ twins (ai_world (snd (delete_document request 1 st))) !! 3%Z = None.
Proof.
  intros request child st.
  assert (H : documents st !! 1%Z = Some (row_of login_flow)) by reflexivity.
  split; [exact H|].
  pose proof (delete_document_cascades request 1 st (row_of login_flow) H) as T.
  destruct (delete_document request 1 st) as [resp st'].
  destruct T as (_ & _ & _ & T & _). cbn [snd].
  destruct (twins (ai_world st') !! 3%Z) as [c|] eqn:E; [|reflexivity].
  apply T in E as [_ E]. exfalso. apply E.
  eapply rtc_l; [exists (child 2%Z); split; reflexivity|].
  eapply rtc_l; [exists (child 1%Z); split; reflexivity|].
  apply rtc_refl.
Defined.

(* ===================================================================== *)
(** ** The view of the Selection Assistant *)
(* ===================================================================== *)

Lemma with_world_same (st : site) : with_world st (ai_world st) = st.
Proof. now destruct st. Qed.

Lemma run_ai_assist_text_returned (lower : text -> text)
    (client : option Anthropic) (svc : service)
    (selected_text user_prompt full_context : text) (w : world) :
  exists res w',
    run svc (ai_assist_text lower client selected_text user_prompt full_context) w
    = (Returned res, w')
    /\ twins w' = twins w.
Proof.
  destruct client as [c|]; [|now eexists _, _].
  rewrite run_ai_assist_text. cbv zeta.
  destruct (svc (sent w) _) as [r|d]; [|now eexists _, _].
  destruct (negb (truthy_opt (fst (extract_tagged r)))
            && is_modification_request lower user_prompt);
    [|now eexists _, _].
  destruct (svc (sent w ++ _) _); now eexists _, _.
Qed.

(** X10.  The view of the assistant turns a request down before anything
    is sent to the model or stored: with 405 when the method is not POST,
    with 400 when the body is no JSON, and with 400 when [selected_text]
    or [prompt] is missing or falsy (empty, null, zero). *)
Theorem ai_assist_rejects (rt : Runtime) (svc : service)
    (request : HttpRequest) (st : site) :
  (method request <> POST_method ->
   ai_assist rt svc request st = (HttpResponseNotAllowed [POST_method], st))
  /\ (method request = POST_method ->
      forall msg, json_loads rt (body request) = JSONDecodeError msg ->
      ai_assist rt svc request st
      = (error_response (str "Invalid JSON") 400, st))
  /\ (method request = POST_method ->
      forall d, json_loads rt (body request) = Loaded (JObj d) ->
      py_truthy (dict_get d (str "selected_text") (JStr [])) = false
      \/ py_truthy (dict_get d (str "prompt") (JStr [])) = false ->
      ai_assist rt svc request st
      = (error_response (str "Both selected_text and prompt are required") 400,
         st)).
Proof.
  unfold ai_assist. split; [|split].
  - intros H. now rewrite (bool_decide_eq_false_2 _ H).
  - intros H msg E. now rewrite (bool_decide_eq_true_2 _ H), E.
  - intros H d E Hf. rewrite (bool_decide_eq_true_2 _ H), E. cbn [negb].
    destruct Hf as [-> | ->]; [reflexivity|]. now rewrite orb_true_r.
Qed.

(** X11.  For a POST whose JSON object gives [selected_text] and [prompt]
    as non-empty strings, and [full_context] as a string or a falsy value
    or not at all, the view answers 200 with the [response] and the
    [suggested_text] of [ai_assist_text] on these strings; it stores
    nothing. *)
Theorem ai_assist_answers (rt : Runtime) (svc : service)
    (request : HttpRequest) (st : site) (d : list (text * json))
    (selected prompt context : text) :
  method request = POST_method ->
  json_loads rt (body request) = Loaded (JObj d) ->
  dict_get d (str "selected_text") (JStr []) = JStr selected ->
  selected <> [] ->
  dict_get d (str "prompt") (JStr []) = JStr prompt ->
  prompt <> [] ->
  dict_get d (str "full_context") (JStr []) = JStr context
  \/ (py_truthy (dict_get d (str "full_context") (JStr [])) = false
      /\ context = []) ->
  exists res w,
    run svc
      (ai_assist_text (rt_lower rt) (rt_client rt) selected prompt context)
      (ai_world st) = (Returned res, w)
    /\ ai_assist rt svc request st = (result_response res, with_world st w)
    /\ twins w = twins (ai_world st)
    /\ documents (with_world st w) = documents st.
Proof.
  intros Hm Hl Hs Hs' Hp Hp' Hc.
  destruct (run_ai_assist_text_returned (rt_lower rt) (rt_client rt) svc
              selected prompt context (ai_world st)) as (res & w & Hrun & Htw).
  exists res, w. split; [exact Hrun|]. split; [|split; [exact Htw|reflexivity]].
  unfold ai_assist. rewrite (bool_decide_eq_true_2 _ Hm), Hl, Hs, Hp.
  cbn [negb py_truthy].
  destruct selected as [|a selected]; [congruence|].
  destruct prompt as [|b prompt]; [congruence|]. cbn [truthy negb orb].
  unfold ai_assist_text_py.
  destruct Hc as [-> | [Hf ->]].
  - destruct context as [|x context]; cbn [py_truthy truthy];
      now rewrite Hrun.
  - rewrite Hf. now rewrite Hrun.
Qed.

Lemma ai_assist_answers_witness :
  let d := [(str "selected_text", JStr (str "The app is fast"));
            (str "prompt", JStr (str "make this more formal"))] in
  let rt := example_runtime (fun _ => Loaded (JObj d)) in
  let svc : service :=
    fun _ _ => Reply (str "Made it more formal. <suggested_text>The application exhibits high performance.</suggested_text>") in
  let request := {| method := str "POST"; POST := []; body := [] |} in
  let st := {| documents := ∅; ai_world := world0 |} in
  (method request = POST_method
   /\ json_loads rt (body request) = Loaded (JObj d)
   /\ dict_get d (str "full_context") (JStr []) = JStr [])
  /\ exists res w,
       run svc
         (ai_assist_text (rt_lower rt) (rt_client rt) (str "The app is fast")
            (str "make this more formal") [])
         (ai_world st) = (Returned res, w)
       /\ ai_assist rt svc request st = (result_response res, with_world st w)
       /\ twins w = twins (ai_world st)
       /\ documents (with_world st w) = documents st.
Proof.
  intros d rt svc request st.
  assert (H1 : method request = POST_method) by reflexivity.
  assert (H2 : json_loads rt (body request) = Loaded (JObj d)) by reflexivity.
  assert (H3 : dict_get d (str "selected_text") (JStr [])
               = JStr (str "The app is fast")) by reflexivity.
  assert (H4 : str "The app is fast" <> []) by discriminate.
  assert (H5 : dict_get d (str "prompt") (JStr [])
               = JStr (str "make this more formal")) by reflexivity.
  assert (H6 : str "make this more formal" <> []) by discriminate.
  assert (H7 : dict_get d (str "full_context") (JStr []) = JStr [])
    by reflexivity.
  split; [auto|].
  exact (ai_assist_answers rt svc request st d _ _ [] H1 H2 H3 H4 H5 H6
           (or_introl H7)).
Defined.

(** X12.  A [selected_text] or [full_context] that is truthy and no
    string makes [re.sub] raise before the client is looked at: the view
    answers 500 with [str(e)], nothing is sent to the model and nothing is
    stored.  A [prompt] that is truthy and no string does the same at
    [user_prompt.lower()] when the client is configured; without a client
    the fixed diagnostic is returned with 200. *)
Theorem ai_assist_wrong_type (rt : Runtime) (svc : service)
    (request : HttpRequest) (st : site) (d : list (text * json)) :
  let selected_text := dict_get d (str "selected_text") (JStr []) in
  let user_prompt := dict_get d (str "prompt") (JStr []) in
  let full_context := dict_get d (str "full_context") (JStr []) in
  method request = POST_method ->
  json_loads rt (body request) = Loaded (JObj d) ->
  py_truthy selected_text = true ->
  py_truthy user_prompt = true ->
  ((forall s, selected_text <> JStr s) ->
   ai_assist rt svc request st
   = (error_response (type_error_text rt selected_text) 500, st))
  /\ (forall selected,
        selected_text = JStr selected ->
        py_truthy full_context = true ->
        (forall s, full_context <> JStr s) ->
        ai_assist rt svc request st
        = (error_response (type_error_text rt full_context) 500, st))
  /\ (forall selected context,
        selected_text = JStr selected ->
        full_context = JStr context ->
        (forall s, user_prompt <> JStr s) ->
        ai_assist rt svc request st
        = match rt_client rt with
          | Some _ =>
              (error_response (no_attribute_text rt user_prompt (str "lower"))
                 500, st)
          | None =>
              (result_response
                 {| response := api_key_not_configured;
                    suggested_text := None |}, st)
          end).
Proof.
  cbv zeta. intros Hm Hl Hs Hp. unfold ai_assist.
  rewrite (bool_decide_eq_true_2 _ Hm), Hl, Hs, Hp. cbn [negb orb].
  unfold ai_assist_text_py. split; [|split].
  - intros Hno.
    destruct (dict_get d (str "selected_text") (JStr [])) as [| | | |s| |];
      try (cbn [run str_exn]; now rewrite with_world_same).
    now destruct (Hno s).
  - intros selected -> Hc Hno. rewrite Hc.
    destruct (dict_get d (str "full_context") (JStr [])) as [| | | |s| |];
      try (cbn [run str_exn]; now rewrite with_world_same).
    now destruct (Hno s).
  - intros selected context -> Hc Hno. rewrite Hc.
    destruct context as [|x context]; cbn [py_truthy truthy];
      (destruct (dict_get d (str "prompt") (JStr [])) as [| | | |s| |];
       [| | | |now destruct (Hno s)| |]);
      destruct (rt_client rt); cbn [run str_exn];
      now rewrite with_world_same.
Qed.

Lemma ai_assist_wrong_type_witness :
  let d := [(str "selected_text", JInt 5); (str "prompt", JStr (str "fix"))] in
  let rt := example_runtime (fun _ => Loaded (JObj d)) in
  let svc : service := fun _ _ => Reply (str "ok") in
  let request := {| method := str "POST"; POST := []; body := [] |} in
  let st := {| documents := ∅; ai_world := world0 |} in
  ai_assist rt svc request st
  = (error_response (str "expected string or bytes-like object") 500, st).
Proof.
  intros d rt svc request st.
  refine (proj1 (ai_assist_wrong_type rt svc request st d _ _ _ _) _);
    try reflexivity.
  intros s. discriminate.
Defined.

(* ===================================================================== *)
(** ** The views of the Twin Generator *)
(* ===================================================================== *)


(** A view asks for the twin on the instance it has just loaded: the
    table answers. *)
Lemma run_get_twin_content_loaded (svc : service) (document : Document)
    (w : world) :
  run svc (get_twin_content document) (request_world w)
  = (Returned (twins w !! pk document),
     {| twins := twins w; sent := sent w;
        fields_cache := {[ instance_id document := twins w !! pk document ]} |}).
Proof.
  rewrite run_get_twin_content. cbn [request_world fields_cache twins sent].
  rewrite lookup_empty. now rewrite insert_empty.
Qed.

(** X13.  A POST to the sync view of a document, with the client
    configured and the model answering, shows the answer in the AI column
    and stores it; loading the document afterwards, by any request, shows
    the same text.  The table of documents is not touched. *)
Theorem sync_then_load (rt : Runtime) (svc svc' : service)
    (request request' : HttpRequest) (doc_id : Z) (st : site)
    (row : DocumentRow) (c : Anthropic) (ai_content : text) :
  method request = POST_method ->
  documents st !! doc_id = Some row ->
  rt_client rt = Some c ->
  svc (sent (ai_world st)) (twin_request_of (instance doc_id row))
    = Reply ai_content ->
  let (resp, st') := sync_ai_twin rt svc request doc_id st in
  resp = render (str "core/partials/ai_column.html")
           [(str "doc", CtxDocument (instance doc_id row));
            (str "ai_content", CtxContent (Some ai_content))]
  /\ documents st' = documents st
  /\ fst (get_document svc' request' doc_id st')
     = render (str "core/partials/doc_load_sync.html")
         [(str "doc", CtxDocument (instance doc_id row));
          (str "ai_content", CtxContent (Some ai_content))].
Proof.
  intros Hm Hrow Hc Hr. unfold sync_ai_twin, get_document, get_object_or_404.
  rewrite (bool_decide_eq_true_2 _ Hm), Hrow, Hc. cbn [negb].
  rewrite run_generate_twin_content. cbv zeta.
  cbn [request_world sent twins fields_cache]. rewrite Hr.
  cbn [with_world documents ai_world]. rewrite Hrow.
  rewrite run_get_twin_content_loaded.
  cbn [request_world twins pk instance fst].
  now rewrite lookup_insert_eq.
Qed.

Lemma sync_then_load_witness :
  let rt := example_runtime (fun _ => JSONDecodeError []) in
  let svc : service := fun _ _ => Reply (str "## Technical Context") in
  let request := {| method := str "POST"; POST := []; body := [] |} in
  let request' := {| method := str "GET"; POST := []; body := [] |} in
  let st := {| documents := {[ 1%Z := row_of login_flow ]};
               ai_world := world0 |} in
  (method request = POST_method
   /\ documents st !! 1%Z = Some (row_of login_flow)
   /\ rt_client rt = Some a_client
   /\ svc (sent (ai_world st)) (twin_request_of (instance 1 (row_of login_flow)))
      = Reply (str "## Technical Context"))
  /\ let (resp, st') := sync_ai_twin rt svc request 1 st in
     resp = render (str "core/partials/ai_column.html")
              [(str "doc", CtxDocument (instance 1 (row_of login_flow)));
               (str "ai_content", CtxContent (Some (str "## Technical Context")))]
     /\ documents st' = documents st
     /\ fst (get_document svc request' 1 st')
        = render (str "core/partials/doc_load_sync.html")
            [(str "doc", CtxDocument (instance 1 (row_of login_flow)));
             (str "ai_content",
              CtxContent (Some (str "## Technical Context")))].
Proof.
  intros rt svc request request' st.
  assert (H1 : method request = POST_method) by reflexivity.
  assert (H2 : documents st !! 1%Z = Some (row_of login_flow)) by reflexivity.
  assert (H3 : rt_client rt = Some a_client) by reflexivity.
  assert (H4 : svc (sent (ai_world st))
                 (twin_request_of (instance 1 (row_of login_flow)))
               = Reply (str "## Technical Context")) by reflexivity.
  split; [auto|].
  exact (sync_then_load rt svc svc request request' 1 st (row_of login_flow)
           a_client (str "## Technical Context") H1 H2 H3 H4).
Defined.

(** X14.  When the sync view cannot get a text from the model, because
    the call failed or no client is configured, it shows the error or the
    warning block and leaves every stored twin as it was: loading any
    document afterwards shows what it showed before. *)
Theorem sync_failure_keeps_twins (rt : Runtime) (svc svc' : service)
    (request request' : HttpRequest) (doc_id other : Z) (st : site)
    (row : DocumentRow) :
  method request = POST_method ->
  documents st !! doc_id = Some row ->
  rt_client rt = None
  \/ (exists detail,
        svc (sent (ai_world st)) (twin_request_of (instance doc_id row))
        = Failure detail) ->
  let (resp, st') := sync_ai_twin rt svc request doc_id st in
  (exists block,
     resp = render (str "core/partials/ai_column.html")
              [(str "doc", CtxDocument (instance doc_id row));
               (str "ai_content", CtxContent (Some block))]
     /\ (rt_client rt = None -> block = api_key_not_configured_md)
     /\ (forall detail,
           rt_client rt <> None ->
           svc (sent (ai_world st)) (twin_request_of (instance doc_id row))
           = Failure detail ->
           block = error_msg detail))
  /\ documents st' = documents st
  /\ twins (ai_world st') = twins (ai_world st)
  /\ fst (get_document svc' request' other st')
     = fst (get_document svc' request' other st).
Proof.
  intros Hm Hrow Hcase. unfold sync_ai_twin, get_document, get_object_or_404.
  rewrite (bool_decide_eq_true_2 _ Hm), Hrow. cbn [negb].
  destruct (rt_client rt) as [c|] eqn:Ec.
  - destruct Hcase as [?|[detail Hd]]; [discriminate|].
    rewrite run_generate_twin_content. cbv zeta.
    cbn [request_world sent twins fields_cache]. rewrite Hd.
    cbn [with_world documents ai_world twins].
    split; [|split; [reflexivity|split; [reflexivity|]]].
    + eexists. split; [reflexivity|]. split; [discriminate|].
      intros detail' _ [= ->]. reflexivity.
    + destruct (documents st !! other); [|reflexivity].
      now rewrite !run_get_twin_content_loaded.
  - cbn [generate_twin_content run with_world documents ai_world
         request_world twins sent fields_cache].
    split; [|split; [reflexivity|split; [reflexivity|]]].
    + eexists. split; [reflexivity|]. split; [reflexivity|]. congruence.
    + destruct (documents st !! other); [|reflexivity].
      now rewrite !run_get_twin_content_loaded.
Qed.

Lemma sync_failure_keeps_twins_witness :
  let rt := example_runtime (fun _ => JSONDecodeError []) in
  let svc : service := fun _ _ => Failure (str "Connection error.") in
  let request := {| method := str "POST"; POST := []; body := [] |} in
  let st := {| documents := {[ 1%Z := row_of login_flow ]};
               ai_world := {| twins := {[ 1%Z := str "## Old twin" ]};
                              sent := []; fields_cache := ∅ |} |} in
  (method request = POST_method
   /\ documents st !! 1%Z = Some (row_of login_flow))
  /\ twins (ai_world (snd (sync_ai_twin rt svc request 1 st)))
     = twins (ai_world st).
Proof.
  intros rt svc request st.
  assert (H1 : method request = POST_method) by reflexivity.
  assert (H2 : documents st !! 1%Z = Some (row_of login_flow)) by reflexivity.
  split; [auto|].
  pose proof (sync_failure_keeps_twins rt svc svc request request 1 1 st
                (row_of login_flow) H1 H2
                (or_intror (ex_intro _ (str "Connection error.") eq_refl)))
    as H.
  destruct (sync_ai_twin rt svc request 1 st) as [resp st'].
  exact (proj1 (proj2 (proj2 H))).
Defined.

(** X15.  For an [id] that no document has, loading, updating, deleting
    and syncing answer 404 and change nothing; syncing by another method
    than POST answers 405 and changes nothing.  In none of these cases is
    a request sent to the model. *)
Theorem unknown_document_404 (rt : Runtime) (svc : service)
    (request : HttpRequest) (doc_id : Z) (st : site) :
  (documents st !! doc_id = None ->
   get_document svc request doc_id st = (Http404, st)
   /\ update_document request doc_id st = (Http404, st)
   /\ delete_document request doc_id st = (Http404, st)
   /\ (method request = POST_method ->
       sync_ai_twin rt svc request doc_id st = (Http404, st)))
  /\ (method request <> POST_method ->
      sync_ai_twin rt svc request doc_id st
      = (HttpResponseNotAllowed [POST_method], st)).
Proof.
  unfold get_document, update_document, delete_document, sync_ai_twin,
    get_object_or_404.
  split.
  - intros ->. repeat split. intros H.
    now rewrite (bool_decide_eq_true_2 _ H).
  - intros H. now rewrite (bool_decide_eq_false_2 _ H).
Qed.

(* ===================================================================== *)
(** ** Reordering *)
(* ===================================================================== *)

(** The loop on items whose lookups do not raise: it ends without an
    error, and a row ends with the position of the last item naming it. *)
Lemma reorder_loop_resolved (rt : Runtime) (items : list json) :
  Forall (resolves rt) items ->
  forall (index : Z) (t : gmap Z DocumentRow),
    snd (reorder_loop rt index items t) = None
    /\ forall k,
         fst (reorder_loop rt index items t) !! k
         = (fun r => match last_match rt k index items with
                     | Some i => with_order i r
                     | None => r
                     end) <$> t !! k.
Proof.
  induction 1 as [|v rest Hv _ IH]; intros index t.
  - split; [reflexivity|]. intros k. cbn. now destruct (t !! k).
  - cbn [reorder_loop last_match].
    destruct (id_lookup rt v) as [j| |msg] eqn:E.
    + destruct (IH (index + 1)%Z (update_order j index t)) as [Hn Hl].
      split; [exact Hn|]. intros k. rewrite Hl. unfold update_order.
      rewrite lookup_alter. destruct (decide (j = k)) as [->|Hjk].
      * rewrite bool_decide_eq_true_2 by reflexivity.
        destruct (t !! k) as [r|]; [|reflexivity]. cbn.
        now destruct (last_match rt k (index + 1) rest).
      * rewrite bool_decide_eq_false_2 by exact Hjk.
        destruct (t !! k) as [r|]; [|reflexivity]. cbn.
        now destruct (last_match rt k (index + 1) rest).
    + destruct (IH (index + 1)%Z t) as [Hn Hl].
      split; [exact Hn|]. intros k. rewrite Hl.
      destruct (t !! k) as [r|]; [|reflexivity]. cbn.
      now destruct (last_match rt k (index + 1) rest).
    + now destruct (Hv msg).
Qed.

(** Items before the first lookup that raises are applied. *)
Lemma reorder_loop_raises (rt : Runtime) (before : list json) (bad : json)
    (after : list json) (msg : text) :
  Forall (resolves rt) before ->
  id_lookup rt bad = LookupError msg ->
  forall (index : Z) (t : gmap Z DocumentRow),
    reorder_loop rt index (before ++ bad :: after) t
    = (fst (reorder_loop rt index before t), Some msg).
Proof.
  intros Hb Hbad. induction Hb as [|v rest Hv _ IH]; intros index t.
  - cbn [app reorder_loop fst]. now rewrite Hbad.
  - cbn [app reorder_loop].
    destruct (id_lookup rt v) as [j| |m] eqn:E; [apply IH|apply IH|].
    now destruct (Hv m).
Qed.

(** X16.  A reorder whose [order] items all pass the lookup succeeds: each
    document named in the list gets as [order] the position of the last
    item naming it, items naming no document are skipped, and nothing
    else changes, neither the other documents, nor any title, content or
    parent, nor the twins.  [parent_id] has no part in it. *)
Theorem reorder_assigns_positions (rt : Runtime) (request : HttpRequest)
    (st : site) (d : list (text * json)) (items : list json) :
  method request = POST_method ->
  json_loads rt (body request) = Loaded (JObj d) ->
  py_iter rt (dict_get d (str "order") (JArr [])) = inl items ->
  Forall (resolves rt) items ->
  let (resp, st') := reorder_documents rt request st in
  resp = JsonResponse (JObj [(str "status", JStr (str "success"))]) 200
  /\ ai_world st' = ai_world st
  /\ forall k, documents st' !! k = reordered rt k items <$> documents st !! k.
Proof.
  intros Hm Hl Hi Hres. unfold reorder_documents.
  rewrite (bool_decide_eq_true_2 _ Hm), Hl, Hi. cbn [negb].
  destruct (reorder_loop_resolved rt items Hres 0 (documents st)) as [Hn Hk].
  destruct (reorder_loop rt 0 items (documents st)) as [t e].
  cbn [fst snd] in Hn, Hk. subst e.
  split; [reflexivity|]. split; [reflexivity|]. exact Hk.
Qed.

Lemma reorder_assigns_positions_witness :
  let items := [JInt 4; JInt 9; JInt 1; JInt 4; JNull] in
  let d := [(str "order", JArr items); (str "parent_id", JInt 77)] in
  let rt := example_runtime (fun _ => Loaded (JObj d)) in
  let request := {| method := str "POST"; POST := []; body := [] |} in
  let row o := {| row_title := str "t"; row_content := [];
                  row_parent := None; row_order := o |} in
  let st := {| documents := {[ 1%Z := row 0%Z; 4%Z := row 1%Z; 5%Z := row 7%Z ]};
               ai_world := world0 |} in
  (method request = POST_method
   /\ json_loads rt (body request) = Loaded (JObj d)
   /\ py_iter rt (dict_get d (str "order") (JArr [])) = inl items
   /\ Forall (resolves rt) items)
  /\ let (resp, st') := reorder_documents rt request st in
     resp = JsonResponse (JObj [(str "status", JStr (str "success"))]) 200
     /\ ai_world st' = ai_world st
     /\ forall k,
          documents st' !! k = reordered rt k items <$> documents st !! k.
Proof.
  intros items d rt request row st.
  assert (H1 : method request = POST_method) by reflexivity.
  assert (H2 : json_loads rt (body request) = Loaded (JObj d)) by reflexivity.
  assert (H3 : py_iter rt (dict_get d (str "order") (JArr [])) = inl items)
    by reflexivity.
  assert (H4 : Forall (resolves rt) items)
    by (repeat constructor; intros msg; discriminate).
  split; [auto|].
  exact (reorder_assigns_positions rt request st d items H1 H2 H3 H4).
Defined.

(** X17.  A reorder is not all-or-nothing: when the lookup of an item
    raises, the answer is 400 with [str(e)], and the positions given by
    the items before it stay written. *)
Theorem reorder_keeps_partial_work (rt : Runtime) (request : HttpRequest)
    (st : site) (d : list (text * json)) (before : list json) (bad : json)
    (after : list json) (msg : text) :
  method request = POST_method ->
  json_loads rt (body request) = Loaded (JObj d) ->
  py_iter rt (dict_get d (str "order") (JArr []))
    = inl (before ++ bad :: after) ->
  Forall (resolves rt) before ->
  id_lookup rt bad = LookupError msg ->
  let (resp, st') := reorder_documents rt request st in
  resp = JsonResponse
           (JObj [(str "status", JStr (str "error"));
                  (str "message", JStr msg)]) 400
  /\ ai_world st' = ai_world st
  /\ forall k, documents st' !! k = reordered rt k before <$> documents st !! k.
Proof.
  intros Hm Hl Hi Hres Hbad. unfold reorder_documents.
  rewrite (bool_decide_eq_true_2 _ Hm), Hl, Hi. cbn [negb].
  rewrite (reorder_loop_raises rt before bad after msg Hres Hbad).
  split; [reflexivity|]. split; [reflexivity|].
  apply (reorder_loop_resolved rt before Hres 0 (documents st)).
Qed.

Lemma reorder_keeps_partial_work_witness :
  let before := [JInt 4; JInt 1] in
  let bad := JStr (str "x") in
  let after := [JInt 5] in
  let d := [(str "order", JArr (before ++ bad :: after))] in
  let rt := example_runtime (fun _ => Loaded (JObj d)) in
  let request := {| method := str "POST"; POST := []; body := [] |} in
  let row o := {| row_title := str "t"; row_content := [];
                  row_parent := None; row_order := o |} in
  let st := {| documents := {[ 1%Z := row 0%Z; 4%Z := row 1%Z; 5%Z := row 7%Z ]};
               ai_world := world0 |} in
  (method request = POST_method
   /\ json_loads rt (body request) = Loaded (JObj d)
   /\ py_iter rt (dict_get d (str "order") (JArr []))
      = inl (before ++ bad :: after)
   /\ Forall (resolves rt) before
   /\ id_lookup rt bad = LookupError (str "Field 'id' expected a number"))
  /\ let (resp, st') := reorder_documents rt request st in
     resp = JsonResponse
              (JObj [(str "status", JStr (str "error"));
                     (str "message", JStr (str "Field 'id' expected a number"))])
              400
     /\ ai_world st' = ai_world st
     /\ forall k,
          documents st' !! k = reordered rt k before <$> documents st !! k.
Proof.
  intros before bad after d rt request row st.
  assert (H1 : method request = POST_method) by reflexivity.
  assert (H2 : json_loads rt (body request) = Loaded (JObj d)) by reflexivity.
  assert (H3 : py_iter rt (dict_get d (str "order") (JArr []))
               = inl (before ++ bad :: after)) by reflexivity.
  assert (H4 : Forall (resolves rt) before)
    by (repeat constructor; intros msg; discriminate).
  assert (H5 : id_lookup rt bad = LookupError (str "Field 'id' expected a number"))
    by reflexivity.
  split; [auto|].
  exact (reorder_keeps_partial_work rt request st d before bad after _
           H1 H2 H3 H4 H5).
Defined.

(* ===================================================================== *)
(** ** Creating and updating *)
(* ===================================================================== *)

(** The row [create_document] inserts. *)
Lemma create_document_cases (rt : Runtime) (request : HttpRequest) (st : site) :
  create_document rt request st = (Http404, st)
  \/ create_document rt request st = (HttpResponseServerError, st)
  \/ exists parent,
       create_document rt request st
       = (render (str "core/partials/document_list.html") [documents_context],
          with_documents st
            (<[new_pk rt (documents st) :=
                 {| row_title := str "Untitled Document"; row_content := [];
                    row_parent := parent; row_order := 0 |}]> (documents st)))
       /\ forall p, parent = Some p -> is_Some (documents st !! p).
Proof.
  unfold create_document, get_object_or_404.
  destruct (querydict_get (POST request) (str "parent_id")) as [[|c s]|].
  - right. right. exists None. split; [reflexivity|discriminate].
  - destruct (id_lookup rt (JStr (c :: s))) as [k| |msg]; [|now left|auto].
    destruct (documents st !! k) as [r|] eqn:E; [|now left].
    right. right. exists (Some k). split; [reflexivity|].
    intros p [= <-]. now rewrite E.
  - right. right. exists None. split; [reflexivity|discriminate].
Qed.

(** X18.  [create_document] works for every request method.  When the key
    the database gives the new row is unused, every document there is
    stays as it is; the new document is untitled and empty, has [order]
    0, and hangs under the document [parent_id] names, or at the top when
    [parent_id] is absent or empty.  A [parent_id] naming no document
    gives 404 and creates nothing.  The twins are not touched. *)
Theorem create_document_adds (rt : Runtime) (request : HttpRequest) (st : site) :
  documents st !! new_pk rt (documents st) = None ->
  let parent_id := querydict_get (POST request) (str "parent_id") in
  let row parent :=
    {| row_title := str "Untitled Document"; row_content := [];
       row_parent := parent; row_order := 0 |} in
  let (resp, st') := create_document rt request st in
  ai_world st' = ai_world st
  /\ (forall k r, documents st !! k = Some r -> documents st' !! k = Some r)
  /\ (parent_id = None \/ parent_id = Some [] ->
      documents st' = <[new_pk rt (documents st) := row None]> (documents st))
  /\ (forall pid k,
        parent_id = Some pid -> pid <> [] ->
        id_lookup rt (JStr pid) = Matches k ->
        is_Some (documents st !! k) ->
        documents st'
        = <[new_pk rt (documents st) := row (Some k)]> (documents st))
  /\ (forall pid,
        parent_id = Some pid -> pid <> [] ->
        id_lookup rt (JStr pid) = MatchesNothing
        \/ (exists k, id_lookup rt (JStr pid) = Matches k
                      /\ documents st !! k = None) ->
        resp = Http404 /\ st' = st).
Proof.
  intros Hfresh. cbv zeta.
  assert (Hkeep : forall parent k r,
             documents st !! k = Some r ->
             <[new_pk rt (documents st) :=
                 {| row_title := str "Untitled Document"; row_content := [];
                    row_parent := parent; row_order := 0 |}]> (documents st)
               !! k = Some r).
  { intros parent k r Hk. rewrite lookup_insert_ne; [exact Hk|].
    intros E. rewrite E in Hfresh. congruence. }
  unfold create_document, get_object_or_404.
  destruct (querydict_get (POST request) (str "parent_id")) as [[|c s]|].
  - cbn [with_documents ai_world documents].
    split; [reflexivity|]. split; [now apply Hkeep|].
    split; [reflexivity|]. split.
    + intros pid k [= <-] H. congruence.
    + intros pid [= <-] H. congruence.
  - destruct (id_lookup rt (JStr (c :: s))) as [k| |msg] eqn:E.
    + destruct (documents st !! k) as [r|] eqn:Ek;
        cbn [with_documents ai_world documents pk instance].
      * split; [reflexivity|]. split; [now apply Hkeep|].
        split; [intros [H|H]; discriminate|]. split.
        -- intros pid k' [= <-] _ H _. rewrite E in H. now injection H as ->.
        -- intros pid [= <-] _ [H|(k' & H & Hk)]; rewrite E in H;
             [discriminate|]. injection H as <-. congruence.
      * split; [reflexivity|]. split; [now intros|].
        split; [intros [H|H]; discriminate|]. split.
        -- intros pid k' [= <-] _ H [x Hx]. rewrite E in H.
           injection H as <-. congruence.
        -- intros. now split.
    + cbn [ai_world documents].
      split; [reflexivity|]. split; [now intros|].
      split; [intros [H|H]; discriminate|]. split.
      * intros pid k' [= <-] _ H _. rewrite E in H. discriminate.
      * intros. now split.
    + cbn [ai_world documents].
      split; [reflexivity|]. split; [now intros|].
      split; [intros [H|H]; discriminate|]. split.
      * intros pid k' [= <-] _ H _. rewrite E in H. discriminate.
      * intros pid [= <-] _ [H|(k' & H & _)]; rewrite E in H; discriminate.
  - cbn [with_documents ai_world documents].
    split; [reflexivity|]. split; [now apply Hkeep|].
    split; [reflexivity|]. split.
    + intros pid k H. discriminate.
    + intros pid H. discriminate.
Qed.

Lemma create_document_adds_witness :
  let rt := example_runtime (fun _ => JSONDecodeError []) in
  let request := {| method := str "GET"; POST := []; body := [] |} in
  let st := {| documents := {[ 1%Z := row_of login_flow ]};
               ai_world := world0 |} in
  documents st !! new_pk rt (documents st) = None
  /\ documents (snd (create_document rt request st))
     = <[2%Z := {| row_title := str "Untitled Document"; row_content := [];
                  row_parent := None; row_order := 0 |}]> (documents st).
Proof.
  intros rt request st.
  assert (H : documents st !! new_pk rt (documents st) = None) by reflexivity.
  split; [exact H|].
  pose proof (create_document_adds rt request st H) as T. cbv zeta in T.
  destruct (create_document rt request st) as [resp st'].
  destruct T as (_ & _ & T & _). cbn [snd]. rewrite T; [reflexivity|].
  left. reflexivity.
Defined.

(** X19.  [update_document] writes the [title] and [content] a POST
    carries onto the document, keeping the field the POST leaves out; by
    another method it writes nothing.  It never changes [order] or
    [parent], another document, or a twin: the stored twin stays as it
    was generated, whatever the document becomes. *)
Theorem update_document_scope (request : HttpRequest) (doc_id : Z)
    (st : site) (row : DocumentRow) :
  documents st !! doc_id = Some row ->
  let posted (key : text) (old : text) :=
    match querydict_get (POST request) key with
    | Some t => t
    | None => old
    end in
  let (resp, st') := update_document request doc_id st in
  ai_world st' = ai_world st
  /\ (forall k, k <> doc_id -> documents st' !! k = documents st !! k)
  /\ (method request <> POST_method -> documents st' !! doc_id = Some row)
  /\ (method request = POST_method ->
      documents st' !! doc_id
      = Some {| row_title := posted (str "title") (row_title row);
                row_content := posted (str "content") (row_content row);
                row_parent := row_parent row;
                row_order := row_order row |}).
Proof.
  intros Hrow. cbv zeta. unfold update_document, get_object_or_404.
  rewrite Hrow.
  destruct (bool_decide (method request = POST_method)) eqn:E.
  - apply bool_decide_eq_true in E.
    cbn [with_documents ai_world documents pk instance title content parent
         order row_of].
    split; [reflexivity|]. split; [|split].
    + intros k Hk. now rewrite lookup_insert_ne.
    + intros H. contradiction.
    + intros _. now rewrite lookup_insert_eq.
  - apply bool_decide_eq_false in E.
    split; [reflexivity|]. split; [reflexivity|]. split; [now intros _|].
    intros H. contradiction.
Qed.

Lemma update_document_scope_witness :
  let request := {| method := str "POST";
                    POST := [(str "title", str "Sign-in flow")];
                    body := [] |} in
  let st := {| documents := {[ 1%Z := row_of login_flow ]};
               ai_world := {| twins := {[ 1%Z := str "## Old twin" ]};
                              sent := []; fields_cache := ∅ |} |} in
  documents st !! 1%Z = Some (row_of login_flow)
  /\ ai_world (snd (update_document request 1 st)) = ai_world st.
Proof.
  intros request st.
  assert (H : documents st !! 1%Z = Some (row_of login_flow)) by reflexivity.
  split; [exact H|].
  pose proof (update_document_scope request 1 st (row_of login_flow) H) as T.
  cbv zeta in T. destruct (update_document request 1 st) as [resp st'].
  exact (proj1 T).
Defined.

(* ===================================================================== *)
(** ** Referential integrity *)
(* ===================================================================== *)











(* ===================================================================== *)
(** ** Routing *)
(* ===================================================================== *)

Lemma more_digits_Some {R : Type} (s taken : text)
    (k : text -> text -> option R) (r : R) :
  more_digits s taken k = Some r ->
  exists d rest,
    s = d ++ rest /\ forallb is_digit d = true /\ k (taken ++ d) rest = Some r.
Proof.
  revert taken. induction s as [|c s IH]; intros taken; cbn [more_digits].
  - intros H. exists [], []. rewrite (app_nil_r taken). now repeat split.
  - destruct (is_digit c) eqn:Ec.
    + destruct (more_digits s (taken ++ [c]) k) as [r'|] eqn:E.
      * intros [= ->]. destruct (IH _ E) as (d & rest & -> & Hd & Hk).
        exists (c :: d), rest. cbn [forallb]. rewrite Ec, Hd.
        rewrite <- app_assoc in Hk. now repeat split.
      * intros H. exists [], (c :: s). rewrite (app_nil_r taken).
        now repeat split.
    + intros H. exists [], (c :: s). rewrite (app_nil_r taken).
      now repeat split.
Qed.

Lemma int_converter_Some {R : Type} (s : text)
    (k : text -> text -> option R) (r : R) :
  int_converter s k = Some r ->
  exists d rest, s = d ++ rest /\ all_digits d /\ k d rest = Some r.
Proof.
  unfold int_converter. destruct s as [|c s]; [discriminate|].
  destruct (is_digit c) eqn:Ec; [|discriminate].
  intros H. apply more_digits_Some in H as (d & rest & -> & Hd & Hk).
  exists (c :: d), rest. split; [reflexivity|]. split; [|exact Hk].
  split; [discriminate|]. cbn [forallb]. now rewrite Ec, Hd.
Qed.

(** The converter takes all the digits when the rest matches after them. *)
Lemma more_digits_all {R : Type} (d rest taken : text)
    (k : text -> text -> option R) (r : R) :
  forallb is_digit d = true ->
  no_digit_head rest ->
  k (taken ++ d) rest = Some r ->
  more_digits (d ++ rest) taken k = Some r.
Proof.
  revert taken. induction d as [|c d IH]; intros taken Hd Hrest Hk.
  - rewrite app_nil_r in Hk. cbn [app].
    destruct rest as [|c rest]; cbn [more_digits]; [exact Hk|].
    cbn [no_digit_head] in Hrest. now rewrite Hrest.
  - cbn [forallb] in Hd. apply andb_prop in Hd as [Hc Hd].
    cbn [app more_digits]. rewrite Hc.
    rewrite (IH (taken ++ [c])); [reflexivity|exact Hd|exact Hrest|].
    now rewrite <- app_assoc.
Qed.

Lemma int_converter_all {R : Type} (d rest : text)
    (k : text -> text -> option R) (r : R) :
  all_digits d ->
  no_digit_head rest ->
  k d rest = Some r ->
  int_converter (d ++ rest) k = Some r.
Proof.
  intros [Hne Hd] Hrest Hk. destruct d as [|c d]; [contradiction|].
  cbn [forallb] in Hd. apply andb_prop in Hd as [Hc Hd].
  cbn [app int_converter]. rewrite Hc. now apply more_digits_all.
Qed.

(** Where the digits end is fixed by the text. *)
Lemma digits_unique (d1 d2 rest1 rest2 : text) :
  forallb is_digit d1 = true -> forallb is_digit d2 = true ->
  no_digit_head rest1 -> no_digit_head rest2 ->
  d1 ++ rest1 = d2 ++ rest2 -> d1 = d2 /\ rest1 = rest2.
Proof.
  revert d2. induction d1 as [|c d1 IH]; intros [|c2 d2] H1 H2 R1 R2 E.
  - now split.
  - cbn [app] in E. subst rest1. cbn [no_digit_head] in R1.
    cbn [forallb] in H2. apply andb_prop in H2 as [H2 _]. congruence.
  - cbn [app] in E. subst rest2. cbn [no_digit_head] in R2.
    cbn [forallb] in H1. apply andb_prop in H1 as [H1 _]. congruence.
  - cbn [app] in E. injection E as -> E.
    cbn [forallb] in H1, H2.
    apply andb_prop in H1 as [_ H1]. apply andb_prop in H2 as [_ H2].
    destruct (IH d2 H1 H2 R1 R2 E) as [-> ->]. now split.
Qed.

Lemma int_of_digits_from (d : text) (n : Z) :
  forallb is_digit d = true -> (0 <= n)%Z ->
  (0 <= fold_left (fun n c => 10 * n + (Z.of_N c - 48)) d n)%Z.
Proof.
  revert n. induction d as [|c d IH]; intros n Hd Hn; cbn [fold_left].
  - exact Hn.
  - cbn [forallb] in Hd. apply andb_prop in Hd as [Hc Hd].
    apply IH; [exact Hd|]. unfold is_digit in Hc.
    apply andb_prop in Hc as [Hc _]. apply N.leb_le in Hc. lia.
Qed.

Lemma int_of_digits_nonneg (d : text) :
  forallb is_digit d = true -> (0 <= int_of_digits d)%Z.
Proof. intros Hd. now apply int_of_digits_from. Qed.

Lemma strip_prefix_self (l : text) : strip_prefix l l = Some [].
Proof.
  pose proof (strip_prefix_app l []) as H. now rewrite app_nil_r in H.
Qed.

(** The paths the four kinds of route take. *)
Lemma route_empty (s : text) (kwargs r : list (text * text)) :
  route_match [] true s kwargs = Some r -> s = [] /\ r = kwargs.
Proof. cbn [route_match]. destruct s; [|discriminate]. now intros [= ->]. Qed.

Lemma route_literal (l s : text) (kwargs r : list (text * text)) :
  route_match [Literal l] true s kwargs = Some r -> s = l /\ r = kwargs.
Proof.
  cbn [route_match]. destruct (strip_prefix l s) as [rest|] eqn:E;
    [|discriminate].
  apply strip_prefix_Some in E. destruct rest; [|discriminate].
  intros [= ->]. now rewrite app_nil_r in E.
Qed.

Lemma route_include (l s : text) (kwargs r : list (text * text)) :
  route_match [Literal l] false s kwargs = Some r ->
  (exists rest, s = l ++ rest) /\ r = kwargs.
Proof.
  cbn [route_match]. destruct (strip_prefix l s) as [rest|] eqn:E;
    [|discriminate].
  apply strip_prefix_Some in E. intros [= ->]. split; [now exists rest|easy].
Qed.

Lemma route_converter (l parameter suffix s : text)
    (kwargs r : list (text * text)) :
  route_match [Literal l; IntConverter parameter; Literal suffix] true s kwargs
  = Some r ->
  exists d,
    all_digits d /\ s = l ++ d ++ suffix /\ r = kwargs ++ [(parameter, d)].
Proof.
  cbn [route_match]. destruct (strip_prefix l s) as [s1|] eqn:E;
    [|discriminate].
  apply strip_prefix_Some in E. intros H.
  apply int_converter_Some in H as (d & rest & -> & Hd & H).
  destruct (strip_prefix suffix rest) as [s2|] eqn:E2; [|discriminate].
  apply strip_prefix_Some in E2. destruct s2; [|discriminate].
  injection H as <-. rewrite app_nil_r in E2. subst rest.
  exists d. split; [exact Hd|]. split; [exact E|reflexivity].
Qed.

Lemma route_converter_takes (l parameter suffix d : text)
    (kwargs : list (text * text)) :
  all_digits d -> no_digit_head suffix ->
  route_match [Literal l; IntConverter parameter; Literal suffix] true
    (l ++ d ++ suffix) kwargs
  = Some (kwargs ++ [(parameter, d)]).
Proof.
  intros Hd Hs. cbn [route_match]. rewrite strip_prefix_app.
  apply int_converter_all; [exact Hd|exact Hs|].
  cbn [route_match]. now rewrite strip_prefix_self.
Qed.

Lemma pattern_match_shape (rt : Runtime) (p : URLPattern) (s : text)
    (kwargs : list (text * Z)) :
  p ∈ urlpatterns -> pattern_match rt p s = Some kwargs ->
  path_shape rt p s kwargs.
Proof.
  intros Hp. unfold urlpatterns in Hp.
  repeat (apply elem_of_cons in Hp as [->|Hp]);
    [..|now apply elem_of_nil in Hp];
    unfold pattern_match, path_shape, path, path_include;
    cbn [route is_endpoint];
    match goal with
    | |- match ?m with _ => _ end = _ -> _ =>
        destruct m as [matched|] eqn:H; [|discriminate]
    end;
    intros Hc;
    first [ apply route_include in H as [[rest ->] ->]; injection Hc as <-;
            split; [now exists rest|reflexivity]
          | apply route_empty in H as [-> ->]; injection Hc as <-; now split
          | apply route_literal in H as [-> ->]; injection Hc as <-; now split
          | apply route_converter in H as (d & Hd & -> & ->);
            cbn [app convert] in Hc; unfold to_python in Hc;
            destruct (within_int_limit rt d) eqn:L; [|discriminate];
            injection Hc as <-; exists d;
            split; [exact Hd|split; [exact L|split; reflexivity]] ].
Qed.

Lemma pattern_match_converter (rt : Runtime) (l parameter suffix d : text)
    (endpoint_name : option text) (view : callback) :
  all_digits d -> no_digit_head suffix -> within_int_limit rt d = true ->
  pattern_match rt
    {| route := [Literal l; IntConverter parameter; Literal suffix];
       is_endpoint := true; target := view; pattern_name := endpoint_name |}
    (l ++ d ++ suffix)
  = Some [(parameter, int_of_digits d)].
Proof.
  intros Hd Hs L. unfold pattern_match. cbn [route is_endpoint].
  rewrite (route_converter_takes l parameter suffix d [] Hd Hs).
  cbn [app convert]. unfold to_python. now rewrite L.
Qed.

Lemma shape_pattern_match (rt : Runtime) (p : URLPattern) (s : text)
    (kwargs : list (text * Z)) :
  p ∈ urlpatterns -> path_shape rt p s kwargs ->
  pattern_match rt p s = Some kwargs.
Proof.
  intros Hp. unfold urlpatterns in Hp.
  repeat (apply elem_of_cons in Hp as [->|Hp]);
    [..|now apply elem_of_nil in Hp];
    unfold path_shape, path, path_include;
    cbn [route is_endpoint]; intros H;
    first [ destruct H as (d & Hd & L & -> & ->);
            now apply pattern_match_converter
          | destruct H as [[rest ->] ->]; unfold pattern_match;
            cbn [route is_endpoint route_match];
            now rewrite strip_prefix_app
          | destruct H as [-> ->]; unfold pattern_match;
            cbn [route is_endpoint route_match];
            now rewrite ?strip_prefix_self ].
Qed.

(** Two texts of digits followed by different suffixes are different. *)
Lemma converter_paths_differ (l d1 d2 suffix1 suffix2 : text) :
  all_digits d1 -> all_digits d2 ->
  no_digit_head suffix1 -> no_digit_head suffix2 ->
  l ++ d1 ++ suffix1 = l ++ d2 ++ suffix2 -> suffix1 = suffix2.
Proof.
  intros [_ H1] [_ H2] R1 R2 E. apply app_inv_head in E.
  now destruct (digits_unique d1 d2 suffix1 suffix2 H1 H2 R1 R2 E).
Qed.

(** No path is taken by two patterns. *)
Lemma patterns_disjoint (rt : Runtime) (p q : URLPattern) (s : text) :
  p ∈ urlpatterns -> q ∈ urlpatterns ->
  is_Some (pattern_match rt p s) -> is_Some (pattern_match rt q s) -> p = q.
Proof.
  intros Hp Hq [kp Ep] [kq Eq].
  apply pattern_match_shape in Ep; [|exact Hp].
  apply pattern_match_shape in Eq; [|exact Hq].
  unfold urlpatterns in Hp, Hq.
  repeat (apply elem_of_cons in Hp as [->|Hp]);
    [..|now apply elem_of_nil in Hp];
    (repeat (apply elem_of_cons in Hq as [->|Hq]);
       [..|now apply elem_of_nil in Hq]);
    try reflexivity; exfalso;
    unfold path_shape, path, path_include in Ep, Eq;
    cbn [route is_endpoint] in Ep, Eq;
    repeat match goal with
      | H : _ /\ _ |- _ => destruct H as [H _]
      | H : exists rest, _ = _ |- _ => destruct H as [? H]
      | H : exists d, all_digits d /\ _ |- _ =>
          destruct H as (? & ? & _ & H & _)
      end;
    rewrite Ep in Eq;
    first [ solve [vm_compute in Eq; discriminate Eq]
          | apply converter_paths_differ in Eq;
            [vm_compute in Eq; discriminate Eq
            |assumption|assumption|reflexivity|reflexivity] ].
Qed.

Lemma resolve_in_elem (rt : Runtime) (patterns : list URLPattern) (s : text)
    (view : callback) (kwargs : list (text * Z)) :
  resolve_in rt patterns s = Some (view, kwargs) ->
  exists p, p ∈ patterns /\ target p = view
            /\ pattern_match rt p s = Some kwargs.
Proof.
  induction patterns as [|q rest IH]; cbn [resolve_in]; [discriminate|].
  destruct (pattern_match rt q s) as [kq|] eqn:E.
  - intros [= <- <-]. exists q. split; [now apply elem_of_cons; left|now split].
  - intros H. destruct (IH H) as (p & Hp & Ht & Hm). exists p.
    split; [now apply elem_of_cons; right|now split].
Qed.

Lemma resolve_in_None (rt : Runtime) (patterns : list URLPattern) (s : text) :
  resolve_in rt patterns s = None ->
  forall p, p ∈ patterns -> pattern_match rt p s = None.
Proof.
  induction patterns as [|q rest IH]; cbn [resolve_in]; intros H p Hp.
  - now apply elem_of_nil in Hp.
  - destruct (pattern_match rt q s) as [kq|] eqn:E; [discriminate|].
    apply elem_of_cons in Hp as [->|Hp]; [exact E|now apply IH].
Qed.

Lemma resolve_in_fails (rt : Runtime) (patterns : list URLPattern) (s : text) :
  (forall p, p ∈ patterns -> pattern_match rt p s = None) ->
  resolve_in rt patterns s = None.
Proof.
  induction patterns as [|q rest IH]; cbn [resolve_in]; intros H;
    [reflexivity|].
  rewrite (H q) by (now apply elem_of_cons; left).
  apply IH. intros p Hp. apply H. apply elem_of_cons. now right.
Qed.

(** The only pattern of a list that takes the path is the one resolved. *)
Lemma resolve_in_only (rt : Runtime) (patterns : list URLPattern) (s : text)
    (p : URLPattern) (kwargs : list (text * Z)) :
  p ∈ patterns -> pattern_match rt p s = Some kwargs ->
  (forall q, q ∈ patterns -> is_Some (pattern_match rt q s) -> q = p) ->
  resolve_in rt patterns s = Some (target p, kwargs).
Proof.
  induction patterns as [|q rest IH]; intros Hp Hm Honly.
  - now apply elem_of_nil in Hp.
  - cbn [resolve_in]. destruct (pattern_match rt q s) as [kq|] eqn:E.
    + assert (q = p) as ->
        by (apply Honly; [now apply elem_of_cons; left|now rewrite E]).
      congruence.
    + apply elem_of_cons in Hp as [->|Hp]; [congruence|].
      apply IH; [exact Hp|exact Hm|].
      intros q' Hq'. apply Honly. apply elem_of_cons. now right.
Qed.

(** A path of the shape of a pattern resolves to its view. *)
Lemma resolve_shape (rt : Runtime) (p : URLPattern) (s : text)
    (kwargs : list (text * Z)) :
  p ∈ urlpatterns -> path_shape rt p s kwargs ->
  resolve_in rt urlpatterns s = Some (target p, kwargs).
Proof.
  intros Hp Hs. pose proof (shape_pattern_match rt p s kwargs Hp Hs) as Hm.
  apply resolve_in_only; [exact Hp|exact Hm|].
  intros q Hq Hsome. apply (patterns_disjoint rt q p s Hq Hp Hsome).
  now rewrite Hm.
Qed.

(** Membership in a list written out. *)
Ltac in_list :=
  unfold urlpatterns;
  repeat first [ apply elem_of_cons; left; reflexivity
               | apply elem_of_cons; right ].

(** A path with more digits than [int] converts is taken by no pattern. *)
Lemma resolve_over_limit (rt : Runtime) (d suffix : text) (view : callback) :
  (view, suffix) ∈ document_routes ->
  all_digits d -> within_int_limit rt d = false ->
  resolve_in rt urlpatterns (str "doc/" ++ d ++ suffix) = None.
Proof.
  intros Hview Hd Hover.
  destruct (resolve_in rt urlpatterns (str "doc/" ++ d ++ suffix))
    as [[v kwargs]|] eqn:E; [exfalso|reflexivity].
  apply resolve_in_elem in E as (p & Hp & _ & Hm).
  apply pattern_match_shape in Hm; [|exact Hp].
  unfold document_routes in Hview. unfold urlpatterns in Hp.
  repeat (apply elem_of_cons in Hview as [Hview|Hview]);
    [..|now apply elem_of_nil in Hview];
    injection Hview as -> ->;
    (repeat (apply elem_of_cons in Hp as [->|Hp]);
       [..|now apply elem_of_nil in Hp]);
    unfold path_shape, path, path_include in Hm;
    cbn [route is_endpoint] in Hm;
    first [ destruct Hm as (d' & Hd' & L & Hm & _);
            apply app_inv_head in Hm;
            apply digits_unique in Hm as [-> _];
            [congruence|apply Hd|apply Hd'|reflexivity|reflexivity]
          | destruct Hm as [[rest Hm] _]; vm_compute in Hm; discriminate Hm
          | destruct Hm as [Hm _]; vm_compute in Hm; discriminate Hm ].
Qed.

(** X21.  No path is taken by two patterns of [urlpatterns], so the order
    of the list decides nothing: the patterns in any other order resolve
    every path to the same view with the same arguments, or to none. *)
Theorem urlpatterns_order_free (rt : Runtime) (patterns : list URLPattern)
    (s : text) :
  patterns ≡ₚ urlpatterns ->
  resolve_in rt patterns s = resolve_in rt urlpatterns s.
Proof.
  intros Hperm.
  destruct (resolve_in rt urlpatterns s) as [[view kwargs]|] eqn:E.
  - apply resolve_in_elem in E as (p & Hp & <- & Hm).
    apply resolve_in_only; [now rewrite Hperm|exact Hm|].
    intros q Hq Hsome. rewrite Hperm in Hq.
    apply (patterns_disjoint rt q p s Hq Hp Hsome). now rewrite Hm.
  - apply resolve_in_fails. intros p Hp. rewrite Hperm in Hp.
    now apply (resolve_in_None rt urlpatterns s E).
Qed.

Lemma urlpatterns_order_free_witness :
  let rt := example_runtime (fun _ => JSONDecodeError []) in
  reverse urlpatterns ≡ₚ urlpatterns
  /\ resolve_in rt (reverse urlpatterns) (str "doc/12/sync/")
     = Some (View_sync_ai_twin, [(str "doc_id", 12%Z)]).
Proof.
  intros rt.
  assert (H : reverse urlpatterns ≡ₚ urlpatterns) by apply reverse_Permutation.
  split; [exact H|].
  rewrite (urlpatterns_order_free rt (reverse urlpatterns)
             (str "doc/12/sync/") H).
  reflexivity.
Defined.

(** X22.  The views of one document are reached by the paths
    [/doc/<digits>/], [/doc/<digits>/update/], [/doc/<digits>/delete/] and
    [/doc/<digits>/sync/] and by no other path, where the digits are one
    or more and no more than [int] converts (4300 unless the interpreter
    is set otherwise); [doc_id] is the value of the digits, zeros in front
    dropped, and no view is handed a negative [doc_id].  With more digits
    than that the path resolves to no view at all. *)
Theorem document_paths (rt : Runtime) (path_info suffix : text)
    (view : callback) (kwargs : list (text * Z)) :
  (view, suffix) ∈ document_routes ->
  (resolve rt path_info = Some (view, kwargs)
   <-> exists d,
         all_digits d
         /\ within_int_limit rt d = true
         /\ path_info = str "/doc/" ++ d ++ suffix
         /\ kwargs = [(str "doc_id", int_of_digits d)]
         /\ (0 <= int_of_digits d)%Z)
  /\ forall d,
       all_digits d -> within_int_limit rt d = false ->
       resolve rt (str "/doc/" ++ d ++ suffix) = None.
Proof.
  intros Hview. split; [split|].
  - unfold resolve. destruct path_info as [|c s]; [discriminate|].
    destruct (c =? 47)%N eqn:Ec; [|discriminate]. apply N.eqb_eq in Ec.
    subst c. intros H. apply resolve_in_elem in H as (p & Hp & Ht & Hm).
    apply pattern_match_shape in Hm; [|exact Hp].
    unfold document_routes in Hview. unfold urlpatterns in Hp.
    repeat (apply elem_of_cons in Hview as [Hview|Hview]);
      [..|now apply elem_of_nil in Hview];
      injection Hview as -> ->;
      (repeat (apply elem_of_cons in Hp as [->|Hp]);
         [..|now apply elem_of_nil in Hp]);
      try discriminate Ht;
      unfold path_shape, path in Hm; cbn [route is_endpoint] in Hm;
      destruct Hm as (d & Hd & L & -> & ->); exists d;
      (split; [exact Hd|]); (split; [exact L|]); (split; [reflexivity|]);
      (split; [reflexivity|]); apply int_of_digits_nonneg; apply Hd.
  - intros (d & Hd & L & -> & -> & _).
    change (str "/doc/" ++ d ++ suffix)
      with (47%N :: (str "doc/" ++ d ++ suffix)).
    unfold resolve. rewrite N.eqb_refl.
    unfold document_routes in Hview.
    repeat (apply elem_of_cons in Hview as [Hview|Hview]);
      [..|now apply elem_of_nil in Hview];
      injection Hview as -> ->.
    + apply (resolve_shape rt
               (path [Literal (str "doc/"); IntConverter (str "doc_id");
                      Literal (str "/")]
                  View_get_document (str "get_document")));
        [in_list|now exists d].
    + apply (resolve_shape rt
               (path [Literal (str "doc/"); IntConverter (str "doc_id");
                      Literal (str "/update/")]
                  View_update_document (str "update_document")));
        [in_list|now exists d].
    + apply (resolve_shape rt
               (path [Literal (str "doc/"); IntConverter (str "doc_id");
                      Literal (str "/delete/")]
                  View_delete_document (str "delete_document")));
        [in_list|now exists d].
    + apply (resolve_shape rt
               (path [Literal (str "doc/"); IntConverter (str "doc_id");
                      Literal (str "/sync/")]
                  View_sync_ai_twin (str "sync_ai_twin")));
        [in_list|now exists d].
  - intros d Hd Hover.
    change (str "/doc/" ++ d ++ suffix)
      with (47%N :: (str "doc/" ++ d ++ suffix)).
    unfold resolve. rewrite N.eqb_refl.
    now apply (resolve_over_limit rt d suffix view).
Qed.

Lemma document_paths_witness :
  let rt := example_runtime (fun _ => JSONDecodeError []) in
  (View_delete_document, str "/delete/") ∈ document_routes
  /\ resolve rt (str "/doc/007/delete/")
     = Some (View_delete_document, [(str "doc_id", 7%Z)]).
Proof.
  intros rt.
  assert (H : (View_delete_document, str "/delete/") ∈ document_routes)
    by (unfold document_routes; in_list).
  split; [exact H|].
  apply (proj1 (document_paths rt (str "/doc/007/delete/") (str "/delete/")
                  View_delete_document [(str "doc_id", 7%Z)] H)).
  exists (str "007"). split; [split; [discriminate|reflexivity]|].
  split; [reflexivity|]. split; [reflexivity|]. split; [reflexivity|].
  vm_compute. discriminate.
Defined.

(** X23.  A request that is not a POST, to whatever path outside the admin
    site, sends nothing to the model and neither creates nor changes a
    twin: the views that call the model answer such a request before
    anything else.  (It can still delete: the twins that go with a
    deleted document.) *)
Theorem only_post_reaches_model (rt : Runtime) (svc : service)
    (path_info : text) (request : HttpRequest) (st st' : site)
    (resp : HttpResponse) :
  method request <> POST_method ->
  get_response rt svc path_info request st = Some (resp, st') ->
  sent (ai_world st') = sent (ai_world st)
  /\ forall k c,
       twins (ai_world st') !! k = Some c -> twins (ai_world st) !! k = Some c.
Proof.
  intros Hne.
  assert (Hm : bool_decide (method request = POST_method) = false)
    by now apply bool_decide_eq_false.
  assert (Hvia : forall x : HttpResponse * site,
             (sent (ai_world (snd x)) = sent (ai_world st)
              /\ forall k c,
                   twins (ai_world (snd x)) !! k = Some c ->
                   twins (ai_world st) !! k = Some c) ->
             Some x = Some (resp, st') ->
             sent (ai_world st') = sent (ai_world st)
             /\ forall k c,
                  twins (ai_world st') !! k = Some c ->
                  twins (ai_world st) !! k = Some c).
  { intros [r s] H [= _ <-]. exact H. }
  unfold get_response.
  destruct (resolve rt path_info) as [[view kwargs]|];
    [|now apply Hvia].
  destruct view; try discriminate;
    try (destruct (kwarg kwargs (str "doc_id")) as [doc_id|];
         [|now apply Hvia]);
    apply Hvia.
  - now split.
  - destruct (create_document_cases rt request st) as [E|[E|(p & E & _)]];
      rewrite E; now split.
  - unfold get_document, get_object_or_404.
    destruct (documents st !! doc_id); [|now split].
    rewrite run_get_twin_content_loaded. now split.
  - unfold update_document, get_object_or_404.
    destruct (documents st !! doc_id); [|now split].
    rewrite Hm. now split.
  - unfold delete_document, get_object_or_404.
    destruct (documents st !! doc_id); [|now split].
    unfold delete_cascade. cbn [snd ai_world twins sent].
    split; [reflexivity|]. intros k c H.
    now apply map_lookup_filter_Some in H as [H _].
  - unfold sync_ai_twin. rewrite Hm. now split.
  - unfold reorder_documents. rewrite Hm. now split.
  - unfold ai_assist. rewrite Hm. now split.
Qed.

Lemma only_post_reaches_model_witness :
  let rt := example_runtime (fun _ => JSONDecodeError []) in
  let svc : service := fun _ _ => Reply (str "## Twin") in
  let request := {| method := str "GET"; POST := []; body := [] |} in
  let st := {| documents := {[ 1%Z := row_of login_flow ]};
               ai_world := world0 |} in
  method request <> POST_method
  /\ get_response rt svc (str "/doc/1/sync/") request st
     = Some (HttpResponseNotAllowed [POST_method], st)
  /\ sent (ai_world st) = sent (ai_world st).
Proof.
  intros rt svc request st.
  assert (H1 : method request <> POST_method) by (vm_compute; discriminate).
  assert (H2 : get_response rt svc (str "/doc/1/sync/") request st
               = Some (HttpResponseNotAllowed [POST_method], st))
    by reflexivity.
  split; [exact H1|]. split; [exact H2|].
  exact (proj1 (only_post_reaches_model rt svc (str "/doc/1/sync/") request
                  st st _ H1 H2)).
Defined.
